(** * Patent crawl and ingestion pipeline: embedding and verified properties

    The development follows the Python sources:
    - [getlinks_final.py] (crawl controller, link log, checkpoint file),
    - [getlinks_1.py]     (the chunked crawler, [scrape_date_range]),
    - [ipfs_handler.py]   (two-phase upload to the content store),
    - [working.py]        (extraction and the ingestion loop).

    External parties (the browser, the network, the vector index, the
    HTML libraries) are oracles or section variables; the IPFS daemon is a
    small content-addressed store over an address oracle; everything the
    sources compute themselves is an executable definition. *)

From Stdlib Require Import ZArith Lia Ascii String DecimalString.
From Stdlib Require DecimalPos.
From stdpp Require Import gmap strings list.

Open Scope string_scope.
Open Scope Z_scope.
Open Scope list_scope.

(* ================================================================== *)
(** ** Python string primitives *)
(* ================================================================== *)

(** A Python [str] is modelled by a [string] of code points below 256.
    Characters beyond that range are outside the model, among them the
    decimal digits that [\d] and [int()] take beside 0..9. *)
Module PyStr.

Definition code (c : ascii) : N := N_of_ascii c.

Definition between (lo hi : N) (c : ascii) : bool :=
  ((lo <=? code c) && (code c <=? hi))%N.

(** [str.isspace] on one character: TAB..CR, FS..US, space, NEL, NBSP. *)
Definition isspace (c : ascii) : bool :=
  between 9 13 c || between 28 32 c || between 133 133 c || between 160 160 c.

(** [\d] of [re] and the digits of [int()]: 0..9 in this range. *)
Definition isdigit (c : ascii) : bool := between 48 57 c.

(** [A-Z0-9] *)
Definition isupper_or_digit (c : ascii) : bool := between 65 90 c || isdigit c.

Fixpoint lstrip (s : string) : string :=
  match s with
  | EmptyString => EmptyString
  | String c s' => if isspace c then lstrip s' else s
  end.

Fixpoint rstrip (s : string) : string :=
  match s with
  | EmptyString => EmptyString
  | String c s' =>
      match rstrip s' with
      | EmptyString => if isspace c then EmptyString else String c EmptyString
      | r => String c r
      end
  end.

(** [s.strip()] *)
Definition strip (s : string) : string := rstrip (lstrip s).

(** [s.split(sep)] for a one-character separator. *)
Fixpoint split (sep : ascii) (s : string) : list string :=
  match s with
  | EmptyString => [EmptyString]
  | String c s' =>
      if decide (c = sep) then EmptyString :: split sep s'
      else match split sep s' with
           | h :: t => String c h :: t
           | [] => [String c EmptyString]
           end
  end.

(** [s.replace(c, empty)] for a one-character [c]. *)
Fixpoint remove_char (x : ascii) (s : string) : string :=
  match s with
  | EmptyString => EmptyString
  | String c s' => if decide (c = x) then remove_char x s' else String c (remove_char x s')
  end.

(** Line boundaries of [str.splitlines]: LF, VT, FF, CR, FS, GS, RS, NEL. *)
Definition islinebreak (c : ascii) : bool :=
  between 10 13 c || between 28 30 c || between 133 133 c.

(** [s.splitlines()]; CR LF is one boundary. *)
Fixpoint splitlines (s : string) : list string :=
  match s with
  | EmptyString => []
  | String c s' =>
      if islinebreak c then
        EmptyString ::
          match s' with
          | String c' s'' =>
              if (code c =? 13)%N && (code c' =? 10)%N then splitlines s'' else splitlines s'
          | EmptyString => []
          end
      else match splitlines s' with
           | h :: t => String c h :: t
           | [] => [String c EmptyString]
           end
  end.

(** The lines of a text read from a file opened in text mode, without
    their ends: with universal newlines LF, CR and CR LF each end a
    line.  The last element is what stands behind the last line end. *)
Fixpoint text_lines (s : string) : list string :=
  match s with
  | EmptyString => [EmptyString]
  | String c s' =>
      if (code c =? 13)%N then
        EmptyString ::
          match s' with
          | String c' s'' => if (code c' =? 10)%N then text_lines s'' else text_lines s'
          | EmptyString => [EmptyString]
          end
      else if (code c =? 10)%N then EmptyString :: text_lines s'
      else match text_lines s' with
           | h :: t => String c h :: t
           | [] => [String c EmptyString]
           end
  end.

(** Neither LF nor CR. *)
Definition not_line_end (c : ascii) : bool :=
  negb ((code c =? 10)%N || (code c =? 13)%N).

(** [sep.join(l)] *)
Fixpoint join (sep : string) (l : list string) : string :=
  match l with
  | [] => EmptyString
  | [x] => x
  | x :: l' => x +:+ sep +:+ join sep l'
  end.

Fixpoint all_chars (p : ascii -> bool) (s : string) : bool :=
  match s with
  | EmptyString => true
  | String c s' => p c && all_chars p s'
  end.

(** The longest prefix of at most [n] characters satisfying [p]. *)
Fixpoint take_while (p : ascii -> bool) (n : nat) (s : string) : string :=
  match n, s with
  | S n', String c s' => if p c then String c (take_while p n' s') else EmptyString
  | _, _ => EmptyString
  end.

(** Value of a string of decimal digits, most significant first. *)
Fixpoint digits_value (acc : Z) (s : string) : Z :=
  match s with
  | EmptyString => acc
  | String c s' => digits_value (10 * acc + (Z.of_N (code c) - 48)) s'
  end.

(** The body of a decimal literal accepted by [int()]: digits, with single
    underscores between digits. *)
Fixpoint int_body (acc : Z) (after_digit : bool) (s : string) : option Z :=
  match s with
  | EmptyString => if after_digit then Some acc else None
  | String c s' =>
      if isdigit c then int_body (10 * acc + (Z.of_N (code c) - 48)) true s'
      else if decide (c = "_"%char) then
             if after_digit then int_body acc false s' else None
           else None
  end.

(** The white space [int()] skips around a literal: TAB..CR, the space,
    NEL and NBSP.  FS..US, which [str.strip] removes, are left standing
    and make [int()] raise. *)
Definition isspace_int (c : ascii) : bool :=
  between 9 13 c || between 32 32 c || between 133 133 c || between 160 160 c.

(** [s] without the leading, and without the trailing, characters
    that satisfy [p]. *)
Fixpoint lskip (p : ascii → bool) (s : string) : string :=
  match s with
  | EmptyString => EmptyString
  | String c s' => if p c then lskip p s' else s
  end.

Fixpoint rskip (p : ascii → bool) (s : string) : string :=
  match s with
  | EmptyString => EmptyString
  | String c s' =>
      match rskip p s' with
      | EmptyString => if p c then EmptyString else String c EmptyString
      | r => String c r
      end
  end.

(** [int(s)]: [None] stands for [ValueError]. *)
Definition py_int (s : string) : option Z :=
  match rskip isspace_int (lskip isspace_int s) with
  | String "-" r => Z.opp <$> int_body 0 false r
  | String "+" r => int_body 0 false r
  | r => int_body 0 false r
  end.

(** One attempt of the pattern [US\d{1,11}] at the head of [s]:
    the digits are taken greedily, at most eleven of them. *)
Definition match_US (s : string) : option string :=
  match s with
  | String "U" (String "S" r) =>
      match take_while isdigit 11 r with
      | EmptyString => None
      | ds => Some ("US" +:+ ds)
      end
  | _ => None
  end.

(** The scan of [re.findall]: try each position from the left; after a
    match, resume behind its last character ([skip] characters are
    still inside the previous match). *)
Fixpoint findall_go (skip : nat) (s : string) : list string :=
  match s with
  | EmptyString => []
  | String c s' =>
      match skip with
      | S k => findall_go k s'
      | O =>
          match match_US s with
          | Some tok => tok :: findall_go (String.length tok - 1) s'
          | None => findall_go 0 s'
          end
      end
  end.

(** [re.findall(r"US\d{1,11}", html)] *)
Definition findall_US (html : string) : list string := findall_go 0 html.

(** [str(n)] for an [int]. *)
Definition py_str (n : Z) : string := NilZero.string_of_int (Z.to_int n).

(** Zero-padded decimal of a non-negative number, at least [w] digits. *)
Fixpoint zeros (n : nat) : string :=
  match n with O => EmptyString | S n' => String "0" (zeros n') end.

Definition pad (w : nat) (n : Z) : string :=
  let s := py_str n in zeros (w - String.length s) +:+ s.

(** The two letters [US] and at least one digit 0..9 behind them, as
    the matches of [US\d{1,11}] in this range are. *)
Definition is_token (t : string) : Prop :=
  ∃ ds, t = "US" +:+ ds ∧ ds ≠ EmptyString ∧ all_chars isdigit ds = true.

End PyStr.

(* ================================================================== *)
(** ** Naive datetimes *)
(* ================================================================== *)

(** A naive [datetime] is represented by its count of microseconds since
    1970-01-01T00:00:00 in the proleptic Gregorian calendar, so that
    [==] on datetimes is equality and subtracting a [timedelta] is
    subtraction. *)
Module PyDate.
Import PyStr.

Definition datetime := Z.

Definition US_PER_DAY : Z := 86400000000.

(** [timedelta(days=n)] *)
Definition timedelta_days (n : Z) : Z := n * US_PER_DAY.

(** [dt.date()] as a day number, and the midnight of a day. *)
Definition day_of (dt : datetime) : Z := dt / US_PER_DAY.
Definition midnight (day : Z) : datetime := day * US_PER_DAY.

Definition is_leap (y : Z) : bool :=
  (y mod 4 =? 0) && (negb (y mod 100 =? 0) || (y mod 400 =? 0)).

Definition days_in_month (y m : Z) : Z :=
  if m =? 2 then (if is_leap y then 29 else 28)
  else if (m =? 4) || (m =? 6) || (m =? 9) || (m =? 11) then 30
  else 31.

(** Day number of a civil date (years counted from March). *)
Definition days_from_civil (y m d : Z) : Z :=
  let y := if m <=? 2 then y - 1 else y in
  let era := y / 400 in
  let yoe := y - era * 400 in
  let doy := (153 * (if 2 <? m then m - 3 else m + 9) + 2) / 5 + d - 1 in
  let doe := yoe * 365 + yoe / 4 - yoe / 100 + doy in
  era * 146097 + doe - 719468.

(** Civil date [(year, month, day)] of a day number. *)
Definition civil_from_days (z : Z) : Z * Z * Z :=
  let z := z + 719468 in
  let era := z / 146097 in
  let doe := z - era * 146097 in
  let yoe := (doe - doe / 1460 + doe / 36524 - doe / 146096) / 365 in
  let y := yoe + era * 400 in
  let doy := doe - (365 * yoe + yoe / 4 - yoe / 100) in
  let mp := (5 * doy + 2) / 153 in
  let d := doy - (153 * mp + 2) / 5 + 1 in
  let m := if mp <? 10 then mp + 3 else mp - 9 in
  (if m <=? 2 then y + 1 else y, m, d).

(** [dt.strftime("%Y<sep>%m<sep>%d")] (years 1000..9999). *)
Definition strftime (sep : string) (dt : datetime) : string :=
  let '(y, m, d) := civil_from_days (day_of dt) in
  pad 4 y +:+ sep +:+ pad 2 m +:+ sep +:+ pad 2 d.

(** The directive patterns of [strptime]:
    [%Y] is [\d\d\d\d], [%m] is [1[0-2]|0[1-9]|[1-9]],
    [%d] is [3[01]|[12]\d|0[1-9]|[1-9]| [1-9]]. *)
Definition year_field (s : string) : bool :=
  all_chars isdigit s && bool_decide (String.length s = 4%nat).

Definition short_number (hi : Z) (s : string) : bool :=
  all_chars isdigit s
  && bool_decide (1 <= String.length s <= 2)%nat
  && (1 <=? digits_value 0 s) && (digits_value 0 s <=? hi).

Definition month_field (s : string) : bool := short_number 12 s.

Definition day_field (s : string) : bool :=
  short_number 31 s
  || match s with
     | String " " (String c EmptyString) => between 49 57 c
     | _ => false
     end.

(** [datetime.strptime(s, "%Y-%m-%d")]; [None] stands for [ValueError]
    (no match, unconverted data, or a day the month does not have). *)
Definition strptime_ymd (s : string) : option datetime :=
  match split "-" s with
  | [y; m; d] =>
      if year_field y && month_field m && day_field d then
        let Y := digits_value 0 y in
        let M := digits_value 0 m in
        let D := digits_value 0 (lstrip d) in
        if (1 <=? Y) && (D <=? days_in_month Y M)
        then Some (midnight (days_from_civil Y M D))
        else None
      else None
  | _ => None
  end.

End PyDate.

(* ================================================================== *)
(** ** Results of fallible code *)
(* ================================================================== *)

Inductive exn := ValueError | AttributeError | WebDriverException | ConnectionError.

Inductive result (A : Type) :=
| Ok (a : A)
| Raise (e : exn).
Arguments Ok {A} a.
Arguments Raise {A} e.

(** [dict.fromkeys(l)] as a list: the first occurrence of each key, in
    order; [seen] holds the keys met so far. *)
Fixpoint fromkeys_from (seen : gset string) (l : list string) : list string :=
  match l with
  | [] => []
  | x :: l' =>
      if decide (x ∈ seen) then fromkeys_from seen l'
      else x :: fromkeys_from ({[x]} ∪ seen) l'
  end.

Definition fromkeys (l : list string) : list string := fromkeys_from ∅ l.

(* ================================================================== *)
(** ** getlinks_final.py: the crawl controller *)
(* ================================================================== *)

Module GetLinksFinal.
Import PyStr PyDate.

Definition no_of_results : Z := 100.
Definition PAGE_LOAD_DELAY : nat := 15.
Definition BETWEEN_PAGES_DELAY : nat := 10.
Definition MAX_RETRIES : nat := 3.

(** [get_date_range()], given the reading of the clock. *)
Definition get_date_range (now : datetime) : datetime * datetime :=
  let end_date := now - timedelta_days 5 in
  let start_date := end_date - timedelta_days 10 in
  (start_date, end_date).

(** The two durable files.  [patents_file] is the list of the lines of
    patent_urls.txt, every record ended by a newline (an absent file has
    no line); [state_file] is the content of recent_scraping_state.txt,
    [None] when the file does not exist. *)
Record files := Files {
  patents_file : list string;
  state_file : option string
}.

Definition load_existing_patents (fs : files) : gset string :=
  list_to_set (strip <$> patents_file fs).

(** The lines [save_new_patents] appends. *)
Definition save_new_patents (new_patents : list string) (existing_patents : gset string)
  : list string :=
  filter (λ patent, patent ∉ existing_patents) new_patents.

Definition construct_url (page_num : Z) (start_date end_date : datetime) : string :=
  "https://patents.google.com/?country=US&before=publication:" +:+ strftime EmptyString end_date
  +:+ "&after=publication:" +:+ strftime EmptyString start_date
  +:+ "&language=ENGLISH&type=PATENT&num=" +:+ py_str no_of_results
  +:+ "&dups=language&page=" +:+ py_str page_num.

(** The content [save_scraping_state] writes. *)
Definition save_scraping_state (date : datetime) (page_num : Z) : string :=
  strftime "-" date +:+ "," +:+ py_str page_num.

(** [load_scraping_state()]: only [FileNotFoundError] is handled. *)
Definition load_scraping_state (f : option string) : result (option datetime * Z) :=
  match f with
  | None => Ok (None, 0)
  | Some content =>
      match split "," (strip content) with
      | [date_str; page_num] =>
          match strptime_ymd date_str with
          | None => Raise ValueError
          | Some d =>
              match py_int page_num with
              | None => Raise ValueError
              | Some p => Ok (Some d, p)
              end
          end
      | _ => Raise ValueError
      end
  end.

Definition patent_link (patent_number : string) : string :=
  "https://patents.google.com/patent/" +:+ patent_number.

(** What a run does to the outside, in order. *)
Inductive event :=
| DriverNew
| DriverGet (page_num : Z) (url : string) (page_source : option string)
| Sleep (seconds : nat)
| LogWrite (line : string)
| StateWrite (page_num : Z) (content : string)
| DriverQuit.

Inductive fetched :=
| Page (patent_numbers : list string)
| Raised.

(** How the pagination loop was left: [break] on an empty page, the
    handler of the outer [try], or not yet (the fuel of the model ran
    out while the loop was still turning). *)
Inductive exit := WindowDone | Failed | Running.

Record run := Run {
  outcome : result exit;
  all_patent_links : list string;
  files_after : files;
  trace : list event
}.

Section Controller.
(** The browser: what [driver.get(url)] followed by [driver.page_source]
    gives at the [n]-th call of the run, [None] when it raises. *)
Variable driver : string → nat → option string.

(** The retry loop of one page.  [left] is [MAX_RETRIES - retry_count],
    the number of turns the guard [retry_count < MAX_RETRIES] still
    allows; with no turn left the loop would end without a result,
    which does not happen as the last failure raises. *)
Fixpoint retry_loop (left retry_count : nat) (page_num : Z) (url : string) (n : nat)
  : fetched * nat * list event :=
  match left with
  | O => (Raised, n, [])
  | S left' =>
      match driver url n with
      | Some html =>
          (Page (findall_US html), S n,
           [DriverGet page_num url (Some html); Sleep PAGE_LOAD_DELAY])
      | None =>
          let retry_count := S retry_count in
          if (retry_count =? MAX_RETRIES)%nat
          then (Raised, S n, [DriverGet page_num url None])
          else
            let '(r, n', evs) := retry_loop left' retry_count page_num url (S n) in
            (r, n', DriverGet page_num url None :: Sleep PAGE_LOAD_DELAY :: evs)
      end
  end.

(** The [while True] loop over pages. *)
Fixpoint page_loop (fuel : nat) (start_date end_date : datetime) (page_num : Z) (n : nat)
    (existing_patents : gset string) (all_links : list string) (fs : files)
  : exit * list string * files * list event :=
  match fuel with
  | O => (Running, all_links, fs, [])
  | S fuel' =>
      let current_url := construct_url page_num start_date end_date in
      match retry_loop MAX_RETRIES 0 page_num current_url n with
      | (Raised, _, evs) => (Failed, all_links, fs, evs)
      | (Page [], _, evs) => (WindowDone, all_links, fs, evs)
      | (Page patent_numbers, n', evs) =>
          let patent_numbers := fromkeys patent_numbers in
          let patent_links := patent_link <$> patent_numbers in
          let new_patents := filter (λ link, link ∉ existing_patents) patent_links in
          let written := save_new_patents new_patents existing_patents in
          let existing_patents := existing_patents ∪ list_to_set new_patents in
          let content := save_scraping_state start_date page_num in
          let fs' := {| patents_file := patents_file fs ++ written;
                        state_file := Some content |} in
          let '(x, links, fs'', evs') :=
            page_loop fuel' start_date end_date (page_num + 1) n'
              existing_patents (all_links ++ new_patents) fs' in
          (x, links, fs'',
           evs ++ (LogWrite <$> written)
               ++ [StateWrite page_num content; Sleep BETWEEN_PAGES_DELAY] ++ evs')
      end
  end.

(** [getLinks()] with the clock reading [now].  The state is loaded
    before the [try]; the handlers and the [finally] clause make every
    later exception end in a normal return. *)
Definition getLinks (fuel : nat) (now : datetime) (fs : files) : run :=
  let '(start_date, end_date) := get_date_range now in
  let existing_patents := load_existing_patents fs in
  match load_scraping_state (state_file fs) with
  | Raise e => Run (Raise e) [] fs [DriverNew]
  | Ok (last_date, page_num) =>
      let page_num := if decide (last_date = Some start_date) then page_num else 0 in
      let '(x, links, fs', evs) :=
        page_loop fuel start_date end_date page_num 0 existing_patents [] fs in
      Run (Ok x) links fs'
          (DriverNew :: evs ++ match x with Running => [] | _ => [DriverQuit] end)
  end.

End Controller.
End GetLinksFinal.

(* ================================================================== *)
(** ** getlinks_1.py: [scrape_date_range] *)
(* ================================================================== *)

Module GetLinks1.
Import PyStr PyDate.
Import GetLinksFinal.

Definition max_retries : nat := 3.

(** How one turn of [for retry in range(max_retries)] ends. *)
Inductive turn :=
| Break (new_patents written : list string)   (* page done, next page *)
| Return (x : exit)                            (* [return all_patent_links] *)
| Exhausted.                                   (* the [for] ran out of values *)

Section Scraper.
Variable driver : string → nat → option string.

(** The [for] loop over the values [retries] still to come. *)
Fixpoint for_retry (retries : list nat) (page_num : Z) (url : string) (n : nat)
    (existing_patents : gset string) : turn * nat * list event :=
  match retries with
  | [] => (Exhausted, n, [])
  | retry :: retries' =>
      match driver url n with
      | Some html =>
          match findall_US html with
          | [] => (Return WindowDone, S n,
                   [DriverGet page_num url (Some html); Sleep 15])
          | patent_numbers =>
              let patent_numbers := fromkeys patent_numbers in
              let patent_links := patent_link <$> patent_numbers in
              let new_patents := filter (λ link, link ∉ existing_patents) patent_links in
              let written := save_new_patents new_patents existing_patents in
              (Break new_patents written, S n,
               [DriverGet page_num url (Some html); Sleep 15]
                 ++ (LogWrite <$> written) ++ [Sleep 15])
          end
      | None =>
          if (retry <? max_retries - 1)%nat then
            let '(t, n', evs) := for_retry retries' page_num url (S n) existing_patents in
            (t, n', DriverGet page_num url None :: DriverQuit :: DriverNew :: Sleep 5 :: evs)
          else (Return Failed, S n, [DriverGet page_num url None])
      end
  end.

(** [scrape_date_range(driver, start_date, end_date, existing_patents)]:
    the exit, the links collected, the lines of the log and the events. *)
Fixpoint scrape_date_range (fuel : nat) (start_date end_date : datetime) (page_num : Z)
    (n : nat) (existing_patents : gset string) (all_links lines : list string)
  : exit * list string * list string * list event :=
  match fuel with
  | O => (Running, all_links, lines, [])
  | S fuel' =>
      let current_url := construct_url page_num start_date end_date in
      match for_retry (seq 0 max_retries) page_num current_url n existing_patents with
      | (Return x, _, evs) => (x, all_links, lines, evs)
      | (Break new_patents written, n', evs) =>
          let '(x, links, lines', evs') :=
            scrape_date_range fuel' start_date end_date (page_num + 1) n'
              (existing_patents ∪ list_to_set new_patents)
              (all_links ++ new_patents) (lines ++ written) in
          (x, links, lines', evs ++ evs')
      | (Exhausted, n', evs) =>
          let '(x, links, lines', evs') :=
            scrape_date_range fuel' start_date end_date page_num n'
              existing_patents all_links lines in
          (x, links, lines', evs ++ evs')
      end
  end.

End Scraper.
End GetLinks1.

(* ================================================================== *)
(** ** Records and their JSON text *)
(* ================================================================== *)

(** A patent record is a Python [dict] with string keys: an association
    list in insertion order.  Its values are strings, lists of strings
    and [None]. *)
Module Json.
Import PyStr.

Inductive value :=
| JStr (s : string)
| JList (l : list string)
| JNull.

Definition dict := list (string * value).

(** [d.get(key, default)] *)
Fixpoint get (d : dict) (key : string) (default : value) : value :=
  match d with
  | [] => default
  | (k, v) :: d' => if decide (k = key) then v else get d' key default
  end.

Fixpoint lookup (d : dict) (key : string) : option value :=
  match d with
  | [] => None
  | (k, v) :: d' => if decide (k = key) then Some v else lookup d' key
  end.

(** [d[key] = v]: a present key keeps its place, a new one goes last. *)
Fixpoint set (d : dict) (key : string) (v : value) : dict :=
  match d with
  | [] => [(key, v)]
  | (k, v') :: d' => if decide (k = key) then (k, v) :: d' else (k, v') :: set d' key v
  end.

(** [d.pop(key, None)] *)
Definition pop (d : dict) (key : string) : dict :=
  filter (λ kv, kv.1 ≠ key) d.

(** Truth value of a record field, as [if v:] takes it. *)
Definition truthy (v : value) : bool :=
  match v with
  | JStr EmptyString => false
  | JStr _ => true
  | JList [] => false
  | JList _ => true
  | JNull => false
  end.

Definition dquote : ascii := ascii_of_N 34.
Definition LF : ascii := ascii_of_N 10.

Definition hex_digit (n : N) : ascii :=
  if (n <? 10)%N then ascii_of_N (48 + n) else ascii_of_N (87 + n).

(** [\u00XX] *)
Definition u_escape (c : ascii) : string :=
  "\u00" +:+ String (hex_digit (code c / 16)) (String (hex_digit (code c mod 16)) EmptyString).

(** The escapes of [json.encoder]: with [ensure_ascii] everything
    outside [' '..'~'] is escaped, without it only the control
    characters, the quote and the backslash. *)
Definition escape_char (ensure_ascii : bool) (c : ascii) : string :=
  if decide (c = dquote) then String "\" (String dquote EmptyString)
  else if decide (c = "\"%char) then "\\"
  else if (code c =? 10)%N then "\n"
  else if (code c =? 13)%N then "\r"
  else if (code c =? 9)%N then "\t"
  else if (code c =? 8)%N then "\b"
  else if (code c =? 12)%N then "\f"
  else if (code c <? 32)%N then u_escape c
  else if ensure_ascii && (126 <? code c)%N then u_escape c
  else String c EmptyString.

Fixpoint escape (ensure_ascii : bool) (s : string) : string :=
  match s with
  | EmptyString => EmptyString
  | String c s' => escape_char ensure_ascii c +:+ escape ensure_ascii s'
  end.

Definition encode_string (ensure_ascii : bool) (s : string) : string :=
  String dquote (escape ensure_ascii s +:+ String dquote EmptyString).

Fixpoint spaces (n : nat) : string :=
  match n with O => EmptyString | S n' => String " " (spaces n') end.

(** The text between two items at nesting depth [level]: with
    [indent=k] a comma, a newline and [k * level] spaces; without
    [indent] a comma and one space. *)
Definition newline_indent (indent : option nat) (level : nat) : string :=
  match indent with
  | Some k => String LF (spaces (k * level))
  | None => EmptyString
  end.

Definition item_separator (indent : option nat) (level : nat) : string :=
  match indent with
  | Some _ => "," +:+ newline_indent indent level
  | None => ", "
  end.

Definition dumps_list (indent : option nat) (ensure_ascii : bool) (level : nat)
    (l : list string) : string :=
  match l with
  | [] => "[]"
  | _ =>
      "[" +:+ newline_indent indent (S level)
      +:+ join (item_separator indent (S level)) (encode_string ensure_ascii <$> l)
      +:+ newline_indent indent level +:+ "]"
  end.

Definition dumps_value (indent : option nat) (ensure_ascii : bool) (level : nat)
    (v : value) : string :=
  match v with
  | JStr s => encode_string ensure_ascii s
  | JList l => dumps_list indent ensure_ascii level l
  | JNull => "null"
  end.

Definition dumps_item (indent : option nat) (ensure_ascii : bool) (kv : string * value)
  : string :=
  encode_string ensure_ascii kv.1 +:+ ": " +:+ dumps_value indent ensure_ascii 1 kv.2.

(** [json.dumps(d, indent=indent, ensure_ascii=ensure_ascii)] *)
Definition dumps (indent : option nat) (ensure_ascii : bool) (d : dict) : string :=
  match d with
  | [] => "{}"
  | _ =>
      "{" +:+ newline_indent indent 1
      +:+ join (item_separator indent 1) (dumps_item indent ensure_ascii <$> d)
      +:+ newline_indent indent 0 +:+ "}"
  end.

End Json.

(* ================================================================== *)
(** ** The world of the ingestion run *)
(* ================================================================== *)

Module World.

(** The IPFS node as the handler sees it through the HTTP API: the
    blocks by content address, the pinned addresses, and the files of
    the mutable file system (path to address). *)
Record node := Node {
  blocks : gmap string string;
  pins : gset string;
  mfs : gmap string string
}.

Inductive request :=
| Add (body : string)                 (* /add *)
| Cat (address : string)              (* /cat *)
| PinAdd (address : string)           (* /pin/add *)
| FilesMkdir (path : string)          (* /files/mkdir *)
| FilesRm (path : string)             (* /files/rm, force *)
| FilesCp (address path : string)     (* /files/cp /ipfs/<address> <path> *)
| FilesStat (path : string)           (* /files/stat *)
| FilesLs (path : string).            (* /files/ls *)

Record response := Response {
  status_code : Z;
  Hash : string;
  text : string
}.

Inductive event :=
| Http (r : request) (status : option Z)   (* [None]: [requests.post] raised *)
| FileWrite (path content : string)         (* [open(path, 'w')] and the dump into it *)
| Browse (url : string) (rendered : bool)
| Encode (document : string)
| CollectionAdd (doc_id document : string)
| Sleep (seconds : nat).

Record state := State {
  local_files : gmap string string;   (* path to content *)
  ipfs : node;
  sent : nat;                         (* HTTP requests so far *)
  browsed : nat;                      (* pages asked of the browser so far *)
  indexed : nat;                      (* documents handed to the index so far *)
  log : list event
}.

Definition emit (e : event) (s : state) : state :=
  State (local_files s) (ipfs s) (sent s) (browsed s) (indexed s) (log s ++ [e]).

Definition with_ipfs (nd : node) (s : state) : state :=
  State (local_files s) nd (sent s) (browsed s) (indexed s) (log s).

Definition with_files (fs : gmap string string) (s : state) : state :=
  State fs (ipfs s) (sent s) (browsed s) (indexed s) (log s).

Definition tick_sent (s : state) : state :=
  State (local_files s) (ipfs s) (S (sent s)) (browsed s) (indexed s) (log s).

Definition tick_browsed (s : state) : state :=
  State (local_files s) (ipfs s) (sent s) (S (browsed s)) (indexed s) (log s).

Definition tick_indexed (s : state) : state :=
  State (local_files s) (ipfs s) (sent s) (browsed s) (S (indexed s)) (log s).

(** Computations that read and change the world and may raise. *)
Definition M (A : Type) : Type := state → result A * state.

Definition ret {A} (a : A) : M A := λ s, (Ok a, s).

Definition bind {A B} (m : M A) (k : A → M B) : M B :=
  λ s, match m s with
       | (Ok a, s') => k a s'
       | (Raise e, s') => (Raise e, s')
       end.

Definition raise {A} (e : exn) : M A := λ s, (Raise e, s).

(** [try: m  except Exception as e: handler e] *)
Definition try_except {A} (m : M A) (handler : exn → M A) : M A :=
  λ s, match m s with
       | (Ok a, s') => (Ok a, s')
       | (Raise e, s') => handler e s'
       end.

Definition write_file (path content : string) : M unit :=
  λ s, (Ok tt, emit (FileWrite path content)
                 (with_files (<[path := content]> (local_files s)) s)).

Definition sleep (seconds : nat) : M unit :=
  λ s, (Ok tt, emit (Sleep seconds) s).

Definition exists_file (path : string) : M bool :=
  λ s, (Ok (bool_decide (is_Some (local_files s !! path))), s).

(** The contents written to the file [path], in order. *)
Definition file_writes (path : string) (tr : list event) : list string :=
  omap (λ e, match e with
             | FileWrite p c => if decide (p = path) then Some c else None
             | _ => None
             end) tr.

(** The addresses a pin was asked for, in order. *)
Definition pin_requests (tr : list event) : list string :=
  omap (λ e, match e with Http (PinAdd a) _ => Some a | _ => None end) tr.

Declare Scope world_scope.
Delimit Scope world_scope with world.
Notation "x <- m ;; k" := (bind m (λ x, k))
  (at level 100, m at next level, right associativity) : world_scope.
Notation "m ;;; k" := (bind m (λ _, k))
  (at level 100, right associativity) : world_scope.

End World.

(* ================================================================== *)
(** ** ipfs_handler.py *)
(* ================================================================== *)

Module IpfsHandler.
Import PyStr Json World.
Local Open Scope world_scope.

(** How the network treats a request: the daemon serves it, an error
    status comes back, or [requests.post] raises. *)
Inductive reply := Served | ErrorStatus | Unreachable.

Definition output_dir : string := "patent_json".

Section Handler.
(** The content address of a body, and the fate of the [n]-th request. *)
Variable cid : string → string.
Variable net : nat → reply.
(** [json.loads]; [None] when it raises. *)
Variable loads : string → option dict.

(** The daemon serving one request. *)
Definition serve (r : request) (nd : node) : response * node :=
  match r with
  | Add body =>
      (Response 200 (cid body) EmptyString,
       Node (<[cid body := body]> (blocks nd)) (pins nd) (mfs nd))
  | Cat address =>
      match blocks nd !! address with
      | Some body => (Response 200 EmptyString body, nd)
      | None => (Response 500 EmptyString EmptyString, nd)
      end
  | PinAdd address =>
      match blocks nd !! address with
      | Some _ => (Response 200 EmptyString EmptyString,
                   Node (blocks nd) ({[address]} ∪ pins nd) (mfs nd))
      | None => (Response 500 EmptyString EmptyString, nd)
      end
  | FilesMkdir _ => (Response 200 EmptyString EmptyString, nd)
  | FilesRm path => (Response 200 EmptyString EmptyString,
                     Node (blocks nd) (pins nd) (delete path (mfs nd)))
  | FilesCp address path =>
      match mfs nd !! path with
      | Some _ => (Response 500 EmptyString EmptyString, nd)
      | None => (Response 200 EmptyString EmptyString,
                 Node (blocks nd) (pins nd) (<[path := address]> (mfs nd)))
      end
  | FilesStat path =>
      match mfs nd !! path with
      | Some address => (Response 200 address EmptyString, nd)
      | None => (Response 500 EmptyString EmptyString, nd)
      end
  | FilesLs _ => (Response 200 EmptyString EmptyString, nd)
  end.

(** [requests.post(...)] *)
Definition post (r : request) : M response :=
  λ s,
    match net (sent s) with
    | Unreachable => (Raise ConnectionError, emit (Http r None) (tick_sent s))
    | ErrorStatus =>
        (Ok (Response 500 EmptyString EmptyString), emit (Http r (Some 500)) (tick_sent s))
    | Served =>
        let '(resp, nd) := serve r (ipfs s) in
        (Ok resp, emit (Http r (Some (status_code resp))) (with_ipfs nd (tick_sent s)))
    end.

Definition init_mfs_directory : M unit :=
  try_except (_ <- post (FilesMkdir "/patents") ;; ret tt) (λ _, ret tt).

(** [get_from_ipfs]: the loaded record, [[]] standing for [{}]. *)
Definition get_from_ipfs (ipfs_hash : string) : M dict :=
  try_except
    (response <- post (Cat ipfs_hash) ;;
     if status_code response =? 200 then
       match loads (text response) with
       | Some d => ret d
       | None => raise ValueError
       end
     else ret [])
    (λ _, ret []).

Definition verify_ipfs_upload (ipfs_hash : string) : M bool :=
  try_except
    (data <- get_from_ipfs ipfs_hash ;;
     match data with
     | [] => ret false
     | _ => _ <- post (FilesLs "/patents") ;; ret true
     end)
    (λ _, ret false).

Definition formatted (patent_data : dict) (patent_number : string) : dict :=
  [ ("patent_title", get patent_data "patent_title" (JStr EmptyString));
    ("abstract", get patent_data "abstract" (JStr EmptyString));
    ("inventions", get patent_data "inventions" (JList []));
    ("publication_number", JStr patent_number);
    ("filing_date", get patent_data "filing_date" (JStr EmptyString));
    ("assignee_name", get patent_data "assignee_name" (JStr EmptyString));
    ("inventor_name", get patent_data "inventor_name" (JStr EmptyString));
    ("patent_url", get patent_data "patent_url" (JStr EmptyString));
    ("patent_text", get patent_data "patent_text" (JStr EmptyString)) ].

Definition json_path (patent_number : string) : string :=
  output_dir +:+ "/" +:+ patent_number +:+ ".json".

Definition mfs_path (patent_number : string) : string :=
  "/patents/" +:+ patent_number +:+ ".json".

(** [save_and_upload(patent_data, patent_number)] *)
Definition save_and_upload (patent_data : dict) (patent_number : string) : M string :=
  try_except
    (let formatted_data := formatted patent_data patent_number in
     response <- post (Add (dumps (Some 2%nat) true formatted_data)) ;;
     if status_code response =? 200 then
       let ipfs_hash := Hash response in
       let formatted_data := set formatted_data "ipfs_hash" (JStr ipfs_hash) in
       final_response <- post (Add (dumps (Some 2%nat) true formatted_data)) ;;
       if status_code final_response =? 200 then
         let final_hash := Hash final_response in
         write_file (json_path patent_number) (dumps (Some 2%nat) false formatted_data) ;;;
         pin_response <- post (PinAdd final_hash) ;;
         try_except (_ <- post (FilesRm (mfs_path patent_number)) ;; ret tt)
                    (λ _, ret tt) ;;;
         try_except (_ <- post (FilesCp final_hash (mfs_path patent_number)) ;; ret tt)
                    (λ _, ret tt) ;;;
         verify_response <- post (FilesStat (mfs_path patent_number)) ;;
         _ <- verify_ipfs_upload final_hash ;;
         ret final_hash
       else ret EmptyString
     else ret EmptyString)
    (λ _, ret EmptyString).

End Handler.
End IpfsHandler.

(* ================================================================== *)
(** ** Steps that leave the store alone *)
(* ================================================================== *)

Module Frames.
Import World.

(** A step is quiet when it leaves the blocks, the pins and the local
    files alone, asks for no pin and writes no file. *)
Definition quiet (s s' : state) : Prop :=
  blocks (ipfs s') = blocks (ipfs s)
  ∧ pins (ipfs s') = pins (ipfs s)
  ∧ local_files s' = local_files s
  ∧ ∃ new, log s' = log s ++ new
           ∧ pin_requests new = []
           ∧ ∀ path, file_writes path new = [].

Definition Quiet {A} (m : M A) : Prop := ∀ s r s', m s = (r, s') → quiet s s'.

(** The requests that neither add a block nor pin one. *)
Definition mild (r : request) : Prop :=
  match r with Add _ | PinAdd _ => False | _ => True end.

End Frames.

(* ================================================================== *)
(** ** working.py: extraction and the ingestion loop *)
(* ================================================================== *)

Module Working.
Import PyStr Json World IpfsHandler.
Local Open Scope world_scope.

(** A tag found by [soup.find]: its [.text] and its [str(...)]. *)
Record tag := Tag { tag_text : string; tag_str : string }.

(** What the index stage does with the [n]-th document. *)
Inductive index_reply := Indexed | EncodeRaises | AddRaises.

(** The rest of [s] behind the prefix [p]. *)
Fixpoint strip_prefix (p s : string) : option string :=
  match p, s with
  | EmptyString, _ => Some s
  | String a p', String b s' => if decide (a = b) then strip_prefix p' s' else None
  | _, _ => None
  end.

(** [re.search]: the first position from the left where [at_head] matches. *)
Fixpoint search (at_head : string → option string) (s : string) : option string :=
  match at_head s with
  | Some g => Some g
  | None =>
      match s with
      | EmptyString => None
      | String _ s' => search at_head s'
      end
  end.

(** Group 1 of [/patent/([A-Z0-9]+)] matched at the head of [s]. *)
Definition patent_no_at (s : string) : option string :=
  match strip_prefix "/patent/" s with
  | Some r =>
      match take_while isupper_or_digit (String.length r) r with
      | EmptyString => None
      | g => Some g
      end
  | None => None
  end.

Definition not_slash (c : ascii) : bool := negb (bool_decide (c = "/"%char)).

(** Group 1 of [/patent/([^/]+)/] matched at the head of [s]: the run
    up to the next slash, which must be there. *)
Definition publication_at (s : string) : option string :=
  match strip_prefix "/patent/" s with
  | Some r =>
      match take_while not_slash (String.length r) r with
      | EmptyString => None
      | g => match strip_prefix g r with
             | Some (String "/" _) => Some g
             | _ => None
             end
      end
  | None => None
  end.

(** ['\n'.join(line.strip() for line in text.splitlines() if line.strip())] *)
Definition collapse_lines (text : string) : string :=
  join (String LF EmptyString)
    (filter (λ line, line ≠ EmptyString) (strip <$> splitlines text)).

Definition local_json_path (patent_no : string) : string :=
  "patent_json/" +:+ patent_no +:+ ".json".

(** How the body of the loop of [main] ends for one URL. *)
Inductive verdict :=
| UrlError                (* the handler of the outer [try] *)
| InvalidUrl
| AlreadyStored (patent_no : string)
| ExtractionFailed
| IndexFailed
| UploadFailed
| Processed (patent_no ipfs_hash : string).

Section Ingestion.
Variable cid : string → string.
Variable net : nat → reply.
Variable loads : string → option dict.
(** The browser of [clean_html_content]: the page source of the [n]-th
    page asked for, [None] when creating the driver, loading the page
    or closing the driver raises. *)
Variable page_source : string → nat → option string.
(** BeautifulSoup: whether [BeautifulSoup(text, 'html.parser')] returns
    (the parser raises on some texts), and [soup.find] and [str(soup)].
    html2text: [h.handle(text)], [None] when it raises. *)
Variable soup_parses : string → bool.
Variable soup_find : string → string → string → option tag.
Variable soup_str : string → string.
Variable handle : string → option string.
(** The index stage and [uuid.uuid4()]. *)
Variable index : nat → index_reply.
Variable uuid4 : nat → string.

Definition text_or_NA (t : option tag) : string :=
  match t with
  | Some e => strip (tag_text e)
  | None => "N/A"
  end.

(** [h.handle(str(claims)) if claims else None], with its lines
    collapsed when it is not empty; [None] when html2text raises. *)
Definition claims_text_of (claims : option tag) : option value :=
  match claims with
  | Some e =>
      match handle (tag_str e) with
      | Some EmptyString => Some (JStr EmptyString)
      | Some t => Some (JStr (collapse_lines t))
      | None => None
      end
  | None => Some JNull
  end.

(** The record built from a rendered page; [None] when the parser of
    BeautifulSoup or html2text raises. *)
Definition parse_page (response_text : string) : option dict :=
  if soup_parses response_text then
    let claims := soup_find response_text "section" "claims" in
    let abstract := soup_find response_text "section" "abstract" in
    let inventor := soup_find response_text "dd" "inventor" in
    let assigneeCurrent := soup_find response_text "dd" "assigneeCurrent" in
    let assigneeOriginal := soup_find response_text "dd" "assigneeOriginal" in
    let filingDate := soup_find response_text "time" "filingDate" in
    let title := soup_find response_text "span" "title" in
    full_text ← handle (soup_str response_text);
    let full_text := collapse_lines full_text in
    claims_text ← claims_text_of claims;
    Some
      [ ("patent_title", JStr (text_or_NA title));
        ("abstract", JStr (text_or_NA abstract));
        ("inventor_name", JStr (text_or_NA inventor));
        ("assignee_name",
          JStr (match assigneeCurrent with
                | Some e => strip (tag_text e)
                | None => text_or_NA assigneeOriginal
                end));
        ("filing_date", JStr (text_or_NA filingDate));
        ("claims_text", claims_text);
        ("patent_text", JStr full_text) ]
  else None.

(** [clean_html_content(url)]: [None] from the handler of its [try],
    which takes what the browser, the parser and html2text raise. *)
Definition clean_html_content (url : string) : M (option dict) :=
  λ s,
    match page_source url (browsed s) with
    | None => (Ok None, emit (Browse url false) (tick_browsed s))
    | Some response_text =>
        (Ok (parse_page response_text), emit (Browse url true) (tick_browsed s))
    end.

(** The record [clean_html_content] builds at the next page the
    browser is asked for, if it builds one. *)
Definition cleaned_page (url : string) (s : state) : option dict :=
  page_source url (browsed s) ≫= parse_page.

Definition extract_patent_info_with_llm (url : string) : M (option dict) :=
  patent_data <- clean_html_content url ;;
  match patent_data with
  | None | Some [] => ret None
  | Some patent_data =>
      let patent_info := set patent_data "patent_url" (JStr url) in
      let patent_info :=
        set patent_info "publication_number"
          (JStr (default "N/A" (search publication_at url))) in
      let claims_text := get patent_data "claims_text" JNull in
      let patent_info :=
        set patent_info "inventions"
          (if truthy claims_text
           then match claims_text with JStr t => JList [t] | _ => JList [] end
           else JList []) in
      ret (Some (pop patent_info "claims_text"))
  end.

(** [generate_embeddings] then [store_in_chromadb]. *)
Definition embed_and_store (document : string) : M string :=
  λ s,
    let s1 := emit (Encode document) (tick_indexed s) in
    match index (indexed s) with
    | EncodeRaises => (Raise ValueError, s1)
    | AddRaises => (Raise ValueError, s1)
    | Indexed =>
        let doc_id := uuid4 (indexed s) in
        (Ok doc_id, emit (CollectionAdd doc_id document) s1)
    end.

(** The body of [for url in patent_urls]. *)
Definition process_url (url : string) : M verdict :=
  let url := remove_char "@" (strip url) in
  try_except
    (match search patent_no_at url with
     | None => raise AttributeError
     | Some patent_no =>
         if bool_decide (patent_no = EmptyString) then ret InvalidUrl
         else
           let json_path := local_json_path patent_no in
           present <- exists_file json_path ;;
           if (present : bool) then ret (AlreadyStored patent_no)
           else
             patent_data <- extract_patent_info_with_llm url ;;
             match patent_data with
             | None | Some [] => sleep 2 ;;; ret ExtractionFailed
             | Some patent_data =>
                 let patent_data := set patent_data "publication_number" (JStr patent_no) in
                 stored <- try_except
                   (write_file json_path (dumps (Some 4%nat) false patent_data) ;;;
                    _ <- embed_and_store (dumps None true patent_data) ;;
                    ret true)
                   (λ _, ret false) ;;
                 if (stored : bool) then
                   ipfs_hash <- save_and_upload cid net loads patent_data patent_no ;;
                   sleep 2 ;;;
                   match ipfs_hash with
                   | EmptyString => ret UploadFailed
                   | _ => ret (Processed patent_no ipfs_hash)
                   end
                 else ret IndexFailed
             end
     end)
    (λ _, ret UrlError).

(** [read_patent_urls_from_file()]: the file is read in text mode, line
    by line. *)
Definition read_patent_urls_from_file (filename : string) : M (list string) :=
  λ s,
    match local_files s !! filename with
    | Some content =>
        (Ok (filter (λ line, line ≠ EmptyString) (strip <$> text_lines content)), s)
    | None => (Ok [], s)
    end.

Fixpoint for_urls (patent_urls : list string) : M (list verdict) :=
  match patent_urls with
  | [] => ret []
  | url :: rest =>
      v <- process_url url ;;
      vs <- for_urls rest ;;
      ret (v :: vs)
  end.

(** [main()] *)
Definition main : M (list verdict) :=
  init_mfs_directory cid net ;;;
  patent_urls <- read_patent_urls_from_file "test_url.txt" ;;
  match patent_urls with
  | [] => ret []
  | _ => for_urls patent_urls
  end.

End Ingestion.

(** The record file of the patent a URL names is on disk. *)
Definition stored (s : state) (url : string) : Prop :=
  ∃ patent_no, search patent_no_at (remove_char "@" (strip url)) = Some patent_no
               ∧ is_Some (local_files s !! local_json_path patent_no).

End Working.

(* ================================================================== *)
(** ** Observations on runs *)
(* ================================================================== *)

Module Observe.
Import PyStr PyDate GetLinksFinal.

(** The page indices asked of the browser, in order. *)
Definition fetched_pages (tr : list event) : list Z :=
  omap (λ e, match e with DriverGet p _ _ => Some p | _ => None end) tr.

(** The links found by the fetches that succeeded, in order of discovery. *)
Definition found (e : event) : list string :=
  match e with
  | DriverGet _ _ (Some html) => patent_link <$> findall_US html
  | _ => []
  end.

Definition discovered (tr : list event) : list string := tr ≫= found.

(** The records appended to the log, in order. *)
Definition log_writes (tr : list event) : list string :=
  omap (λ e, match e with LogWrite l => Some l | _ => None end) tr.

(** The pages for which a checkpoint was written, in order. *)
Definition state_writes (tr : list event) : list Z :=
  omap (λ e, match e with StateWrite p _ => Some p | _ => None end) tr.

Definition is_state_write (e : event) : bool :=
  match e with StateWrite _ _ => true | _ => false end.

Definition is_driver_new (e : event) : bool :=
  match e with DriverNew => true | _ => false end.

Definition is_get (p : Z) (e : event) : bool :=
  match e with DriverGet q _ _ => bool_decide (q = p) | _ => false end.

Definition is_failed_get (p : Z) (e : event) : bool :=
  match e with DriverGet q _ None => bool_decide (q = p) | _ => false end.

(** Number of attempts on page [p], and number of browser sessions. *)
Definition attempts (p : Z) (tr : list event) : nat :=
  length (filter (λ q, q = p) (fetched_pages tr)).
Definition sessions (tr : list event) : nat := length (filter is_driver_new tr).

(** The content of the checkpoint file behind a trace. *)
Definition checkpoint_after (before : option string) (tr : list event) : option string :=
  foldl (λ c e, match e with StateWrite _ c' => Some c' | _ => c end) before tr.

(** Three failed attempts on page [p] in a row, a delay between them. *)
Definition three_failures (p : Z) (url : string) : list event :=
  [DriverGet p url None; Sleep PAGE_LOAD_DELAY;
   DriverGet p url None; Sleep PAGE_LOAD_DELAY;
   DriverGet p url None].

(** The same in [scrape_date_range]: the session is closed and created
    anew behind each failure but the last. *)
Definition three_failures_new_sessions (p : Z) (url : string) : list event :=
  [DriverGet p url None; DriverQuit; DriverNew; Sleep 5;
   DriverGet p url None; DriverQuit; DriverNew; Sleep 5;
   DriverGet p url None].

(** The rest of the trace behind the [k]-th failed attempt on page [p]. *)
Fixpoint after_failures (k : nat) (p : Z) (tr : list event) : option (list event) :=
  match k with
  | O => Some tr
  | S k' =>
      match tr with
      | [] => None
      | e :: tr' =>
          if is_failed_get p e then after_failures k' p tr' else after_failures k p tr'
      end
  end.

(** The rest of the trace behind the first creation of a session. *)
Fixpoint after_new_session (tr : list event) : option (list event) :=
  match tr with
  | [] => None
  | e :: tr' => if is_driver_new e then Some tr' else after_new_session tr'
  end.

(** The recovery step in the words of the specification: once the
    attempt budget on page [p] is used up, the browser session is
    created anew and page [p] is attempted once more. *)
Definition recovers_after_budget (budget : nat) (p : Z) (tr : list event) : bool :=
  match after_failures budget p tr with
  | None => true
  | Some rest =>
      match after_new_session rest with
      | Some rest' => existsb (is_get p) rest'
      | None => false
      end
  end.

(** A checkpoint file in the form [load_scraping_state] accepts: a date
    for [%Y-%m-%d], a comma, a literal for [int]. *)
Definition well_formed_state (content : string) : bool :=
  match split "," (strip content) with
  | [date_str; page_num] =>
      bool_decide (is_Some (strptime_ymd date_str))
      && bool_decide (is_Some (py_int page_num))
  | _ => false
  end.

(** The page the loop of [getLinks] starts with: the checkpoint is taken
    when its date equals the start of the window, else page 0. *)
Definition first_page (now : datetime) (fs : files) : result Z :=
  match load_scraping_state (state_file fs) with
  | Raise e => Raise e
  | Ok (last_date, page_num) =>
      Ok (if decide (last_date = Some (get_date_range now).1) then page_num else 0)
  end.

(** One invocation of the crawler: its browser, how long the process
    lives (in turns of the page loop) and its clock. *)
Record invocation := Invocation {
  inv_driver : string → nat → option string;
  inv_fuel : nat;
  inv_now : datetime
}.

(** Successive invocations on the same files: the files left by the
    last one and the discoveries of all of them. *)
Fixpoint invocations (runs : list invocation) (fs : files) : files * list event :=
  match runs with
  | [] => (fs, [])
  | i :: runs' =>
      let r := getLinks (inv_driver i) (inv_fuel i) (inv_now i) fs in
      let '(fs', tr) := invocations runs' (files_after r) in
      (fs', trace r ++ tr)
  end.

(** A log is clean when reading it back gives its lines unchanged. *)
Definition clean (lines : list string) : Prop := Forall (λ l, strip l = l) lines.

End Observe.

(* ================================================================== *)
(** ** Concrete runs *)
(* ================================================================== *)

Module Examples.
Import PyStr PyDate GetLinksFinal Observe.

(** 2024-01-16, at midnight and at half past ten. *)
Definition jan16_midnight : datetime := midnight 19738.
Definition jan16_1030 : datetime := midnight 19738 + 37800000000.

(** A result list of three pages: two with links, the third empty. *)
Definition three_pages (url : string) (n : nat) : option string :=
  match n with
  | 0%nat => Some "US1234567, US1234567, US7654321"
  | 1%nat => Some "<a>US5</a> <a>US1234567</a>"
  | _ => Some "no results"
  end.

(** A result list that never ends: every page shows one more patent. *)
Definition endless (url : string) (n : nat) : option string :=
  Some ("US" +:+ py_str (Z.of_nat (S n))).

(** A browser that fails three times and works from then on. *)
Definition down_three_times (url : string) (n : nat) : option string :=
  if (n <? 3)%nat then None else Some "US1".

Definition no_files : files := Files [] None.

(** The checkpoint of page 1 of the window that starts on 2024-01-01. *)
Definition checkpointed : files := Files [] (Some "2024-01-01,1").

End Examples.

Module IngestExamples.
Import PyStr Json World IpfsHandler Working.

(** A content store that serves every request, with addresses that
    spell out the body, and a [json.loads] that always raises. *)
Definition always_served (n : nat) : reply := Served.

Definition address (body : string) : string := "Qm" +:+ body.
Definition no_loads (text : string) : option dict := None.

(** A browser that delivers a page with none of the elements looked
    for, and one that delivers nothing. *)
Definition bare_page (url : string) (n : nat) : option string := Some "<html></html>".
Definition no_page (url : string) (n : nat) : option string := None.
Definition no_tag (html name itemprop : string) : option tag := None.
Definition as_is (s : string) : string := s.

(** A parser that takes every page, and an html2text that returns its
    input. *)
Definition parses (html : string) : bool := true.
Definition converts (text : string) : option string := Some text.

(** The parser of the standard library raises on a marked section that
    it does not know; the page that holds one. *)
Definition marked_section : string := "<![x y]>".
Definition marked_page (url : string) (n : nat) : option string := Some marked_section.
Definition html_parser (html : string) : bool :=
  negb (bool_decide (html = marked_section)).

Definition always_indexed (n : nat) : index_reply := Indexed.
Definition doc_id (n : nat) : string := "doc".

Definition patent_url : string := "https://patents.google.com/patent/US1234567/en".

(** An empty disk and an empty store; and a disk with the record file
    of US1234567 on it. *)
Definition fresh : state := State ∅ (Node ∅ ∅ ∅) 0 0 0 [].
Definition on_disk : state :=
  State {[ "patent_json/US1234567.json" := "{}" ]} (Node ∅ ∅ ∅) 0 0 0 [].

End IngestExamples.

(* ================================================================== *)
(** ** More observations on crawl runs *)
(* ================================================================== *)

Module CrawlShape.
Import PyStr PyDate GetLinksFinal.

(** The year of a date. *)
Definition year (dt : datetime) : Z := (civil_from_days (day_of dt)).1.1.

(** The pages whose fetch succeeded, in order. *)
Definition succeeded_pages (tr : list event) : list Z :=
  omap (λ e, match e with DriverGet p _ (Some _) => Some p | _ => None end) tr.

Definition is_driver_quit (e : event) : bool :=
  match e with DriverQuit => true | _ => false end.

(** The number of calls of [driver.quit()]. *)
Definition quits (tr : list event) : nat := length (filter is_driver_quit tr).

End CrawlShape.

(* ================================================================== *)
(** ** getlinks_1.py: chunks, progress and the main loop *)
(* ================================================================== *)

Module GetLinks1Run.
Import PyStr PyDate GetLinksFinal GetLinks1.

Definition CHUNK_DAYS : Z := 10.

(** [datetime(1700, 1, 1)] and [datetime(1900, 1, 1)] *)
Definition jan1_1700 : datetime := midnight (days_from_civil 1700 1 1).
Definition jan1_1900 : datetime := midnight (days_from_civil 1900 1 1).

(** The loop of the generator [get_date_chunks()], for [fuel] turns at
    most: the chunks it yields, in order. *)
Fixpoint chunks_from (fuel : nat) (current end_ : datetime) : list (datetime * datetime) :=
  match fuel with
  | O => []
  | S fuel' =>
      if current <? end_ then
        let chunk_end := Z.min (current + timedelta_days (CHUNK_DAYS - 1)) end_ in
        (current, chunk_end) :: chunks_from fuel' (chunk_end + timedelta_days 1) end_
      else []
  end.

(** [list(get_date_chunks())] with the clock reading [now].  Every turn
    but the last moves [current] on by ten days, so the loop makes at
    most one turn per ten days between 1700 and [now], and one more. *)
Definition get_date_chunks (now : datetime) : list (datetime * datetime) :=
  chunks_from (Z.to_nat ((now - jan1_1700) / timedelta_days CHUNK_DAYS + 1)) jan1_1700 now.

(** The content [save_progress] writes to scraping_progress.txt. *)
Definition save_progress (date : datetime) : string := strftime "-" date.

(** [load_progress()]: only [FileNotFoundError] is handled. *)
Definition load_progress (f : option string) : result datetime :=
  match f with
  | None => Ok jan1_1900
  | Some content =>
      match strptime_ymd (strip content) with
      | Some d => Ok d
      | None => Raise ValueError
      end
  end.

(** The two durable files: the lines of patent_urls.txt and the content
    of scraping_progress.txt, [None] when it does not exist. *)
Record disk := Disk {
  patents : list string;
  progress : option string
}.

(** What a run does, in order: the actions of the crawl, the calls of
    [scrape_date_range] and the writes of the progress file. *)
Inductive step :=
| Crawl (e : event)
| Scrape (start_date end_date : datetime)
| ProgressWrite (content : string).

Section Run.
Variable driver : string → nat → option string.

(** [for start_date, end_date in get_date_chunks()]: the total when the
    loop ran to its end, [None] when a call of [scrape_date_range] was
    still turning as the fuel of the model ran out.  [n] counts the
    calls of the browser and grows by the fetches of each chunk. *)
Fixpoint for_chunks (fuel : nat) (chunks : list (datetime * datetime))
    (start_from : datetime) (n : nat) (existing_patents : gset string)
    (total_new_patents : Z) (d : disk) : option Z * disk * list step :=
  match chunks with
  | [] => (Some total_new_patents, d, [])
  | (start_date, end_date) :: chunks' =>
      if start_date <? start_from then
        for_chunks fuel chunks' start_from n existing_patents total_new_patents d
      else
        let '(x, new_patents, lines, evs) :=
          scrape_date_range driver fuel start_date end_date 0 n existing_patents []
            (patents d) in
        match x with
        | Running => (None, Disk lines (progress d), Scrape start_date end_date :: (Crawl <$> evs))
        | _ =>
            let content := save_progress end_date in
            let '(r, d', steps) :=
              for_chunks fuel chunks' start_from
                (n + length (Observe.fetched_pages evs))
                (existing_patents ∪ list_to_set new_patents)
                (total_new_patents + Z.of_nat (length new_patents))
                (Disk lines (Some content)) in
            (r, d',
             Scrape start_date end_date :: (Crawl <$> evs)
               ++ [ProgressWrite content; Crawl (Sleep 15)] ++ steps)
        end
  end.

(** [getLinks()] of getlinks_1.py: the main retry loop, [tries] turns of
    it at most; [now k] is the reading of the clock in turn [k].  The
    handler of the loop waits a minute and the loop starts over. *)
Fixpoint getLinks (tries : nat) (fuel : nat) (now : nat → datetime) (k : nat) (n : nat)
    (d : disk) : option Z * disk * list step :=
  match tries with
  | O => (None, d, [])
  | S tries' =>
      let existing_patents : gset string := list_to_set (strip <$> patents d) in
      match load_progress (progress d) with
      | Raise _ =>
          let '(r, d', steps) := getLinks tries' fuel now (S k) n d in
          (r, d', Crawl DriverNew :: Crawl (Sleep 60) :: Crawl DriverQuit :: steps)
      | Ok start_from =>
          let '(r, d', steps) :=
            for_chunks fuel (get_date_chunks (now k)) start_from n existing_patents 0 d in
          (r, d',
           Crawl DriverNew :: steps
             ++ match r with Some _ => [Crawl DriverQuit] | None => [] end)
      end
  end.

End Run.



Definition crawl (tr : list step) : list event :=
  omap (λ s, match s with Crawl e => Some e | _ => None end) tr.

End GetLinks1Run.

(* ================================================================== *)
(** ** ipfs_handler.py: the other requests *)
(* ================================================================== *)

Module IpfsHandlerRest.
Import PyStr Json World IpfsHandler.
Local Open Scope world_scope.

(** The request got its answer with status 200; the request got an
    answer at all. *)
Definition is_served (r : reply) : bool :=
  match r with Served => true | _ => false end.

Definition is_answered (r : reply) : bool :=
  match r with Unreachable => false | _ => true end.

Section Handler.
Variable cid : string → string.
Variable net : nat → reply.



End Handler.

End IpfsHandlerRest.

(* ================================================================== *)
(** ** From the log of the crawler to the ingestion loop *)
(* ================================================================== *)

Module LinkFile.
Import PyStr Json.

(** The text of the log for its lines: [save_new_patents] writes each
    record as the link and a newline. *)
Definition file_text (lines : list string) : string :=
  foldr (λ line rest, line +:+ String LF rest) EmptyString lines.

End LinkFile.

(** Inputs of the examples of the second crawler and of the store. *)
Module MoreExamples.
Import PyStr PyDate Json GetLinks1Run.


(** A clock that stands at 1700-01-06. *)
Definition early (k : nat) : datetime := jan1_1700 + timedelta_days 5.



End MoreExamples.


(* ================================================================== *)
(** ** Keys in order of first occurrence *)
(* ================================================================== *)

Section Fromkeys.
Implicit Types (l : list string) (seen known : gset string).

Lemma elem_of_fromkeys_from seen l x :
  x ∈ fromkeys_from seen l ↔ x ∈ l ∧ x ∉ seen.
Proof.
  revert seen. induction l as [|y l IH]; intros seen; simpl.
  - set_solver.
  - case_decide.
    + rewrite IH. set_solver.
    + rewrite !elem_of_cons, IH.
      destruct (decide (x = y)) as [->|]; set_solver.
Qed.

Lemma NoDup_fromkeys_from seen l : NoDup (fromkeys_from seen l).
Proof.
  revert seen. induction l as [|y l IH]; intros seen; simpl.
  - constructor.
  - case_decide; [apply IH|].
    constructor; [|apply IH].
    rewrite elem_of_fromkeys_from. set_solver.
Qed.

Lemma filter_fromkeys_from known seen l :
  filter (λ x, x ∉ known) (fromkeys_from seen l) = fromkeys_from (known ∪ seen) l.
Proof.
  revert seen. induction l as [|y l IH]; intros seen; simpl; [done|].
  destruct (decide (y ∈ seen)) as [HS|HS].
  - rewrite decide_True by set_solver. apply IH.
  - destruct (decide (y ∈ known)) as [HT|HT].
    + rewrite filter_cons_False by (intros ?; done).
      rewrite decide_True by set_solver.
      rewrite IH. f_equal. set_solver.
    + rewrite filter_cons_True by done.
      rewrite decide_False by set_solver.
      rewrite IH. do 2 f_equal. set_solver.
Qed.

Lemma fromkeys_from_app seen l1 l2 :
  fromkeys_from seen (l1 ++ l2)
  = fromkeys_from seen l1 ++ fromkeys_from (seen ∪ list_to_set l1) l2.
Proof.
  revert seen. induction l1 as [|y l1 IH]; intros seen; simpl.
  - f_equal. set_solver.
  - case_decide.
    + rewrite IH. do 2 f_equal. set_solver.
    + simpl. rewrite IH. do 3 f_equal. set_solver.
Qed.

Lemma fromkeys_from_id seen l :
  NoDup l → (∀ x, x ∈ l → x ∉ seen) → fromkeys_from seen l = l.
Proof.
  revert seen. induction l as [|y l IH]; intros seen Hnd Hfresh; simpl; [done|].
  apply NoDup_cons in Hnd as [Hy Hnd].
  rewrite decide_False by (apply Hfresh; left).
  f_equal. apply IH; [done|].
  intros x Hx. specialize (Hfresh x). set_solver.
Qed.

Lemma list_to_set_fromkeys_from seen l :
  seen ∪ list_to_set (fromkeys_from seen l) = seen ∪ list_to_set l.
Proof.
  apply set_eq. intros x.
  rewrite !elem_of_union, !elem_of_list_to_set, elem_of_fromkeys_from.
  destruct (decide (x ∈ seen)); naive_solver.
Qed.

Lemma fromkeys_from_fmap (f : string → string) `{!Inj (=) (=) f} seen known l :
  (∀ x, x ∈ seen ↔ f x ∈ known) →
  f <$> fromkeys_from seen l = fromkeys_from known (f <$> l).
Proof.
  revert seen known. induction l as [|y l IH]; intros seen known Hrel; simpl; [done|].
  destruct (decide (y ∈ seen)) as [HS|HS].
  - rewrite decide_True by (by apply Hrel). by apply IH.
  - rewrite decide_False by (by rewrite <- Hrel).
    simpl. f_equal. apply IH. intros x.
    rewrite !elem_of_union, !elem_of_singleton, Hrel.
    split; (intros [Heq|?]; [left|by right]); [by subst | by apply (inj f)].
Qed.

(** On a list without repetition, keeping first occurrences of the list
    followed by more keys keeps the list and adds the new keys. *)
Lemma fromkeys_app_NoDup l1 l2 :
  NoDup l1 → fromkeys (l1 ++ l2) = l1 ++ fromkeys_from (list_to_set l1) l2.
Proof.
  intros Hnd. unfold fromkeys. rewrite fromkeys_from_app.
  rewrite fromkeys_from_id by (done || set_solver).
  do 2 f_equal. set_solver.
Qed.

End Fromkeys.


(* ================================================================== *)
(** ** Strings: tokens and links are left alone by [strip] *)
(* ================================================================== *)

Section Strings.
Import PyStr GetLinksFinal.

Lemma append_inj_l (p a b : string) : p +:+ a = p +:+ b → a = b.
Proof. induction p as [|c p IH]; simpl; [done|]. intros [= H]. auto. Qed.

Global Instance patent_link_inj : Inj (=) (=) patent_link.
Proof. intros a b H. by apply append_inj_l in H. Qed.

Lemma all_chars_app p (a b : string) :
  all_chars p (a +:+ b) = all_chars p a && all_chars p b.
Proof. induction a as [|c a IH]; simpl; [done|]. by rewrite IH, andb_assoc. Qed.

Lemma all_chars_impl (p q : ascii → bool) (s : string) :
  (∀ c, p c = true → q c = true) → all_chars p s = true → all_chars q s = true.
Proof.
  intros Hpq. induction s as [|c s IH]; simpl; [done|].
  rewrite !andb_true_iff. intros [? ?]. auto.
Qed.

Lemma take_while_all p n (s : string) : all_chars p (take_while p n s) = true.
Proof.
  revert s. induction n as [|n IH]; intros [|c s]; simpl; try done.
  destruct (p c) eqn:Hc; simpl; [|done]. by rewrite Hc, IH.
Qed.

Lemma digit_not_space c : isdigit c = true → negb (isspace c) = true.
Proof.
  unfold isdigit, isspace, between. generalize (code c). intros n.
  rewrite negb_true_iff, !andb_true_iff, !orb_false_iff, !andb_false_iff.
  rewrite !N.leb_le, !N.leb_gt. lia.
Qed.

Lemma rstrip_no_space (s : string) :
  all_chars (λ c, negb (isspace c)) s = true → rstrip s = s.
Proof.
  induction s as [|c s IH]; simpl; [done|].
  rewrite andb_true_iff, negb_true_iff. intros [Hc Hs].
  rewrite (IH Hs), Hc. by destruct s.
Qed.

Lemma match_US_token (s tok : string) : match_US s = Some tok → is_token tok.
Proof.
  destruct s as [|a [|b r]]; [done| |].
  - destruct a as [[] [] [] [] [] [] [] []]; intros H; discriminate H.
  - destruct a as [[] [] [] [] [] [] [] []]; try (intros H; discriminate H).
    destruct b as [[] [] [] [] [] [] [] []]; try (intros H; discriminate H).
    unfold match_US.
    pose proof (take_while_all isdigit 11 r) as Hall.
    destruct (take_while isdigit 11 r) as [|d ds]; [done|].
    intros [= <-]. by exists (String d ds).
Qed.

Lemma findall_go_cons k c (s : string) :
  findall_go k (String c s)
  = match k with
    | S k' => findall_go k' s
    | O => match match_US (String c s) with
           | Some tok => tok :: findall_go (String.length tok - 1) s
           | None => findall_go 0 s
           end
    end.
Proof. done. Qed.

Lemma findall_go_token k (s t : string) : t ∈ findall_go k s → is_token t.
Proof.
  revert k. induction s as [|c s IH]; intros k; [by intros ?%elem_of_nil|].
  rewrite findall_go_cons.
  destruct k as [|k]; [|by apply IH].
  destruct (match_US (String c s)) as [tok|] eqn:Hm; [|by apply IH].
  intros [->|?]%elem_of_cons; [by eapply match_US_token|by eapply IH].
Qed.

Lemma findall_US_token (html t : string) : t ∈ findall_US html → is_token t.
Proof. apply findall_go_token. Qed.

Lemma strip_patent_link t : is_token t → strip (patent_link t) = patent_link t.
Proof.
  intros (ds & -> & _ & Hds). unfold strip, patent_link.
  change (lstrip ("https://patents.google.com/patent/" +:+ "US" +:+ ds))
    with ("https://patents.google.com/patent/" +:+ "US" +:+ ds).
  apply rstrip_no_space. rewrite !all_chars_app, !andb_true_iff. split_and!; [done|done|].
  eapply all_chars_impl; [|done]. apply digit_not_space.
Qed.

End Strings.


(* ================================================================== *)
(** ** The crawl controller: the retry loop and the page loop *)
(* ================================================================== *)

Section PageLinks.
Import PyStr PyDate GetLinksFinal Observe.

(** The lines one page appends: the links of the page not yet known, each
    once, in order of first occurrence. *)
Lemma written_fromkeys E toks :
  save_new_patents (filter (λ link, link ∉ E) (patent_link <$> fromkeys toks)) E
  = fromkeys_from E (patent_link <$> toks).
Proof.
  unfold save_new_patents, fromkeys.
  rewrite (fromkeys_from_fmap patent_link ∅ ∅) by set_solver.
  rewrite !filter_fromkeys_from. f_equal. set_solver.
Qed.

Lemma new_patents_fromkeys E toks :
  filter (λ link, link ∉ E) (patent_link <$> fromkeys toks)
  = fromkeys_from E (patent_link <$> toks).
Proof.
  unfold fromkeys.
  rewrite (fromkeys_from_fmap patent_link ∅ ∅) by set_solver.
  rewrite filter_fromkeys_from. f_equal. set_solver.
Qed.

End PageLinks.

Section CrawlLemmas.
Import PyStr PyDate GetLinksFinal Observe.
Variable driver : string → nat → option string.

(** The four ways through the retry loop of one page. *)
Lemma retry_loop_cases p url n :
  let get r := DriverGet p url r in
  let nap := Sleep PAGE_LOAD_DELAY in
  (∃ h, driver url n = Some h ∧
     retry_loop driver MAX_RETRIES 0 p url n
     = (Page (findall_US h), S n, [get (Some h); nap]))
  ∨ (∃ h, driver url n = None ∧ driver url (S n) = Some h ∧
     retry_loop driver MAX_RETRIES 0 p url n
     = (Page (findall_US h), S (S n), [get None; nap; get (Some h); nap]))
  ∨ (∃ h, driver url n = None ∧ driver url (S n) = None ∧ driver url (S (S n)) = Some h ∧
     retry_loop driver MAX_RETRIES 0 p url n
     = (Page (findall_US h), S (S (S n)),
        [get None; nap; get None; nap; get (Some h); nap]))
  ∨ (driver url n = None ∧ driver url (S n) = None ∧ driver url (S (S n)) = None ∧
     retry_loop driver MAX_RETRIES 0 p url n
     = (Raised, S (S (S n)), [get None; nap; get None; nap; get None])).
Proof.
  unfold MAX_RETRIES; simpl.
  destruct (driver url n) as [h|] eqn:H0; [left; eauto|right].
  destruct (driver url (S n)) as [h|] eqn:H1; [left; eauto|right].
  destruct (driver url (S (S n))) as [h|] eqn:H2; [left; eauto|right; eauto].
Qed.

(** What the events of one retry loop amount to. *)
Lemma retry_loop_events p url n r n' evs :
  retry_loop driver MAX_RETRIES 0 p url n = (r, n', evs) →
  log_writes evs = [] ∧ state_writes evs = [] ∧ filter is_driver_new evs = []
  ∧ Forall (λ q, q = p) (fetched_pages evs)
  ∧ (length (fetched_pages evs) ≤ MAX_RETRIES)%nat
  ∧ discovered evs = match r with Page toks => patent_link <$> toks | Raised => [] end
  ∧ (∀ q u h, DriverGet q u (Some h) ∈ evs → r = Page (findall_US h)).
Proof.
  intros Hr.
  destruct (retry_loop_cases p url n)
    as [(h & _ & Hc)|[(h & _ & _ & Hc)|[(h & _ & _ & _ & Hc)|(_ & _ & _ & Hc)]]];
    rewrite Hc in Hr; simplify_eq; unfold discovered, MAX_RETRIES; simpl;
    rewrite ?app_nil_r; split_and!; try done; try (repeat constructor; done); try lia;
    intros q u h' Hin; repeat (apply elem_of_cons in Hin as [Hin|Hin]; simplify_eq; try done);
    by apply elem_of_nil in Hin.
Qed.

Lemma page_loop_S fuel sd ed p n E all fs :
  page_loop driver (S fuel) sd ed p n E all fs
  = match retry_loop driver MAX_RETRIES 0 p (construct_url p sd ed) n with
    | (Raised, _, evs) => (Failed, all, fs, evs)
    | (Page [], _, evs) => (WindowDone, all, fs, evs)
    | (Page patent_numbers, n', evs) =>
        let new_patents :=
          filter (λ link, link ∉ E) (patent_link <$> fromkeys patent_numbers) in
        let written := save_new_patents new_patents E in
        let content := save_scraping_state sd p in
        let '(x, links, fs'', evs') :=
          page_loop driver fuel sd ed (p + 1) n' (E ∪ list_to_set new_patents)
            (all ++ new_patents)
            {| patents_file := patents_file fs ++ written; state_file := Some content |} in
        (x, links, fs'',
         evs ++ (LogWrite <$> written)
             ++ [StateWrite p content; Sleep BETWEEN_PAGES_DELAY] ++ evs')
    end.
Proof. done. Qed.

Lemma log_writes_app a b : log_writes (a ++ b) = log_writes a ++ log_writes b.
Proof. apply omap_app. Qed.

Lemma state_writes_app a b : state_writes (a ++ b) = state_writes a ++ state_writes b.
Proof. apply omap_app. Qed.

Lemma fetched_pages_app a b : fetched_pages (a ++ b) = fetched_pages a ++ fetched_pages b.
Proof. apply omap_app. Qed.

Lemma discovered_app a b : discovered (a ++ b) = discovered a ++ discovered b.
Proof. apply bind_app. Qed.

Lemma log_writes_LogWrite l : log_writes (LogWrite <$> l) = l.
Proof. induction l; simpl; [done|]. unfold log_writes in *. simpl. by f_equal. Qed.

Lemma state_writes_LogWrite l : state_writes (LogWrite <$> l) = [].
Proof. induction l; simpl; done. Qed.

Lemma fetched_pages_LogWrite l : fetched_pages (LogWrite <$> l) = [].
Proof. induction l; simpl; done. Qed.

Lemma discovered_LogWrite l : discovered (LogWrite <$> l) = [].
Proof. induction l; simpl; done. Qed.

(** The log after the page loop: the log before it, then the links
    discovered and not yet known, each once, in order of discovery;
    and these are exactly the lines written. *)
Lemma page_loop_log fuel sd ed p n E all fs x links fs' evs :
  page_loop driver fuel sd ed p n E all fs = (x, links, fs', evs) →
  E = list_to_set (patents_file fs) →
  patents_file fs' = patents_file fs ++ fromkeys_from E (discovered evs)
  ∧ log_writes evs = fromkeys_from E (discovered evs).
Proof.
  revert p n E all fs x links fs' evs.
  induction fuel as [|fuel IH]; intros p n E all fs x links fs' evs Hrun HE.
  { simpl in Hrun. simplify_eq. simpl. by rewrite app_nil_r. }
  rewrite page_loop_S in Hrun.
  destruct (retry_loop driver MAX_RETRIES 0 p (construct_url p sd ed) n)
    as [[r n'] evs0] eqn:Hr.
  apply retry_loop_events in Hr as (Hlw & _ & _ & _ & _ & Hdisc & _).
  destruct r as [[|t toks]|]; simplify_eq.
  - rewrite Hdisc, Hlw. simpl. by rewrite app_nil_r.
  - cbv zeta in Hrun.
    rewrite written_fromkeys, new_patents_fromkeys in Hrun.
    remember (patent_link <$> t :: toks) as links0 eqn:Hl0. clear Hl0.
    destruct (page_loop _ _ _ _ _ _ _ _ _) as [[[x1 l1] fs1] evs1] eqn:Hrec in Hrun.
    simplify_eq.
    apply IH in Hrec as [Hfiles Hwrites].
    2:{ cbn [patents_file]. by rewrite list_to_set_app_L. }
    cbn [patents_file] in Hfiles.
    rewrite !discovered_app, !log_writes_app, discovered_LogWrite, log_writes_LogWrite.
    rewrite Hlw, Hfiles.
    change (discovered (?a :: ?b :: evs1)) with (discovered evs1).
    change (log_writes (?a :: ?b :: evs1)) with (log_writes evs1).
    rewrite Hwrites.
    rewrite fromkeys_from_app, list_to_set_fromkeys_from, <- app_assoc. done.
  - rewrite Hdisc, Hlw. simpl. by rewrite app_nil_r.
Qed.

End CrawlLemmas.


Section CrawlRuns.
Import PyStr PyDate GetLinksFinal Observe.

(** [getLinks] in terms of the page loop. *)
Lemma getLinks_unfold driver fuel now fs :
  getLinks driver fuel now fs
  = let start_date := now - timedelta_days 5 - timedelta_days 10 in
    let end_date := now - timedelta_days 5 in
    match load_scraping_state (state_file fs) with
    | Raise e => Run (Raise e) [] fs [DriverNew]
    | Ok (last_date, page_num) =>
        let page_num := if decide (last_date = Some start_date) then page_num else 0 in
        let '(x, links, fs', evs) :=
          page_loop driver fuel start_date end_date page_num 0
            (load_existing_patents fs) [] fs in
        Run (Ok x) links fs'
            (DriverNew :: evs ++ match x with Running => [] | _ => [DriverQuit] end)
    end.
Proof. done. Qed.

Lemma load_existing_clean fs :
  clean (patents_file fs) → load_existing_patents fs = list_to_set (patents_file fs).
Proof.
  intros Hc. unfold load_existing_patents. f_equal.
  induction Hc as [|l ls Hl _ IH]; [done|]. by rewrite fmap_cons, Hl, IH.
Qed.

Lemma discovered_links tr x :
  x ∈ discovered tr → ∃ t, is_token t ∧ x = patent_link t.
Proof.
  unfold discovered. rewrite list_elem_of_bind. intros (e & Hx & _).
  destruct e as [|p u [h|]| | | |]; simpl in Hx; try by apply elem_of_nil in Hx.
  apply list_elem_of_fmap in Hx as (t & -> & Ht).
  exists t. split; [by eapply findall_US_token|done].
Qed.

Lemma clean_fromkeys_discovered E tr : clean (fromkeys_from E (discovered tr)).
Proof.
  apply Forall_forall. intros x [Hx _]%elem_of_fromkeys_from.
  apply discovered_links in Hx as (t & Ht & ->). by apply strip_patent_link.
Qed.

Lemma discovered_end tr x :
  discovered (tr ++ match x with Running => [] | _ => [DriverQuit] end) = discovered tr.
Proof. rewrite discovered_app. destruct x; simpl; by rewrite app_nil_r. Qed.

Lemma log_writes_end tr x :
  log_writes (tr ++ match x with Running => [] | _ => [DriverQuit] end) = log_writes tr.
Proof. rewrite log_writes_app. destruct x; simpl; by rewrite app_nil_r. Qed.

(** One invocation on a clean log. *)
Lemma getLinks_log driver fuel now fs :
  clean (patents_file fs) →
  let r := getLinks driver fuel now fs in
  let known := list_to_set (patents_file fs) in
  patents_file (files_after r) = patents_file fs ++ fromkeys_from known (discovered (trace r))
  ∧ log_writes (trace r) = fromkeys_from known (discovered (trace r)).
Proof.
  intros Hc. cbv zeta. rewrite getLinks_unfold. cbv zeta.
  destruct (load_scraping_state (state_file fs)) as [[last p]|e].
  2:{ simpl. by rewrite app_nil_r. }
  destruct (page_loop _ _ _ _ _ _ _ _ _) as [[[x links] fs'] evs] eqn:Hrun.
  apply page_loop_log in Hrun; [|by apply load_existing_clean].
  cbn [files_after trace].
  change (discovered (DriverNew :: ?l)) with (discovered l).
  change (log_writes (DriverNew :: ?l)) with (log_writes l).
  rewrite discovered_end, log_writes_end.
  by rewrite load_existing_clean in Hrun.
Qed.

Lemma invocations_log runs fs :
  clean (patents_file fs) →
  let known := list_to_set (patents_file fs) in
  let '(fs', tr) := invocations runs fs in
  patents_file fs' = patents_file fs ++ fromkeys_from known (discovered tr)
  ∧ log_writes tr = fromkeys_from known (discovered tr).
Proof.
  revert fs. induction runs as [|i runs IH]; intros fs Hc; cbv zeta.
  { simpl. by rewrite app_nil_r. }
  simpl.
  destruct (getLinks_log (inv_driver i) (inv_fuel i) (inv_now i) fs Hc) as [Hf Hw].
  set (r := getLinks (inv_driver i) (inv_fuel i) (inv_now i) fs) in *.
  cbv zeta in Hf, Hw.
  specialize (IH (files_after r)).
  destruct (invocations runs (files_after r)) as [fs' tr].
  destruct IH as [IHf IHw].
  { rewrite Hf. apply Forall_app. split; [done|apply clean_fromkeys_discovered]. }
  rewrite discovered_app, log_writes_app, IHf, IHw, Hw, Hf.
  rewrite list_to_set_app_L, list_to_set_fromkeys_from.
  rewrite fromkeys_from_app, <- app_assoc. done.
Qed.

(** C3. Whatever the pages show and however often the crawler is
    started again, a log that starts empty holds every link discovered
    exactly once, in the order of first discovery, and every line of it
    was written by exactly one append. *)
Theorem link_log_first_discovery_order (runs : list invocation) (checkpoint : option string) :
  let '(fs', tr) := invocations runs (Files [] checkpoint) in
  patents_file fs' = fromkeys (discovered tr)
  ∧ NoDup (patents_file fs')
  ∧ (∀ link, link ∈ patents_file fs' ↔ link ∈ discovered tr)
  ∧ log_writes tr = patents_file fs'.
Proof.
  pose proof (invocations_log runs (Files [] checkpoint)) as H.
  cbv zeta in H. destruct (invocations runs (Files [] checkpoint)) as [fs' tr].
  destruct H as [Hf Hw]; [constructor|].
  cbn [patents_file] in Hf, Hw. rewrite app_nil_l in Hf.
  change (list_to_set []) with (∅ : gset string) in Hf, Hw.
  split_and!.
  - done.
  - rewrite Hf. apply NoDup_fromkeys_from.
  - intros link. rewrite Hf, elem_of_fromkeys_from. set_solver.
  - by rewrite Hw, Hf.
Qed.

End CrawlRuns.


Section Pagination.
Import PyStr PyDate GetLinksFinal Observe.
Variable driver : string → nat → option string.

Lemma elem_of_fetched_pages q u res tr : DriverGet q u res ∈ tr → q ∈ fetched_pages tr.
Proof.
  intros Hin. unfold fetched_pages. apply list_elem_of_omap.
  by exists (DriverGet q u res).
Qed.

Lemma elem_of_events_app (e : event) a b : e ∈ a ++ b ↔ e ∈ a ∨ e ∈ b.
Proof. apply elem_of_app. Qed.

Lemma not_get_LogWrite q u res (l : list string) : DriverGet q u res ∉ LogWrite <$> l.
Proof. intros (? & ? & _)%list_elem_of_fmap. done. Qed.

(** Pages are asked in rising order, starting with the first page of the loop. *)
Lemma page_loop_pages_ge fuel sd ed p n E all fs x links fs' evs :
  page_loop driver fuel sd ed p n E all fs = (x, links, fs', evs) →
  Forall (λ q, p ≤ q) (fetched_pages evs).
Proof.
  revert p n E all fs x links fs' evs.
  induction fuel as [|fuel IH]; intros p n E all fs x links fs' evs Hrun.
  { simpl in Hrun. simplify_eq. constructor. }
  rewrite page_loop_S in Hrun.
  destruct (retry_loop driver MAX_RETRIES 0 p (construct_url p sd ed) n)
    as [[r n'] evs0] eqn:Hr.
  apply retry_loop_events in Hr as (_ & _ & _ & Hp & _).
  assert (Forall (λ q, p ≤ q) (fetched_pages evs0)) as Hp'.
  { eapply Forall_impl; [done|]. intros q ->. lia. }
  destruct r as [[|t toks]|]; simplify_eq; try done.
  cbv zeta in Hrun.
  destruct (page_loop _ _ _ _ _ _ _ _ _) as [[[x1 l1] fs1] evs1] eqn:Hrec in Hrun.
  simplify_eq. apply IH in Hrec.
  rewrite !fetched_pages_app, fetched_pages_LogWrite.
  rewrite !Forall_app. split_and!; try done; try (by constructor).
  eapply Forall_impl; [done|]. simpl. lia.
Qed.

(** Once a page comes back without a token the loop is left, and no page
    beyond it has been or will be asked for. *)
Lemma page_loop_empty_page fuel sd ed p n E all fs x links fs' evs k u h :
  page_loop driver fuel sd ed p n E all fs = (x, links, fs', evs) →
  DriverGet k u (Some h) ∈ evs → findall_US h = [] →
  x = WindowDone ∧ Forall (λ q, q ≤ k) (fetched_pages evs).
Proof.
  revert p n E all fs x links fs' evs.
  induction fuel as [|fuel IH]; intros p n E all fs x links fs' evs Hrun Hin Hempty.
  { simpl in Hrun. simplify_eq. by apply elem_of_nil in Hin. }
  rewrite page_loop_S in Hrun.
  destruct (retry_loop driver MAX_RETRIES 0 p (construct_url p sd ed) n)
    as [[r n'] evs0] eqn:Hr.
  apply retry_loop_events in Hr as (_ & _ & _ & Hp & _ & _ & Hsome).
  destruct r as [[|t toks]|]; simplify_eq.
  - split; [done|]. apply elem_of_fetched_pages in Hin.
    rewrite Forall_forall in Hp. pose proof (Hp _ Hin) as ->.
    apply Forall_forall. intros q Hq. apply Hp in Hq. lia.
  - cbv zeta in Hrun.
    destruct (page_loop _ _ _ _ _ _ _ _ _) as [[[x1 l1] fs1] evs1] eqn:Hrec in Hrun.
    simplify_eq.
    rewrite !elem_of_events_app in Hin. destruct Hin as [Hin|[Hin|[Hin|Hin]]].
    + apply Hsome in Hin. rewrite Hempty in Hin. done.
    + by apply not_get_LogWrite in Hin.
    + do 2 (apply elem_of_cons in Hin as [?|Hin]; [done|]).
      by apply elem_of_nil in Hin.
    + pose proof (page_loop_pages_ge _ _ _ _ _ _ _ _ _ _ _ _ Hrec) as Hge.
      destruct (IH _ _ _ _ _ _ _ _ _ Hrec Hin Hempty) as [-> Hle].
      split; [done|].
      rewrite !fetched_pages_app, fetched_pages_LogWrite, !Forall_app.
      split_and!; try done; try (by constructor).
      apply elem_of_fetched_pages in Hin.
      rewrite Forall_forall in Hge. apply Hge in Hin.
      eapply Forall_impl; [done|]. intros q ->. lia.
  - apply Hsome in Hin. done.
Qed.

End Pagination.

Section PaginationTheorem.
Import PyStr PyDate GetLinksFinal Observe.

(** C6. In every run, the first page whose body yields no token ends the
    pagination of the window: the loop is left through [break], and no
    page with a higher index is asked of the browser, whatever the
    browser would have answered there. *)
Theorem empty_page_ends_pagination driver fuel now fs k url html :
  let r := getLinks driver fuel now fs in
  DriverGet k url (Some html) ∈ trace r →
  findall_US html = [] →
  outcome r = Ok WindowDone
  ∧ ∀ q url' res, DriverGet q url' res ∈ trace r → q ≤ k.
Proof.
  cbv zeta. rewrite getLinks_unfold. cbv zeta.
  destruct (load_scraping_state (state_file fs)) as [[last p]|e].
  2:{ cbn [trace]. intros Hin. apply elem_of_cons in Hin as [?|Hin]; [done|].
      by apply elem_of_nil in Hin. }
  destruct (page_loop _ _ _ _ _ _ _ _ _) as [[[x links] fs'] evs] eqn:Hrun.
  cbn [trace outcome]. intros Hin Hempty.
  assert (DriverGet k url (Some html) ∈ evs) as Hin'.
  { apply elem_of_cons in Hin as [?|Hin]; [done|].
    apply elem_of_app in Hin as [?|Hin]; [done|].
    destruct x; try by apply elem_of_nil in Hin.
    all: apply elem_of_cons in Hin as [?|Hin]; [done|by apply elem_of_nil in Hin]. }
  destruct (page_loop_empty_page _ _ _ _ _ _ _ _ _ _ _ _ _ _ _ _ Hrun Hin' Hempty)
    as [-> Hle].
  split; [done|]. intros q url' res Hq.
  assert (DriverGet q url' res ∈ evs) as Hq'.
  { apply elem_of_cons in Hq as [?|Hq]; [done|].
    apply elem_of_app in Hq as [?|Hq]; [done|].
    apply elem_of_cons in Hq as [?|Hq]; [done|by apply elem_of_nil in Hq]. }
  apply elem_of_fetched_pages in Hq'.
  rewrite Forall_forall in Hle. by apply Hle.
Qed.
End PaginationTheorem.


Section Checkpoints.
Import PyStr PyDate GetLinksFinal Observe.
Variable driver : string → nat → option string.

Lemma retry_loop_no_state_write p url n r n' evs :
  retry_loop driver MAX_RETRIES 0 p url n = (r, n', evs) →
  Forall (λ e, is_state_write e = false) evs.
Proof.
  intros Hr.
  destruct (retry_loop_cases driver p url n)
    as [(h & _ & Hc)|[(h & _ & _ & Hc)|[(h & _ & _ & _ & Hc)|(_ & _ & _ & Hc)]]];
    rewrite Hc in Hr; simplify_eq; repeat constructor.
Qed.

(** A successful retry loop holds the fetch that gave its tokens. *)
Lemma retry_loop_page p url n toks n' evs :
  retry_loop driver MAX_RETRIES 0 p url n = (Page toks, n', evs) →
  ∃ h, DriverGet p url (Some h) ∈ evs ∧ findall_US h = toks.
Proof.
  intros Hr.
  destruct (retry_loop_cases driver p url n)
    as [(h & _ & Hc)|[(h & _ & _ & Hc)|[(h & _ & _ & _ & Hc)|(_ & _ & _ & Hc)]]];
    rewrite Hc in Hr; simplify_eq;
    (exists h; split; [|done]);
    repeat (try (by left); right).
Qed.

Lemma no_split_without_state_write (evs pre post : list event) q c :
  Forall (λ e, is_state_write e = false) evs → evs ≠ pre ++ StateWrite q c :: post.
Proof.
  intros Hall ->. apply Forall_app in Hall as [_ Hall].
  by apply Forall_cons in Hall as [? _].
Qed.

Lemma retry_loop_success p url n h :
  driver url n = Some h →
  retry_loop driver MAX_RETRIES 0 p url n
  = (Page (findall_US h), S n, [DriverGet p url (Some h); Sleep PAGE_LOAD_DELAY]).
Proof. intros H. unfold MAX_RETRIES. simpl. by rewrite H. Qed.

(** Splitting a trace at a checkpoint write, behind events that are none. *)
Lemma split_behind (A R pre post : list event) q c :
  Forall (λ e, is_state_write e = false) A →
  A ++ R = pre ++ StateWrite q c :: post →
  ∃ pre', pre = A ++ pre' ∧ R = pre' ++ StateWrite q c :: post.
Proof.
  intros HA. revert pre. induction HA as [|a A Ha _ IH]; intros pre Heq.
  { by exists pre. }
  destruct pre as [|e pre]; simpl in Heq; simplify_eq; try done.
  destruct (IH pre) as (pre' & -> & ->); [done|]. by exists pre'.
Qed.

Lemma no_state_write_LogWrite (l : list string) :
  Forall (λ e, is_state_write e = false) (LogWrite <$> l).
Proof. induction l; constructor; done. Qed.

(** When the checkpoint of a page is written, the fetch of that page lies
    before it, and every link of the page is known to the run or has
    been appended to the log before. *)
Lemma page_loop_checkpoints fuel sd ed p n E all fs x links fs' evs :
  page_loop driver fuel sd ed p n E all fs = (x, links, fs', evs) →
  ∀ pre post q c, evs = pre ++ StateWrite q c :: post →
    c = save_scraping_state sd q
    ∧ ∃ url html, DriverGet q url (Some html) ∈ pre
        ∧ findall_US html ≠ []
        ∧ ∀ tok, tok ∈ findall_US html →
            patent_link tok ∈ E ∨ patent_link tok ∈ log_writes pre.
Proof.
  revert p n E all fs x links fs' evs.
  induction fuel as [|fuel IH]; intros p n E all fs x links fs' evs Hrun pre post q c Heq.
  { simpl in Hrun. simplify_eq. by destruct pre. }
  rewrite page_loop_S in Hrun.
  destruct (retry_loop driver MAX_RETRIES 0 p (construct_url p sd ed) n)
    as [[r n'] evs0] eqn:Hr.
  pose proof (retry_loop_no_state_write _ _ _ _ _ _ Hr) as Hnsw.
  destruct r as [toks|].
  2:{ simplify_eq. by destruct (no_split_without_state_write _ pre post q c Hnsw). }
  pose proof Hr as Hlw. apply retry_loop_events in Hlw as (Hlw & _).
  apply retry_loop_page in Hr as (h & Hget & Htoks).
  destruct toks as [|t toks].
  { simplify_eq. by destruct (no_split_without_state_write _ pre post q c Hnsw). }
  cbv zeta in Hrun.
  rewrite written_fromkeys, new_patents_fromkeys in Hrun.
  remember (t :: toks) as toks0 eqn:Ht0.
  destruct (page_loop _ _ _ _ _ _ _ _ _) as [[[x1 l1] fs1] evs1] eqn:Hrec in Hrun.
  injection Hrun as Hx Hl Hf Hevs. rewrite <- Hevs in Heq. clear Hevs Hx Hl Hf.
  apply split_behind in Heq as (pre1 & -> & Heq); [|done].
  apply split_behind in Heq as (pre2 & -> & Heq); [|apply no_state_write_LogWrite].
  destruct pre2 as [|e pre2]; simpl in Heq.
  - (* the checkpoint of this page *)
    injection Heq as <- <- <-.
    split; [done|]. exists (construct_url p sd ed), h. split_and!.
    + rewrite elem_of_app. by left.
    + rewrite Htoks. by subst toks0.
    + intros tok Htok.
      destruct (decide (patent_link tok ∈ E)) as [?|Hnew]; [by left|right].
      rewrite !log_writes_app, log_writes_LogWrite, !elem_of_app. right. left.
      apply elem_of_fromkeys_from. split; [|done].
      apply list_elem_of_fmap. exists tok. split; [done|by rewrite <- Htoks].
  - (* a checkpoint of a later page *)
    injection Heq as <- Heq.
    destruct pre2 as [|e pre2]; [done|]. simpl in Heq. injection Heq as <- Heq.
    destruct (IH _ _ _ _ _ _ _ _ _ Hrec _ _ _ _ Heq)
      as (Hc & url & html & Hin & Hne & Hlinks).
    split; [done|]. exists url, html. split_and!.
    + rewrite !elem_of_app. right. right. by do 2 right.
    + done.
    + intros tok Htok. rewrite !log_writes_app, log_writes_LogWrite.
      rewrite !elem_of_app.
      destruct (Hlinks tok Htok) as [[?|Hw]%elem_of_union|?].
      * by left.
      * apply elem_of_list_to_set in Hw. right. right. by left.
      * right. right. by right.
Qed.

End Checkpoints.


Section CheckpointTheorem.
Import PyStr PyDate GetLinksFinal Observe.

Lemma split_before (A T pre post : list event) q c :
  Forall (λ e, is_state_write e = false) T →
  A ++ T = pre ++ StateWrite q c :: post →
  ∃ post', A = pre ++ StateWrite q c :: post'.
Proof.
  intros HT. revert pre. induction A as [|a A IH]; intros pre Heq.
  { simpl in Heq. by destruct (no_split_without_state_write _ pre post q c HT). }
  destruct pre as [|e pre]; simpl in Heq; injection Heq as -> Heq.
  - by exists A.
  - destruct (IH pre Heq) as (post' & ->). by exists post'.
Qed.

Lemma no_state_write_end x :
  Forall (λ e, is_state_write e = false)
    (match x with Running => [] | _ => [DriverQuit] end).
Proof. destruct x; repeat constructor. Qed.

Lemma state_writes_end tr x :
  state_writes (tr ++ match x with Running => [] | _ => [DriverQuit] end) = state_writes tr.
Proof. rewrite state_writes_app. destruct x; simpl; by rewrite app_nil_r. Qed.

End CheckpointTheorem.


Section CheckpointFile.
Import PyStr PyDate GetLinksFinal Observe.

(** [load_scraping_state] raises exactly on the contents that are not
    of the form it parses. *)
Lemma load_scraping_state_raises content :
  load_scraping_state (Some content) = Raise ValueError
  ↔ well_formed_state content = false.
Proof.
  unfold load_scraping_state, well_formed_state.
  destruct (split "," (strip content)) as [|a [|b [|c l]]]; try done.
  destruct (strptime_ymd a) as [d|]; [|done].
  destruct (py_int b) as [p|]; [|by rewrite andb_false_r].
  split; [done|]. intros H. apply andb_false_iff in H as [H|H];
    apply bool_decide_eq_false in H; by destruct H.
Qed.

Lemma retry_loop_head driver p url n :
  ∃ res tl, (retry_loop driver MAX_RETRIES 0 p url n).2 = DriverGet p url res :: tl.
Proof.
  destruct (retry_loop_cases driver p url n)
    as [(h & _ & Hc)|[(h & _ & _ & Hc)|[(h & _ & _ & _ & Hc)|(_ & _ & _ & Hc)]]];
    rewrite Hc; simpl; eauto.
Qed.

Lemma page_loop_head driver fuel sd ed p n E all fs :
  ∃ res tl, (page_loop driver (S fuel) sd ed p n E all fs).2
            = DriverGet p (construct_url p sd ed) res :: tl.
Proof.
  rewrite page_loop_S.
  destruct (retry_loop_head driver p (construct_url p sd ed) n) as (res & tl & Hh).
  destruct (retry_loop driver MAX_RETRIES 0 p (construct_url p sd ed) n)
    as [[r n'] evs0]. simpl in Hh. subst evs0.
  destruct r as [[|t toks]|]; try (by exists res, tl).
  cbv zeta. destruct (page_loop _ _ _ _ _ _ _ _ _) as [[[x1 l1] fs1] evs1].
  simpl. eauto.
Qed.

(** C10. A checkpoint file that exists but is not a date, a comma and
    an integer makes [load_scraping_state] raise [ValueError]; nothing
    in [getLinks] handles it, so the run ends there: no page has been
    asked for and the files are untouched.  Without the file the run
    starts at page 0. *)
Theorem malformed_checkpoint_aborts driver fuel now fs content :
  let r := getLinks driver fuel now fs in
  (state_file fs = Some content → well_formed_state content = false →
     outcome r = Raise ValueError
     ∧ trace r = [DriverNew]
     ∧ fetched_pages (trace r) = []
     ∧ files_after r = fs)
  ∧ (state_file fs = None →
     first_page now fs = Ok 0
     ∧ (∃ x, outcome r = Ok x)
     ∧ ((0 < fuel)%nat → ∃ url res tl, trace r = DriverNew :: DriverGet 0 url res :: tl)).
Proof.
  cbv zeta. rewrite getLinks_unfold. cbv zeta. unfold first_page. split.
  - intros Hf Hbad. rewrite Hf.
    apply load_scraping_state_raises in Hbad. by rewrite Hbad.
  - intros Hf. rewrite Hf. cbn [load_scraping_state].
    rewrite decide_False by done.
    split; [done|].
    destruct (page_loop _ _ _ _ _ _ _ _ _) as [[[x links] fs'] evs] eqn:Hrun.
    split; [by exists x|]. intros Hfuel. cbn [trace].
    destruct fuel as [|fuel]; [lia|].
    edestruct (page_loop_head driver fuel) as (res & tl & Hh).
    rewrite Hrun in Hh. simpl in Hh. subst evs. simpl. eauto.
Qed.

(** The date read back from a checkpoint is a midnight. *)
Lemma strptime_ymd_midnight s d : strptime_ymd s = Some d → d mod US_PER_DAY = 0.
Proof.
  unfold strptime_ymd. intros H. repeat (case_match; try done). simplify_eq.
  unfold midnight. apply Z_mod_mult.
Qed.

(** So the checkpoint is taken only by a run whose window starts at a
    midnight: with any time of day on the clock the loop starts at page 0. *)
Lemma first_page_time_of_day now fs p :
  (get_date_range now).1 mod US_PER_DAY ≠ 0 → first_page now fs = Ok p → p = 0.
Proof.
  unfold first_page, load_scraping_state. intros Hnow.
  destruct (state_file fs) as [content|]; [|by case_decide; intros [= <-]].
  repeat (case_match; try done); intros [= <-]; simplify_eq; try done.
  match goal with H : strptime_ymd _ = Some _ |- _ => apply strptime_ymd_midnight in H end.
  done.
Qed.

End CheckpointFile.


Section Retry.
Import PyStr PyDate GetLinksFinal Observe.
Variable driver : string → nat → option string.

Lemma sessions_app a b : sessions (a ++ b) = (sessions a + sessions b)%nat.
Proof. unfold sessions. by rewrite filter_app, length_app. Qed.

Lemma attempts_app q a b : attempts q (a ++ b) = (attempts q a + attempts q b)%nat.
Proof. unfold attempts. by rewrite fetched_pages_app, filter_app, length_app. Qed.

Lemma sessions_LogWrite (l : list string) : sessions (LogWrite <$> l) = 0%nat.
Proof. induction l; done. Qed.

Lemma attempts_LogWrite q (l : list string) : attempts q (LogWrite <$> l) = 0%nat.
Proof. unfold attempts. by rewrite fetched_pages_LogWrite. Qed.

Lemma checkpoint_after_app c a b :
  checkpoint_after c (a ++ b) = checkpoint_after (checkpoint_after c a) b.
Proof. apply foldl_app. Qed.

Lemma checkpoint_after_LogWrite c (l : list string) :
  checkpoint_after c (LogWrite <$> l) = c.
Proof. induction l; done. Qed.

Lemma checkpoint_after_none c tr : state_writes tr = [] → checkpoint_after c tr = c.
Proof.
  revert c. induction tr as [|e tr IH]; intros c H; [done|].
  destruct e; try done; simpl; apply IH; done.
Qed.

Lemma attempts_none q (l : list event) :
  Forall (λ x, x ≠ q) (fetched_pages l) → attempts q l = 0%nat.
Proof.
  unfold attempts. intros H. induction H as [|x xs Hx _ IH]; [done|].
  by rewrite filter_cons_False.
Qed.

Lemma attempts_le q (l : list event) : (attempts q l ≤ length (fetched_pages l))%nat.
Proof. unfold attempts. apply length_filter. Qed.

(** The retry loop of one page: at most [MAX_RETRIES] attempts, all on
    that page, in the same session; it raises exactly when the browser
    fails three times in a row, and its events are then the three
    failures with the delay between them. *)
Lemma retry_loop_budget p url n :
  let '(res, n', evs) := retry_loop driver MAX_RETRIES 0 p url n in
  (attempts p evs ≤ MAX_RETRIES)%nat
  ∧ sessions evs = 0%nat
  ∧ (res = Raised ↔
       driver url n = None ∧ driver url (S n) = None ∧ driver url (S (S n)) = None)
  ∧ (res = Raised → evs = three_failures p url).
Proof.
  destruct (retry_loop_cases driver p url n)
    as [(h & H0 & Hc)|[(h & H0 & H1 & Hc)|[(h & H0 & H1 & H2 & Hc)|(H0 & H1 & H2 & Hc)]]];
    rewrite Hc; (split; [|split; [done|split; [|done]]]).
  all: try (eapply Nat.le_trans; [apply attempts_le|vm_compute; lia]).
  all: split; [try done|intros (? & ? & ?); congruence].
Qed.

(** The page loop: its attempts, its sessions, its files and its way out
    through the handler. *)
Lemma page_loop_retries fuel sd ed p n E all fs x links fs' evs :
  page_loop driver fuel sd ed p n E all fs = (x, links, fs', evs) →
  (∀ q, (attempts q evs ≤ MAX_RETRIES)%nat)
  ∧ sessions evs = 0%nat
  ∧ patents_file fs' = patents_file fs ++ log_writes evs
  ∧ state_file fs' = checkpoint_after (state_file fs) evs
  ∧ (x = Failed → ∃ pre q,
       evs = pre ++ three_failures q (construct_url q sd ed)).
Proof.
  revert p n E all fs x links fs' evs.
  induction fuel as [|fuel IH]; intros p n E all fs x links fs' evs Hrun.
  { simpl in Hrun. simplify_eq. split_and!; try done; [intros q; vm_compute; lia|].
    by rewrite app_nil_r. }
  rewrite page_loop_S in Hrun.
  pose proof (retry_loop_budget p (construct_url p sd ed) n) as Hb.
  destruct (retry_loop driver MAX_RETRIES 0 p (construct_url p sd ed) n)
    as [[r n'] evs0] eqn:Hr.
  destruct Hb as (Hat & Hse & _ & Hraised).
  apply retry_loop_events in Hr as (Hlw & Hsw & _ & Hpages & _).
  assert (∀ q, (attempts q evs0 ≤ MAX_RETRIES)%nat) as Hall.
  { intros q. destruct (decide (q = p)) as [->|Hq]; [done|].
    rewrite attempts_none; [unfold MAX_RETRIES; lia|].
    eapply Forall_impl; [done|]. intros ? ->. done. }
  destruct r as [[|t toks]|]; simplify_eq.
  - split_and!; try done.
    + by rewrite Hlw, app_nil_r.
    + by rewrite checkpoint_after_none.
  - cbv zeta in Hrun.
    destruct (page_loop _ _ _ _ _ _ _ _ _) as [[[x1 l1] fs1] evs1] eqn:Hrec in Hrun.
    simplify_eq.
    pose proof (page_loop_pages_ge _ _ _ _ _ _ _ _ _ _ _ _ _ Hrec) as Hge1.
    apply IH in Hrec as (IHat & IHse & IHlog & IHst & IHfail).
    cbn [patents_file state_file] in IHlog, IHst.
    split_and!.
    + intros q. rewrite !attempts_app, attempts_LogWrite.
      change (attempts q [?a; ?b]) with 0%nat.
      destruct (decide (q = p)) as [->|Hq].
      * rewrite (attempts_none p evs1); [specialize (Hall p); lia|].
        eapply Forall_impl; [done|]. simpl. lia.
      * rewrite (attempts_none q evs0); [apply IHat|].
        eapply Forall_impl; [done|]. intros ? ->. done.
    + rewrite !sessions_app, sessions_LogWrite, Hse, IHse. done.
    + rewrite IHlog, !log_writes_app, log_writes_LogWrite, Hlw.
      by rewrite <- app_assoc.
    + rewrite IHst, !checkpoint_after_app, checkpoint_after_LogWrite.
      by rewrite (checkpoint_after_none _ evs0).
    + intros Hx. destruct (IHfail Hx) as (pre & q & ->).
      rewrite !app_assoc. eexists _, q. reflexivity.
  - split_and!; try done.
    + by rewrite Hlw, app_nil_r.
    + by rewrite checkpoint_after_none.
    + intros _. exists [], p. by rewrite Hraised.
Qed.

End Retry.


Section Failures.
Import PyStr PyDate GetLinksFinal Observe.
Variable driver : string → nat → option string.

Lemma after_failures_0 p tr : after_failures 0 p tr = Some tr.
Proof. by destruct tr. Qed.

Lemma after_failures_failed k p url tr :
  after_failures (S k) p (DriverGet p url None :: tr) = after_failures k p tr.
Proof. cbn [after_failures is_failed_get]. by rewrite bool_decide_eq_true_2. Qed.

Lemma after_failures_other k q e tr :
  is_failed_get q e = false →
  after_failures (S k) q (e :: tr) = after_failures (S k) q tr.
Proof. intros H. cbn [after_failures]. by rewrite H. Qed.

Lemma after_failures_skip k q a b :
  Forall (λ e, is_failed_get q e = false) a →
  after_failures (S k) q (a ++ b) = after_failures (S k) q b.
Proof. induction 1; [done|]. cbn [app]. by rewrite after_failures_other. Qed.

Lemma after_failures_none k q tr :
  Forall (λ e, is_failed_get q e = false) tr → after_failures (S k) q tr = None.
Proof. induction 1; [done|]. by rewrite after_failures_other. Qed.

Lemma after_failures_app_end k q a b :
  Forall (λ e, is_failed_get q e = false) b →
  after_failures (S k) q (a ++ b) = (λ r, r ++ b) <$> after_failures (S k) q a.
Proof.
  intros Hb. revert k. induction a as [|e a IH]; intros k.
  - cbn [app]. by rewrite after_failures_none.
  - cbn [app after_failures]. destruct (is_failed_get q e); [|apply IH].
    destruct k; [by rewrite !after_failures_0|apply IH].
Qed.

Lemma no_failed_get_pages q tr :
  Forall (λ p, p ≠ q) (fetched_pages tr) → Forall (λ e, is_failed_get q e = false) tr.
Proof.
  induction tr as [|e tr IH]; [constructor|].
  destruct e as [|p' u res| | | |];
    try (intros H; constructor; [done|by apply IH]).
  change (fetched_pages (DriverGet p' u res :: tr)) with (p' :: fetched_pages tr).
  intros [Hne Htr]%Forall_cons. constructor; [|by apply IH].
  destruct res; [done|]. cbn. by apply bool_decide_eq_false.
Qed.

Lemma no_failed_get_LogWrite q (l : list string) :
  Forall (λ e, is_failed_get q e = false) (LogWrite <$> l).
Proof. induction l; by constructor. Qed.

(** What follows the failed attempts in the page loop: behind a failure
    that is not the third one on its page, the delay and the same page
    again; behind the third one nothing, and the loop is left through
    the handler. *)
Lemma page_loop_failures fuel sd ed p n E all fs x links fs' evs k q rest :
  page_loop driver fuel sd ed p n E all fs = (x, links, fs', evs) →
  after_failures (S k) q evs = Some rest →
  (S k ≤ MAX_RETRIES)%nat
  ∧ ((S k < MAX_RETRIES)%nat →
     ∃ res rest', rest = Sleep PAGE_LOAD_DELAY
                         :: DriverGet q (construct_url q sd ed) res :: rest')
  ∧ (S k = MAX_RETRIES → rest = [] ∧ x = Failed).
Proof.
  revert p n E all fs x links fs' evs.
  induction fuel as [|fuel IH]; intros p n E all fs x links fs' evs Hrun Haf.
  { simpl in Hrun. by simplify_eq. }
  rewrite page_loop_S in Hrun.
  set (url := construct_url p sd ed) in *.
  (* what stands behind the events of the retry loop *)
  assert (∀ r n' evs0,
    match r with
    | Raised => (Failed, all, fs, evs0)
    | Page [] => (WindowDone, all, fs, evs0)
    | Page patent_numbers =>
        let new_patents :=
          filter (λ link, link ∉ E) (patent_link <$> fromkeys patent_numbers) in
        let written := save_new_patents new_patents E in
        let content := save_scraping_state sd p in
        let '(x, links, fs'', evs') :=
          page_loop driver fuel sd ed (p + 1) n' (E ∪ list_to_set new_patents)
            (all ++ new_patents)
            {| patents_file := patents_file fs ++ written; state_file := Some content |} in
        (x, links, fs'',
         evs0 ++ (LogWrite <$> written)
              ++ [StateWrite p content; Sleep BETWEEN_PAGES_DELAY] ++ evs')
    end = (x, links, fs', evs) →
    r ≠ Raised →
    ∃ T, evs = evs0 ++ T
      ∧ (∀ i, after_failures (S i) p T = None)
      ∧ (q ≠ p → Forall (λ e, is_failed_get q e = false) evs0 →
         (S k ≤ MAX_RETRIES)%nat
         ∧ ((S k < MAX_RETRIES)%nat →
            ∃ res rest', rest = Sleep PAGE_LOAD_DELAY
                                :: DriverGet q (construct_url q sd ed) res :: rest')
         ∧ (S k = MAX_RETRIES → rest = [] ∧ x = Failed))) as Hbehind.
  { intros r n' evs0 Hr Hnr. destruct r as [[|t toks]|]; [| |done].
    - injection Hr as <- <- <- <-. exists []. split_and!; [by rewrite app_nil_r|done|].
      intros Hq H0. rewrite after_failures_none in Haf by done. done.
    - cbv zeta in Hr.
      destruct (page_loop _ _ _ _ _ _ _ _ _) as [[[x1 l1] fs1] evs1] eqn:Hrec in Hr.
      injection Hr as <- <- <- <-. eexists. split; [done|]. split.
      + intros i. rewrite after_failures_skip by apply no_failed_get_LogWrite.
        cbn [app]. rewrite !after_failures_other by done.
        apply after_failures_none, no_failed_get_pages.
        eapply Forall_impl; [by eapply page_loop_pages_ge|]. simpl. lia.
      + intros Hq H0. rewrite after_failures_skip in Haf by done.
        rewrite after_failures_skip in Haf by apply no_failed_get_LogWrite.
        cbn [app] in Haf. rewrite !after_failures_other in Haf by done.
        by eapply IH. }
  assert (∀ u res, q ≠ p → is_failed_get q (DriverGet p u res) = false) as Hother.
  { intros u [h|] Hq; [done|]. cbn. apply bool_decide_eq_false. congruence. }
  destruct (retry_loop_cases driver p url n)
    as [(h & _ & Hc)|[(h & _ & _ & Hc)|[(h & _ & _ & _ & Hc)|(_ & _ & _ & Hc)]]];
    rewrite Hc in Hrun.
  - destruct (Hbehind (Page (findall_US h)) _ _ Hrun ltac:(done)) as (T & -> & HT & Hq).
    destruct (decide (q = p)) as [->|Hne].
    + cbn [app] in Haf. rewrite !after_failures_other in Haf by done.
      by rewrite HT in Haf.
    + apply Hq; [done|]. repeat constructor; by apply Hother.
  - destruct (Hbehind (Page (findall_US h)) _ _ Hrun ltac:(done)) as (T & -> & HT & Hq).
    destruct (decide (q = p)) as [->|Hne].
    + cbn [app] in Haf. rewrite after_failures_failed in Haf.
      destruct k as [|k].
      * rewrite after_failures_0 in Haf. injection Haf as <-.
        split_and!; [unfold MAX_RETRIES; lia|by eexists _, _|done].
      * rewrite !after_failures_other in Haf by done. by rewrite HT in Haf.
    + apply Hq; [done|]. repeat constructor; by apply Hother.
  - destruct (Hbehind (Page (findall_US h)) _ _ Hrun ltac:(done)) as (T & -> & HT & Hq).
    destruct (decide (q = p)) as [->|Hne].
    + cbn [app] in Haf. rewrite after_failures_failed in Haf.
      destruct k as [|k].
      * rewrite after_failures_0 in Haf. injection Haf as <-.
        split_and!; [unfold MAX_RETRIES; lia|by eexists _, _|done].
      * rewrite after_failures_other, after_failures_failed in Haf by done.
        destruct k as [|k].
        -- rewrite after_failures_0 in Haf. injection Haf as <-.
           split_and!; [unfold MAX_RETRIES; lia|by eexists _, _|done].
        -- rewrite !after_failures_other in Haf by done. by rewrite HT in Haf.
    + apply Hq; [done|]. repeat constructor; by apply Hother.
  - injection Hrun as <- <- <- <-.
    destruct (decide (q = p)) as [->|Hne].
    2:{ rewrite after_failures_none in Haf; [done|]. repeat constructor; by apply Hother. }
    rewrite after_failures_failed in Haf.
    destruct k as [|k].
    { rewrite after_failures_0 in Haf. injection Haf as <-.
      split_and!; [unfold MAX_RETRIES; lia|by eexists _, _|done]. }
    rewrite after_failures_other, after_failures_failed in Haf by done.
    destruct k as [|k].
    { rewrite after_failures_0 in Haf. injection Haf as <-.
      split_and!; [unfold MAX_RETRIES; lia|by eexists _, _|done]. }
    rewrite after_failures_other, after_failures_failed in Haf by done.
    destruct k as [|k].
    { rewrite after_failures_0 in Haf. injection Haf as <-.
      split_and!; [done|unfold MAX_RETRIES; lia|done]. }
    done.
Qed.

End Failures.

Section RetryTheorem.
Import PyStr PyDate GetLinksFinal Observe.

Lemma fetched_pages_cons e tl :
  fetched_pages (e :: tl)
  = match e with DriverGet p _ _ => [p] | _ => [] end ++ fetched_pages tl.
Proof. by destruct e. Qed.

Lemma for_retry_success driver retry rs p url n E h :
  driver url n = Some h →
  ∃ t evs,
    GetLinks1.for_retry driver (retry :: rs) p url n E
    = (t, S n, DriverGet p url (Some h) :: Sleep 15 :: evs)
    ∧ fetched_pages evs = []
    ∧ t ≠ GetLinks1.Exhausted ∧ t ≠ GetLinks1.Return Failed.
Proof.
  intros H. cbn [GetLinks1.for_retry]. rewrite H.
  destruct (findall_US h) as [|t ts].
  - by exists (GetLinks1.Return WindowDone), [].
  - eexists (GetLinks1.Break _ _), _. split; [reflexivity|]. split; [|done].
    by rewrite fetched_pages_app, fetched_pages_LogWrite.
Qed.

Lemma for_retry_again driver retry rs p url n E :
  driver url n = None → (retry <? GetLinks1.max_retries - 1)%nat = true →
  GetLinks1.for_retry driver (retry :: rs) p url n E
  = let '(t, n', evs) := GetLinks1.for_retry driver rs p url (S n) E in
    (t, n', DriverGet p url None :: DriverQuit :: DriverNew :: Sleep 5 :: evs).
Proof. intros H Hlt. cbn [GetLinks1.for_retry]. by rewrite H, Hlt. Qed.

Lemma for_retry_last driver retry rs p url n E :
  driver url n = None → (retry <? GetLinks1.max_retries - 1)%nat = false →
  GetLinks1.for_retry driver (retry :: rs) p url n E
  = (GetLinks1.Return Failed, S n, [DriverGet p url None]).
Proof. intros H Hlt. cbn [GetLinks1.for_retry]. by rewrite H, Hlt. Qed.

(** The [for] loop of [scrape_date_range] on one page: three attempts at
    most; a failure that is not the last is followed by a new session;
    three failures in a row end the range. *)
Lemma for_retry_budget driver p url n E :
  let '(t, n', evs) :=
    GetLinks1.for_retry driver (seq 0 GetLinks1.max_retries) p url n E in
  (attempts p evs ≤ GetLinks1.max_retries)%nat
  ∧ t ≠ GetLinks1.Exhausted
  ∧ (t = GetLinks1.Return Failed ↔
       driver url n = None ∧ driver url (S n) = None ∧ driver url (S (S n)) = None)
  ∧ (t = GetLinks1.Return Failed → evs = three_failures_new_sessions p url)
  ∧ (driver url n = None → driver url (S n) ≠ None →
       ∃ tl, evs = DriverGet p url None :: DriverQuit :: DriverNew :: Sleep 5 :: tl).
Proof.
  change (seq 0 GetLinks1.max_retries) with [0; 1; 2]%nat.
  assert (∀ evs, (length (fetched_pages evs) ≤ 3)%nat →
                 (attempts p evs ≤ GetLinks1.max_retries)%nat) as Hlen.
  { intros evs H. eapply Nat.le_trans; [apply attempts_le|done]. }
  destruct (driver url n) as [h0|] eqn:H0.
  { destruct (for_retry_success driver 0 [1; 2]%nat p url n E h0 H0)
      as (t & evs & -> & Hp & Hne & Hnf).
    split_and!; try done.
    - apply Hlen. rewrite !fetched_pages_cons, Hp. simpl. lia.
    - split; [done|]. by intros (? & _). }
  rewrite for_retry_again by done.
  destruct (driver url (S n)) as [h1|] eqn:H1.
  { destruct (for_retry_success driver 1 [2]%nat p url (S n) E h1 H1)
      as (t & evs & -> & Hp & Hne & Hnf).
    split_and!; try done.
    - apply Hlen. rewrite !fetched_pages_cons, Hp. simpl. lia.
    - split; [done|]. by intros (_ & ? & _).
    - intros _ _. by eexists. }
  rewrite for_retry_again by done.
  destruct (driver url (S (S n))) as [h2|] eqn:H2.
  { destruct (for_retry_success driver 2 []%nat p url (S (S n)) E h2 H2)
      as (t & evs & -> & Hp & Hne & Hnf).
    split_and!; try done.
    - apply Hlen. rewrite !fetched_pages_cons, Hp. simpl. lia.
    - split; [done|]. by intros (_ & _ & ?). }
  rewrite for_retry_last by done.
  split_and!; try done. apply Hlen. simpl. lia.
Qed.

Lemma for_retry_pages driver p url n E t n' evs :
  GetLinks1.for_retry driver (seq 0 GetLinks1.max_retries) p url n E = (t, n', evs) →
  Forall (λ q, q = p) (fetched_pages evs).
Proof.
  change (seq 0 GetLinks1.max_retries) with [0; 1; 2]%nat.
  assert (∀ retry rs m h t' n'' evs',
    driver url m = Some h →
    GetLinks1.for_retry driver (retry :: rs) p url m E = (t', n'', evs') →
    Forall (λ q, q = p) (fetched_pages evs')) as Hok.
  { intros retry rs m h t' n'' evs' Hm Hr.
    destruct (for_retry_success driver retry rs p url m E h Hm) as (t0 & e0 & E0 & Hp & _).
    rewrite E0 in Hr. injection Hr as <- <- <-.
    rewrite !fetched_pages_cons, Hp. cbn [app]. by repeat constructor. }
  destruct (driver url n) as [h0|] eqn:H0; [by eapply Hok|].
  rewrite for_retry_again by done.
  destruct (GetLinks1.for_retry driver [1; 2]%nat p url (S n) E) as [[t1 n1] evs1] eqn:Hr1.
  intros [= <- <- <-]. rewrite !fetched_pages_cons. cbn [app]. constructor; [done|].
  revert Hr1.
  destruct (driver url (S n)) as [h1|] eqn:H1; [by eapply Hok|].
  rewrite for_retry_again by done.
  destruct (GetLinks1.for_retry driver [2]%nat p url (S (S n)) E) as [[t2 n2] evs2] eqn:Hr2.
  intros [= <- <- <-]. rewrite !fetched_pages_cons. cbn [app]. constructor; [done|].
  revert Hr2.
  destruct (driver url (S (S n))) as [h2|] eqn:H2; [by eapply Hok|].
  rewrite for_retry_last by done. intros [= <- <- <-]. by repeat constructor.
Qed.

(** What follows the failed attempts of one [for] loop, [T] standing
    behind its events: behind a failure that is not the third, the
    session is closed and created anew and, five seconds later, the
    page is asked for again; the third failure is the last event and
    ends the range. *)
Lemma for_retry_failures driver p url n E t n' evs T k rest :
  GetLinks1.for_retry driver (seq 0 GetLinks1.max_retries) p url n E = (t, n', evs) →
  (∀ i, after_failures (S i) p T = None) →
  after_failures (S k) p (evs ++ T) = Some rest →
  (S k ≤ GetLinks1.max_retries)%nat
  ∧ ((S k < GetLinks1.max_retries)%nat →
     ∃ res rest', rest = DriverQuit :: DriverNew :: Sleep 5 :: DriverGet p url res :: rest')
  ∧ (S k = GetLinks1.max_retries → rest = T ∧ t = GetLinks1.Return Failed).
Proof.
  change (seq 0 GetLinks1.max_retries) with [0; 1; 2]%nat. unfold GetLinks1.max_retries.
  intros Hr HT Haf.
  assert (∀ retry rs m h t' n'' evs' j,
    driver url m = Some h →
    GetLinks1.for_retry driver (retry :: rs) p url m E = (t', n'', evs') →
    after_failures (S j) p (evs' ++ T) = None
    ∧ ∃ tl, evs' = DriverGet p url (Some h) :: tl) as Hok.
  { intros retry rs m h t' n'' evs' j Hm Hr'.
    destruct (for_retry_success driver retry rs p url m E h Hm) as (t0 & e0 & E0 & Hp & _).
    rewrite E0 in Hr'. injection Hr' as <- <- <-. split; [|by eexists].
    cbn [app]. rewrite !after_failures_other by done.
    rewrite after_failures_skip; [apply HT|].
    apply no_failed_get_pages. by rewrite Hp. }
  revert Hr.
  destruct (driver url n) as [h0|] eqn:H0.
  { intros Hr. destruct (Hok _ _ _ _ _ _ _ k H0 Hr) as [Hnone _]. congruence. }
  rewrite for_retry_again by done.
  destruct (GetLinks1.for_retry driver [1; 2]%nat p url (S n) E) as [[t1 n1] evs1] eqn:Hr1.
  intros [= <- <- <-]. cbn [app] in Haf. rewrite after_failures_failed in Haf.
  revert Hr1.
  destruct (driver url (S n)) as [h1|] eqn:H1.
  { intros Hr1. destruct k as [|k].
    - rewrite after_failures_0 in Haf. injection Haf as <-.
      destruct (Hok _ _ _ _ _ _ _ 0%nat H1 Hr1) as [_ [tl ->]].
      split_and!; [lia|by eexists _, _|lia].
    - rewrite !after_failures_other in Haf by done.
      destruct (Hok _ _ _ _ _ _ _ k H1 Hr1) as [Hnone _]. congruence. }
  rewrite for_retry_again by done.
  destruct (GetLinks1.for_retry driver [2]%nat p url (S (S n)) E) as [[t2 n2] evs2] eqn:Hr2.
  intros [= <- <- <-].
  destruct k as [|k].
  { rewrite after_failures_0 in Haf. injection Haf as <-.
    split_and!; [lia|by eexists _, _|lia]. }
  cbn [app] in Haf. rewrite !after_failures_other in Haf by done.
  rewrite after_failures_failed in Haf.
  revert Hr2.
  destruct (driver url (S (S n))) as [h2|] eqn:H2.
  { intros Hr2. destruct k as [|k].
    - rewrite after_failures_0 in Haf. injection Haf as <-.
      destruct (Hok _ _ _ _ _ _ _ 0%nat H2 Hr2) as [_ [tl ->]].
      split_and!; [lia|by eexists _, _|lia].
    - rewrite !after_failures_other in Haf by done.
      destruct (Hok _ _ _ _ _ _ _ k H2 Hr2) as [Hnone _]. congruence. }
  rewrite for_retry_last by done. intros [= <- <- <-].
  destruct k as [|k].
  { rewrite after_failures_0 in Haf. injection Haf as <-.
    split_and!; [lia|by eexists _, _|lia]. }
  cbn [app] in Haf. rewrite !after_failures_other in Haf by done.
  rewrite after_failures_failed in Haf.
  destruct k as [|k].
  { rewrite after_failures_0 in Haf. injection Haf as <-. split_and!; [lia|lia|done]. }
  by rewrite HT in Haf.
Qed.

Lemma scrape_date_range_step driver fuel sd ed p n E all lines :
  GetLinks1.scrape_date_range driver (S fuel) sd ed p n E all lines
  = match GetLinks1.for_retry driver (seq 0 GetLinks1.max_retries) p
            (construct_url p sd ed) n E with
    | (GetLinks1.Return x, _, evs) => (x, all, lines, evs)
    | (GetLinks1.Break new_patents written, n', evs) =>
        let '(x, links, lines', evs') :=
          GetLinks1.scrape_date_range driver fuel sd ed (p + 1) n'
            (E ∪ list_to_set new_patents) (all ++ new_patents) (lines ++ written) in
        (x, links, lines', evs ++ evs')
    | (GetLinks1.Exhausted, n', evs) =>
        let '(x, links, lines', evs') :=
          GetLinks1.scrape_date_range driver fuel sd ed p n' E all lines in
        (x, links, lines', evs ++ evs')
    end.
Proof. done. Qed.

Lemma scrape_date_range_pages_ge driver fuel sd ed p n E all lines x links lines' evs :
  GetLinks1.scrape_date_range driver fuel sd ed p n E all lines = (x, links, lines', evs) →
  Forall (λ q, p ≤ q) (fetched_pages evs).
Proof.
  revert p n E all lines x links lines' evs.
  induction fuel as [|fuel IH]; intros p n E all lines x links lines' evs Hrun.
  { simpl in Hrun. simplify_eq. constructor. }
  rewrite scrape_date_range_step in Hrun.
  pose proof (for_retry_budget driver p (construct_url p sd ed) n E) as Hb.
  destruct (GetLinks1.for_retry _ _ _ _ _ _) as [[t n'] evs0] eqn:Hr.
  destruct Hb as (_ & Hne & _).
  apply for_retry_pages in Hr.
  assert (Forall (λ q, p ≤ q) (fetched_pages evs0)) as Hp0.
  { eapply Forall_impl; [done|]. intros q ->. lia. }
  destruct t as [new written|x0|]; [| |done].
  - destruct (GetLinks1.scrape_date_range _ _ _ _ _ _ _ _ _) as [[[x1 l1] ls1] evs1]
      eqn:Hrec in Hrun.
    injection Hrun as <- <- <- <-. apply IH in Hrec.
    rewrite fetched_pages_app. apply Forall_app. split; [done|].
    eapply Forall_impl; [done|]. simpl. lia.
  - by injection Hrun as <- <- <- <-.
Qed.

(** The same for the whole of [scrape_date_range]. *)
Lemma scrape_date_range_failures driver fuel sd ed p n E all lines x links lines' evs
    k q rest :
  GetLinks1.scrape_date_range driver fuel sd ed p n E all lines = (x, links, lines', evs) →
  after_failures (S k) q evs = Some rest →
  (S k ≤ GetLinks1.max_retries)%nat
  ∧ ((S k < GetLinks1.max_retries)%nat →
     ∃ res rest', rest = DriverQuit :: DriverNew :: Sleep 5
                         :: DriverGet q (construct_url q sd ed) res :: rest')
  ∧ (S k = GetLinks1.max_retries → rest = [] ∧ x = Failed).
Proof.
  revert p n E all lines x links lines' evs.
  induction fuel as [|fuel IH]; intros p n E all lines x links lines' evs Hrun Haf.
  { simpl in Hrun. by simplify_eq. }
  rewrite scrape_date_range_step in Hrun.
  pose proof (for_retry_budget driver p (construct_url p sd ed) n E) as Hb.
  destruct (GetLinks1.for_retry _ _ _ _ _ _) as [[t n'] evs0] eqn:Hr.
  destruct Hb as (_ & Hne & _).
  pose proof (for_retry_pages _ _ _ _ _ _ _ _ Hr) as Hpages.
  destruct t as [new written|x0|]; [| |done].
  - destruct (GetLinks1.scrape_date_range _ _ _ _ _ _ _ _ _) as [[[x1 l1] ls1] evs1]
      eqn:Hrec in Hrun.
    injection Hrun as <- <- <- <-.
    destruct (decide (q = p)) as [->|Hq].
    + assert (∀ i, after_failures (S i) p evs1 = None) as HT.
      { intros i. apply after_failures_none, no_failed_get_pages.
        eapply Forall_impl; [by eapply scrape_date_range_pages_ge|]. simpl. lia. }
      destruct (for_retry_failures _ _ _ _ _ _ _ _ _ _ _ Hr HT Haf) as (Hk & Hlt & Heq).
      split_and!; [done|done|]. intros Hk3. by destruct (Heq Hk3).
    + rewrite after_failures_skip in Haf.
      2:{ apply no_failed_get_pages. eapply Forall_impl; [done|]. simpl. congruence. }
      by eapply IH.
  - injection Hrun as <- <- <- <-.
    destruct (decide (q = p)) as [->|Hq].
    + rewrite <- (app_nil_r evs0) in Haf.
      destruct (for_retry_failures _ _ _ _ _ _ _ _ [] _ _ Hr ltac:(done) Haf)
        as (Hk & Hlt & Heq).
      split_and!; [done|done|]. intros Hk3. destruct (Heq Hk3) as [-> [= ->]]. done.
    + rewrite after_failures_none in Haf; [done|].
      apply no_failed_get_pages. eapply Forall_impl; [done|]. simpl. congruence.
Qed.

(** C4, as the code has it.  A page whose fetch raises is attempted
    again, [PAGE_LOAD_DELAY] seconds later, until [MAX_RETRIES]
    attempts on it have failed; [getLinks] never creates a second
    browser session.  The third failure on a page ends the window: no
    page is asked for behind it, the browser is closed, the log and
    the checkpoint are as the last completed page left them, and
    [getLinks] returns: the exception of a failed fetch never leaves
    [getLinks].
    In [scrape_date_range] of getlinks_1 the session is closed and
    created anew behind each failure but the third on a page, five
    seconds pass and the page is asked for again; the third failure
    ends the range. *)
Theorem bounded_retry_then_abandon driver fuel now fs p url n E :
  let r := getLinks driver fuel now fs in
  let start_date := (get_date_range now).1 in
  let end_date := (get_date_range now).2 in
  (∀ q, (attempts q (trace r) ≤ MAX_RETRIES)%nat)
  ∧ sessions (trace r) = 1%nat
  ∧ (∀ k q rest, (1 ≤ k)%nat → after_failures k q (trace r) = Some rest →
       (k ≤ MAX_RETRIES)%nat
       ∧ (∃ x, outcome r = Ok x)
       ∧ ((k < MAX_RETRIES)%nat →
          ∃ res rest',
            rest = Sleep PAGE_LOAD_DELAY
                   :: DriverGet q (construct_url q start_date end_date) res :: rest')
       ∧ (k = MAX_RETRIES → rest = [DriverQuit] ∧ outcome r = Ok Failed))
  ∧ (outcome r = Ok Failed → ∃ pre q,
       trace r = pre ++ three_failures q (construct_url q start_date end_date)
                     ++ [DriverQuit]
       ∧ patents_file (files_after r) = patents_file fs ++ log_writes pre
       ∧ state_file (files_after r) = checkpoint_after (state_file fs) pre)
  ∧ (let '(res, _, evs) := retry_loop driver MAX_RETRIES 0 p url n in
     (res = Raised ↔
        driver url n = None ∧ driver url (S n) = None ∧ driver url (S (S n)) = None)
     ∧ (res = Raised → evs = three_failures p url))
  ∧ (let '(t, _, evs) :=
       GetLinks1.for_retry driver (seq 0 GetLinks1.max_retries) p url n E in
     (attempts p evs ≤ GetLinks1.max_retries)%nat
     ∧ (t = GetLinks1.Return Failed ↔
          driver url n = None ∧ driver url (S n) = None ∧ driver url (S (S n)) = None)
     ∧ (t = GetLinks1.Return Failed → evs = three_failures_new_sessions p url)
     ∧ (driver url n = None → driver url (S n) ≠ None →
          ∃ tl, evs = DriverGet p url None :: DriverQuit :: DriverNew :: Sleep 5 :: tl))
  ∧ (∀ fuel1 sd ed p0 all lines k q rest,
       let '(x, _, _, evs) :=
         GetLinks1.scrape_date_range driver fuel1 sd ed p0 n E all lines in
       (1 ≤ k)%nat → after_failures k q evs = Some rest →
       (k ≤ GetLinks1.max_retries)%nat
       ∧ ((k < GetLinks1.max_retries)%nat →
          ∃ res rest',
            rest = DriverQuit :: DriverNew :: Sleep 5
                   :: DriverGet q (construct_url q sd ed) res :: rest')
       ∧ (k = GetLinks1.max_retries → rest = [] ∧ x = Failed)).
Proof.
  cbv zeta. unfold get_date_range. cbn [fst snd].
  rewrite getLinks_unfold. cbv zeta.
  set (sd := now - timedelta_days 5 - timedelta_days 10).
  set (ed := now - timedelta_days 5).
  assert (∀ q tr x, attempts q (DriverNew :: tr ++ match x with
                                 | Running => [] | _ => [DriverQuit] end)
                    = attempts q tr) as Hatt.
  { intros q tr x. change (attempts q (DriverNew :: ?l)) with (attempts q l).
    rewrite attempts_app.
    destruct x; try change (attempts q [DriverQuit]) with 0%nat;
      try change (attempts q []) with 0%nat; lia. }
  assert (∀ tr x, sessions (DriverNew :: tr ++ match x with
                              | Running => [] | _ => [DriverQuit] end)
                  = S (sessions tr)) as Hses.
  { intros tr x. change (sessions (DriverNew :: ?l)) with (S (sessions l)).
    rewrite sessions_app.
    destruct x; try change (sessions [DriverQuit]) with 0%nat;
      try change (sessions []) with 0%nat; lia. }
  split_and!.
  - destruct (load_scraping_state (state_file fs)) as [[last p0]|e].
    2:{ intros q. vm_compute. lia. }
    destruct (page_loop _ _ _ _ _ _ _ _ _) as [[[x links] fs'] evs] eqn:Hrun.
    apply page_loop_retries in Hrun as (Hat & _).
    intros q. cbn [trace]. by rewrite Hatt.
  - destruct (load_scraping_state (state_file fs)) as [[last p0]|e]; [|done].
    destruct (page_loop _ _ _ _ _ _ _ _ _) as [[[x links] fs'] evs] eqn:Hrun.
    apply page_loop_retries in Hrun as (_ & Hse & _).
    cbn [trace]. by rewrite Hses, Hse.
  - intros k q rest Hk Haf. destruct k as [|k]; [lia|].
    destruct (load_scraping_state (state_file fs)) as [[last p0]|e].
    2:{ cbn [trace] in Haf. rewrite after_failures_none in Haf; [done|].
        by repeat constructor. }
    destruct (page_loop _ _ _ _ _ _ _ _ _) as [[[x links] fs'] evs] eqn:Hrun.
    cbn [trace outcome] in *.
    rewrite after_failures_other in Haf by done.
    rewrite after_failures_app_end in Haf by (destruct x; by repeat constructor).
    destruct (after_failures (S k) q evs) as [rest0|] eqn:Haf0; [|done].
    injection Haf as <-.
    destruct (page_loop_failures _ _ _ _ _ _ _ _ _ _ _ _ _ _ _ _ Hrun Haf0)
      as (Hle & Hlt & Heq).
    split_and!; [done|by eexists| |].
    + intros H. destruct (Hlt H) as (res & rest' & ->). by eexists _, _.
    + intros H. by destruct (Heq H) as [-> ->].
  - destruct (load_scraping_state (state_file fs)) as [[last p0]|e]; [|done].
    destruct (page_loop _ _ _ _ _ _ _ _ _) as [[[x links] fs'] evs] eqn:Hrun.
    apply page_loop_retries in Hrun as (_ & _ & Hlog & Hst & Hfail).
    cbn [trace outcome files_after]. intros [= ->].
    destruct (Hfail eq_refl) as (pre & q & ->).
    exists (DriverNew :: pre), q. split_and!.
    + simpl. by rewrite <- app_assoc.
    + rewrite Hlog, log_writes_app. simpl. by rewrite app_nil_r.
    + rewrite Hst, checkpoint_after_app. done.
  - pose proof (retry_loop_budget driver p url n) as Hb.
    destruct (retry_loop driver MAX_RETRIES 0 p url n) as [[res n'] evs].
    by destruct Hb as (_ & _ & ? & ?).
  - pose proof (for_retry_budget driver p url n E) as Hb.
    destruct (GetLinks1.for_retry _ _ _ _ _ _) as [[t n'] evs].
    by destruct Hb as (? & _ & ? & ? & ?).
  - intros fuel1 sd1 ed1 p0 all lines k q rest.
    destruct (GetLinks1.scrape_date_range _ _ _ _ _ _ _ _ _) as [[[x links] lines'] evs]
      eqn:Hrun.
    intros Hk Haf. destruct k as [|k]; [lia|].
    by eapply scrape_date_range_failures.
Qed.

End RetryTheorem.

Section ConcreteRuns.
Import PyStr PyDate GetLinksFinal Observe Examples.

(** C4, as the specification words it, fails: with a browser that is
    down for three attempts and up from the fourth, the three attempts
    on page 0 use up the budget, no session is created anew, page 0 is
    not attempted again, and the window is given up. *)
Lemma no_recovery_after_budget :
  let r := getLinks down_three_times 5 jan16_1030 no_files in
  attempts 0 (trace r) = MAX_RETRIES
  ∧ sessions (trace r) = 1%nat
  ∧ outcome r = Ok Failed
  ∧ recovers_after_budget MAX_RETRIES 0 (trace r) = false.
Proof. vm_compute. done. Qed.

(** C2 at the failing input.  The checkpoint of page 1 of the window
    that starts on 2024-01-01 is on disk, and the crawler is started on
    2024-01-16 at 10:30, which plans the same window: the date read back
    is a midnight, the planned start carries the time of day, the two
    differ, and the pages 0 and 1 are fetched again.  Started at
    midnight sharp, the run takes the checkpoint and begins with page 1,
    the page the checkpoint names as done. *)
Theorem resume_fetches_completed_pages :
  save_scraping_state (get_date_range jan16_1030).1 1 = "2024-01-01,1"
  ∧ first_page jan16_1030 checkpointed = Ok 0
  ∧ fetched_pages (trace (getLinks endless 3 jan16_1030 checkpointed)) = [0; 1; 2]
  ∧ first_page jan16_midnight checkpointed = Ok 1
  ∧ fetched_pages (trace (getLinks endless 3 jan16_midnight checkpointed)) = [1; 2; 3].
Proof. vm_compute. done. Qed.

End ConcreteRuns.


(* ================================================================== *)
(** ** Extraction and the ingestion loop *)
(* ================================================================== *)

Section Extraction.
Import PyStr Json World IpfsHandler Working.
Variable page_source : string → nat → option string.
Variable soup_parses : string → bool.
Variable soup_find : string → string → string → option tag.
Variable soup_str : string → string.
Variable handle : string → option string.

(** The two ways of [parse_page]: a library raised, or the record is
    built from what the libraries returned. *)
Lemma parse_page_cases html :
  ((soup_parses html = false
    ∨ handle (soup_str html) = None
    ∨ ∃ e, soup_find html "section" "claims" = Some e ∧ handle (tag_str e) = None)
   ∧ parse_page soup_parses soup_find soup_str handle html = None)
  ∨ ∃ full claims_text,
      soup_parses html = true
      ∧ handle (soup_str html) = Some full
      ∧ claims_text_of handle (soup_find html "section" "claims") = Some claims_text
      ∧ parse_page soup_parses soup_find soup_str handle html
        = Some
            [ ("patent_title", JStr (text_or_NA (soup_find html "span" "title")));
              ("abstract", JStr (text_or_NA (soup_find html "section" "abstract")));
              ("inventor_name", JStr (text_or_NA (soup_find html "dd" "inventor")));
              ("assignee_name",
                JStr (match soup_find html "dd" "assigneeCurrent" with
                      | Some e => strip (tag_text e)
                      | None => text_or_NA (soup_find html "dd" "assigneeOriginal")
                      end));
              ("filing_date", JStr (text_or_NA (soup_find html "time" "filingDate")));
              ("claims_text", claims_text);
              ("patent_text", JStr (collapse_lines full)) ].
Proof.
  unfold parse_page.
  destruct (soup_parses html); [|left; split; [by left|done]].
  destruct (handle (soup_str html)) as [full|] eqn:Hf; cbn [mbind option_bind].
  2:{ left. split; [right; by left|done]. }
  destruct (claims_text_of handle (soup_find html "section" "claims")) as [c|] eqn:Hc;
    cbn [mbind option_bind].
  - right. by exists full, c.
  - left. split; [|done]. right. right. unfold claims_text_of in Hc.
    destruct (soup_find html "section" "claims") as [e|]; [|done].
    exists e. split; [done|]. by destruct (handle (tag_str e)) as [[|??]|].
Qed.

(** C8, as the code has it.  Extraction never raises.  It gives no
    record exactly when the browser could not deliver the page or,
    with the page delivered, the parser of BeautifulSoup or html2text
    (on the whole page or on the claims section) raised.  From a page
    that got through them a record is built whatever the page lacks:
    the title, the abstract, the inventor and the filing date are the
    stripped text of their element or the sentinel [N/A], and the
    assignee is the current assignee if the page has one, else the
    original assignee if the page has one, else the sentinel. *)
Theorem extraction_fails_without_page_or_parse url s :
  let field (name itemprop : string) html := text_or_NA (soup_find html name itemprop) in
  let library_raises html :=
    soup_parses html = false
    ∨ handle (soup_str html) = None
    ∨ ∃ e, soup_find html "section" "claims" = Some e ∧ handle (tag_str e) = None in
  let source := page_source url (browsed s) in
  let cleaned :=
    (clean_html_content page_source soup_parses soup_find soup_str handle url s).1 in
  let extracted :=
    (extract_patent_info_with_llm page_source soup_parses soup_find soup_str handle url s).1 in
  (∃ r, cleaned = Ok r)
  ∧ (cleaned = Ok None ↔ source = None ∨ ∃ html, source = Some html ∧ library_raises html)
  ∧ (extracted = Ok None ↔ cleaned = Ok None)
  ∧ (∀ html, source = Some html → ¬ library_raises html →
       ∃ d d', cleaned = Ok (Some d) ∧ extracted = Ok (Some d')
         ∧ ∀ r, r = d ∨ r = d' →
           lookup r "patent_title" = Some (JStr (field "span" "title" html))
           ∧ lookup r "abstract" = Some (JStr (field "section" "abstract" html))
           ∧ lookup r "inventor_name" = Some (JStr (field "dd" "inventor" html))
           ∧ lookup r "filing_date" = Some (JStr (field "time" "filingDate" html))
           ∧ lookup r "assignee_name"
             = Some (JStr
                 match soup_find html "dd" "assigneeCurrent",
                       soup_find html "dd" "assigneeOriginal" with
                 | Some current, _ => strip (tag_text current)
                 | None, Some original => strip (tag_text original)
                 | None, None => "N/A"
                 end)).
Proof.
  cbv zeta. unfold extract_patent_info_with_llm, bind, clean_html_content.
  destruct (page_source url (browsed s)) as [html|]; cbn [fst].
  2:{ split_and!; [by eexists|split; [by left|done]|done|done]. }
  destruct (parse_page_cases html)
    as [(Hraises & ->)|(full & claims_text & Hp & Hf & Hc & ->)].
  - split_and!; [by eexists| |done|].
    + split; [intros _; right; by exists html|done].
    + intros ? [= <-] Hnot. by destruct Hnot.
  - assert (¬ (soup_parses html = false ∨ handle (soup_str html) = None
               ∨ ∃ e, soup_find html "section" "claims" = Some e
                      ∧ handle (tag_str e) = None)) as Hnot.
    { intros [H|[H|(e & He & H)]]; [congruence|congruence|].
      unfold claims_text_of in Hc. rewrite He, H in Hc. done. }
    split_and!; [by eexists| |done|].
    + split; [done|]. intros [?|(? & [= <-] & ?)]; done.
    + intros ? [= <-] _. cbn [fst].
      eexists _, _. split_and!; [done|done|].
      intros r [->| ->]; split_and!; try done.
      all: unfold text_or_NA; by destruct (soup_find html "dd" "assigneeCurrent").
Qed.

End Extraction.

Section Skip.
Import PyStr Json World IpfsHandler Working.
Variable cid : string → string.
Variable net : nat → reply.
Variable loads : string → option dict.
Variable page_source : string → nat → option string.
Variable soup_parses : string → bool.
Variable soup_find : string → string → string → option tag.
Variable soup_str : string → string.
Variable handle : string → option string.
Variable index : nat → index_reply.
Variable uuid4 : nat → string.

Lemma patent_no_at_nonempty u g : patent_no_at u = Some g → g ≠ EmptyString.
Proof.
  unfold patent_no_at. destruct (strip_prefix "/patent/" u) as [r|]; [|done].
  destruct (take_while isupper_or_digit (String.length r) r); [done|].
  by intros [= <-].
Qed.

Lemma search_unfold (at_head : string → option string) (s : string) :
  search at_head s
  = match at_head s with
    | Some g => Some g
    | None => match s with EmptyString => None | String _ s' => search at_head s' end
    end.
Proof. by destruct s. Qed.

Lemma search_patent_no_nonempty u g : search patent_no_at u = Some g → g ≠ EmptyString.
Proof.
  induction u as [|c u IH]; rewrite search_unfold;
    destruct (patent_no_at _) eqn:H; try done;
    intros [= <-]; by eapply patent_no_at_nonempty.
Qed.

(** C7. A URL whose record file patent_json/<number>.json exists when
    its turn comes is skipped: the body of the loop ends with the world
    exactly as it was, so nothing was asked of the browser, the index
    or the content store, and no file was written.  A list of such URLs
    leaves the world as it was, and so does every run after it. *)
Theorem existing_record_is_skipped url urls s :
  let process := process_url cid net loads page_source soup_parses soup_find soup_str handle index uuid4 in
  let loop := for_urls cid net loads page_source soup_parses soup_find soup_str handle index uuid4 in
  (∀ patent_no,
     search patent_no_at (remove_char "@" (strip url)) = Some patent_no →
     is_Some (local_files s !! local_json_path patent_no) →
     process url s = (Ok (AlreadyStored patent_no), s))
  ∧ (Forall (stored s) urls →
     ∃ vs, loop urls s = (Ok vs, s)
           ∧ Forall (λ v, ∃ patent_no, v = AlreadyStored patent_no) vs).
Proof.
  cbv zeta.
  assert (∀ url patent_no,
     search patent_no_at (remove_char "@" (strip url)) = Some patent_no →
     is_Some (local_files s !! local_json_path patent_no) →
     process_url cid net loads page_source soup_parses soup_find soup_str handle index uuid4 url s
     = (Ok (AlreadyStored patent_no), s)) as Hone.
  { intros u patent_no Hno Hfile.
    unfold process_url, try_except, bind, exists_file. rewrite Hno.
    rewrite bool_decide_eq_false_2 by (by eapply search_patent_no_nonempty).
    by rewrite bool_decide_eq_true_2. }
  split; [apply Hone|].
  induction 1 as [|u us (no & Hno & Hfile) _ (vs & Hvs & Hall)].
  - by exists [].
  - exists (AlreadyStored no :: vs). split.
    + simpl. unfold bind at 1. rewrite (Hone u no Hno Hfile).
      unfold bind at 1. by rewrite Hvs.
    + constructor; [by exists no|done].
Qed.

End Skip.


Section Upload.
Import PyStr Json World IpfsHandler.
Variable cid : string → string.
Variable net : nat → reply.
Variable loads : string → option dict.

Lemma length_append (a b : string) :
  String.length (a +:+ b) = (String.length a + String.length b)%nat.
Proof. induction a as [|c a IH]; simpl; [done|]. by rewrite IH. Qed.

Lemma append_cons x (a b : string) : String x a +:+ b = String x (a +:+ b).
Proof. done. Qed.



Lemma dumps_nonempty k e (d : dict) :
  d ≠ [] →
  dumps (Some k) e d
  = "{" +:+ newline_indent (Some k) 1
    +:+ join (item_separator (Some k) 1) (dumps_item (Some k) e <$> d)
    +:+ newline_indent (Some k) 0 +:+ "}".
Proof. by destruct d. Qed.




End Upload.


Section UploadRun.
Import PyStr Json World IpfsHandler Frames.
Variable cid : string → string.
Variable net : nat → reply.
Variable loads : string → option dict.

(** The three fates of a request. *)
Lemma post_cases (r : request) (s : state) :
  (net (sent s) = Unreachable
   ∧ post cid net r s = (Raise ConnectionError, emit (Http r None) (tick_sent s)))
  ∨ (net (sent s) = ErrorStatus
     ∧ post cid net r s
       = (Ok (Response 500 EmptyString EmptyString), emit (Http r (Some 500)) (tick_sent s)))
  ∨ (net (sent s) = Served
     ∧ post cid net r s
       = (Ok (serve cid r (ipfs s)).1,
          emit (Http r (Some (status_code (serve cid r (ipfs s)).1)))
            (with_ipfs (serve cid r (ipfs s)).2 (tick_sent s)))).
Proof.
  unfold post. destruct (net (sent s)); [right; right|right; left|left]; split; try done.
  by destruct (serve cid r (ipfs s)).
Qed.

Lemma pin_requests_app a b : pin_requests (a ++ b) = pin_requests a ++ pin_requests b.
Proof. apply omap_app. Qed.

Lemma file_writes_app path a b :
  file_writes path (a ++ b) = file_writes path a ++ file_writes path b.
Proof. apply omap_app. Qed.

Lemma quiet_refl s : quiet s s.
Proof. split_and!; try done. exists []. by rewrite app_nil_r. Qed.

Lemma quiet_trans s1 s2 s3 : quiet s1 s2 → quiet s2 s3 → quiet s1 s3.
Proof.
  intros (Hb1 & Hp1 & Hf1 & n1 & Hl1 & Hn1 & Hw1) (Hb2 & Hp2 & Hf2 & n2 & Hl2 & Hn2 & Hw2).
  split_and!; [congruence|congruence|congruence|].
  exists (n1 ++ n2). split_and!.
  - by rewrite Hl2, Hl1, app_assoc.
  - by rewrite pin_requests_app, Hn1, Hn2.
  - intros path. by rewrite file_writes_app, Hw1, Hw2.
Qed.

Lemma Quiet_ret {A} (a : A) : Quiet (ret a).
Proof. intros s r s' [= <- <-]. apply quiet_refl. Qed.

Lemma Quiet_raise {A} e : Quiet (raise (A:=A) e).
Proof. intros s r s' [= <- <-]. apply quiet_refl. Qed.

Lemma Quiet_bind {A B} (m : M A) (k : A → M B) :
  Quiet m → (∀ a, Quiet (k a)) → Quiet (bind m k).
Proof.
  intros Hm Hk s r s'. unfold bind.
  destruct (m s) as [[a|e] s1] eqn:Hms.
  - intros Hks. eapply quiet_trans; [by eapply Hm|by eapply Hk].
  - intros [= <- <-]. by eapply Hm.
Qed.

Lemma Quiet_try_except {A} (m : M A) (h : exn → M A) :
  Quiet m → (∀ e, Quiet (h e)) → Quiet (try_except m h).
Proof.
  intros Hm Hh s r s'. unfold try_except.
  destruct (m s) as [[a|e] s1] eqn:Hms.
  - intros [= <- <-]. by eapply Hm.
  - intros Hhs. eapply quiet_trans; [by eapply Hm|by eapply Hh].
Qed.

Lemma serve_mild r nd :
  mild r → blocks (serve cid r nd).2 = blocks nd ∧ pins (serve cid r nd).2 = pins nd.
Proof. destruct r; try done; simpl; by repeat case_match. Qed.

Lemma Quiet_post r : mild r → Quiet (post cid net r).
Proof.
  intros Hr s res s' Hpost.
  assert (∀ st, pin_requests [Http r st] = [] ∧ ∀ path, file_writes path [Http r st] = [])
    as Hev.
  { intros st. by destruct r. }
  destruct (post_cases r s) as [(_ & E)|[(_ & E)|(_ & E)]];
    rewrite E in Hpost; injection Hpost as <- <-.
  1,2: split_and!; [done|done|done|eexists; split; [done|apply Hev]].
  destruct (serve_mild r (ipfs s) Hr) as [Hb Hp].
  split_and!; [exact Hb|exact Hp|done|eexists; split; [done|apply Hev]].
Qed.

Ltac quiet_steps :=
  repeat first
    [ apply Quiet_try_except | apply Quiet_bind | apply Quiet_ret | apply Quiet_raise
    | apply Quiet_post; done
    | match goal with
      | |- ∀ _, Quiet _ => intros ?
      | |- Quiet (match ?x with _ => _ end) => destruct x
      end ].

Lemma Quiet_verify h : Quiet (verify_ipfs_upload cid net loads h).
Proof. unfold verify_ipfs_upload, get_from_ipfs. quiet_steps. Qed.

(** The rest of [save_and_upload] behind the pin request. *)
Lemma Quiet_mirror patent_number final_hash :
  Quiet (try_except (bind (post cid net (FilesRm (mfs_path patent_number))) (λ _, ret tt))
                    (λ _, ret tt) ;;;
         try_except (bind (post cid net (FilesCp final_hash (mfs_path patent_number)))
                          (λ _, ret tt))
                    (λ _, ret tt) ;;;
         verify_response <- post cid net (FilesStat (mfs_path patent_number)) ;;
         _ <- verify_ipfs_upload cid net loads final_hash ;;
         ret final_hash)%world.
Proof.
  repeat first [ apply Quiet_verify | progress quiet_steps ].
Qed.

End UploadRun.


Section TwoPhase.
Import PyStr Json World IpfsHandler Frames.
Variable cid : string → string.
Variable net : nat → reply.
Variable loads : string → option dict.

Lemma bind4_ret {A B C D E} (a : M A) (b : M B) (c : M C) (d : M D) (h : E) s v s' :
  (a ;;; b ;;; c ;;; d ;;; ret h)%world s = (Ok v, s') → v = h.
Proof.
  unfold bind, ret.
  destruct (a s) as [[?|?] s1]; [|done].
  destruct (b s1) as [[?|?] s2]; [|done].
  destruct (c s2) as [[?|?] s3]; [|done].
  destruct (d s3) as [[?|?] s4]; [|done].
  by intros [= <- _].
Qed.

Lemma file_writes_upload path content r1 st1 r2 st2 r3 st3 :
  file_writes path [Http r1 st1; Http r2 st2; FileWrite path content; Http r3 st3]
  = [content].
Proof. unfold file_writes. simpl. by rewrite decide_True. Qed.

Lemma file_writes_upload_other p path content r1 st1 r2 st2 r3 st3 :
  p ≠ path →
  file_writes p [Http r1 st1; Http r2 st2; FileWrite path content; Http r3 st3] = [].
Proof. intros Hp. unfold file_writes. simpl. by rewrite decide_False. Qed.

Lemma pin_requests_upload b1 st1 b2 st2 p c a st :
  pin_requests [Http (Add b1) st1; Http (Add b2) st2; FileWrite p c; Http (PinAdd a) st]
  = [a].
Proof. done. Qed.

Lemma pin_served_upload b1 st1 b2 st2 p c a st :
  Http (PinAdd a) (Some 200)
    ∈ [Http (Add b1) st1; Http (Add b2) st2; FileWrite p c; Http (PinAdd a) st] →
  st = Some 200.
Proof.
  intros Hin. repeat (apply elem_of_cons in Hin as [Hin|Hin]; [by simplify_eq|]).
  by apply elem_of_nil in Hin.
Qed.

Lemma no_pin_request (new : list event) a st :
  pin_requests new = [] → Http (PinAdd a) st ∉ new.
Proof.
  intros Hn Hin. induction new as [|e new IH]; [by apply elem_of_nil in Hin|].
  apply elem_of_cons in Hin as [<-|Hin]; [done|].
  apply IH; [|done]. by destruct e as [[] ?| | | | |].
Qed.

(** Everything [save_and_upload] can do.  It never raises.  Either one
    of the two uploads fails: the empty hash is returned and no file is
    written; or both are served: the record with the first address in
    it is stored under the second address, the local file is written
    once with that record, the one pin request names the second
    address, and the hash returned is the second address or, when the
    pin or the look at the mirror raised, the empty one. *)
Lemma save_and_upload_cases patent_data patent_number s :
  let d1 := formatted patent_data patent_number in
  let b1 := dumps (Some 2%nat) true d1 in
  let addr1 := cid b1 in
  let d2 := set d1 "ipfs_hash" (JStr addr1) in
  let b2 := dumps (Some 2%nat) true d2 in
  let addr2 := cid b2 in
  let path := json_path patent_number in
  let content := dumps (Some 2%nat) false d2 in
  let '(res, s') := save_and_upload cid net loads patent_data patent_number s in
  ∃ h new, res = Ok h ∧ log s' = log s ++ new
    ∧ ((h = EmptyString ∧ local_files s' = local_files s
        ∧ (∀ p, file_writes p new = []) ∧ pin_requests new = []
        ∧ (net (sent s) ≠ Served ∨ net (S (sent s)) ≠ Served))
       ∨ (net (sent s) = Served ∧ net (S (sent s)) = Served
          ∧ (h = EmptyString ∨ h = addr2)
          ∧ blocks (ipfs s') !! addr2 = Some b2
          ∧ local_files s' = <[path := content]> (local_files s)
          ∧ file_writes path new = [content]
          ∧ (∀ p, p ≠ path → file_writes p new = [])
          ∧ pin_requests new = [addr2]
          ∧ (Http (PinAdd addr2) (Some 200) ∈ new → addr2 ∈ pins (ipfs s'))
          ∧ ∃ status,
              Http (PinAdd addr2) status ∈ new
              ∧ (status = None → h = EmptyString)
              ∧ pins (ipfs s')
                = if decide (status = Some 200)
                  then {[addr2]} ∪ pins (ipfs s) else pins (ipfs s))).
Proof.
  intros d1 b1 addr1 d2 b2 addr2 path content.
  unfold save_and_upload. fold d1. fold b1.
  unfold try_except at 1. unfold bind at 1.
  destruct (post_cases cid net (Add b1) s) as [(N1 & E1)|[(N1 & E1)|(N1 & E1)]]; rewrite E1.
  1,2: eexists EmptyString, [Http (Add b1) _]; split_and!; [done|done|left];
       split_and!; [done|done|done|done|left; congruence].
  cbn [serve fst snd status_code Hash]. change (200 =? 200) with true. cbv iota.
  fold addr1. fold d2. fold b2. fold content. fold path.
  set (s1 := emit _ (with_ipfs _ (tick_sent s))).
  assert (sent s1 = S (sent s)) as Hs1 by done.
  unfold bind at 1.
  destruct (post_cases cid net (Add b2) s1) as [(N2 & E2)|[(N2 & E2)|(N2 & E2)]]; rewrite E2.
  1,2: eexists EmptyString, [Http (Add b1) (Some 200); Http (Add b2) _];
       split_and!; [done|by (subst s1; simpl; rewrite <- app_assoc)|left];
       split_and!; [done|done|done|done|right; congruence].
  cbn [serve fst snd status_code Hash]. change (200 =? 200) with true. cbv iota.
  fold addr2.
  set (s2 := emit _ (with_ipfs _ (tick_sent s1))).
  unfold bind at 1. unfold write_file at 1. cbv beta iota.
  set (s3 := emit _ (with_files _ s2)).
  assert (blocks (ipfs s3) !! addr2 = Some b2) as Hblock by apply lookup_insert_eq.
  assert (pins (ipfs s3) = pins (ipfs s)) as Hpins3 by done.
  assert (log s3 = log s ++ [Http (Add b1) (Some 200); Http (Add b2) (Some 200);
                             FileWrite path content]) as Hlog3.
  { subst s3 s2 s1. simpl. by rewrite <- !app_assoc. }
  assert (local_files s3 = <[path := content]> (local_files s)) as Hfiles3 by done.
  rewrite Hs1 in N2.
  assert (∀ st tl, Http (PinAdd addr2) st
                   ∈ [Http (Add b1) (Some 200); Http (Add b2) (Some 200);
                      FileWrite path content; Http (PinAdd addr2) st] ++ tl) as Hasked.
  { intros st tl. apply elem_of_app. left. rewrite !elem_of_cons. tauto. }
  unfold bind at 1.
  destruct (post_cases cid net (PinAdd addr2) s3) as [(N3 & E3)|[(N3 & E3)|(N3 & E3)]];
    rewrite E3; clear E3.
  - (* the pin request raises *)
    exists EmptyString, [Http (Add b1) (Some 200); Http (Add b2) (Some 200);
                         FileWrite path content; Http (PinAdd addr2) None].
    split_and!; [done|by (cbn [log emit tick_sent]; rewrite Hlog3, <- app_assoc)|right].
    split_and!; [exact N1|exact N2|by left|exact Hblock|exact Hfiles3
                |apply file_writes_upload
                |by intros; apply file_writes_upload_other
                |apply pin_requests_upload| |].
    + by intros ?%pin_served_upload.
    + exists None. split_and!; [exact (Hasked None [])|done|].
      rewrite decide_False by done. exact Hpins3.
  - (* the pin request is answered with an error status *)
    set (s4 := emit _ (tick_sent s3)).
    cbv beta iota.
    match goal with |- context [bind ?m ?k s4] =>
      destruct (bind m k s4) as [r s'] eqn:Hrest end.
    pose proof (Quiet_mirror cid net loads patent_number addr2 s4 r s' Hrest) as Hq.
    unfold quiet in Hq. destruct Hq as (Hb & Hp & Hf & new & Hl & Hn & Hw).
    assert (∃ h, (let (r, s') := (r, s') in
                  match r with Ok a => (Ok a, s') | Raise _ => ret EmptyString s' end)
                 = (Ok h, s') ∧ (h = EmptyString ∨ h = addr2)) as (h & -> & Hh).
    { destruct r as [v|e]; [exists v|exists EmptyString]; (split; [done|]);
        [right; by eapply bind4_ret|by left]. }
    exists h, ([Http (Add b1) (Some 200); Http (Add b2) (Some 200);
                FileWrite path content; Http (PinAdd addr2) (Some 500)] ++ new).
    split_and!.
    + done.
    + rewrite Hl. subst s4. cbn [log emit tick_sent with_ipfs].
      rewrite Hlog3. by rewrite <- !app_assoc.
    + right. split_and!; [exact N1|exact N2| | | | | | | |].
      * exact Hh.
      * rewrite Hb; exact Hblock.
      * rewrite Hf; exact Hfiles3.
      * by rewrite file_writes_app, Hw, app_nil_r, file_writes_upload.
      * intros p Hne. by rewrite file_writes_app, Hw, app_nil_r, file_writes_upload_other.
      * by rewrite pin_requests_app, Hn.
      * intros Hin. apply elem_of_app in Hin as [Hin|Hin].
        { by apply pin_served_upload in Hin. }
        by apply no_pin_request in Hin.
      * exists (Some 500). split_and!; [apply Hasked|done|].
        rewrite decide_False by done. rewrite Hp. exact Hpins3.
  - (* the pin request is served *)
    cbn [serve fst snd status_code]. rewrite Hblock. cbn [fst snd status_code].
    set (s4 := emit _ (with_ipfs _ (tick_sent s3))).
    cbv beta iota.
    match goal with |- context [bind ?m ?k s4] =>
      destruct (bind m k s4) as [r s'] eqn:Hrest end.
    pose proof (Quiet_mirror cid net loads patent_number addr2 s4 r s' Hrest) as Hq.
    unfold quiet in Hq. destruct Hq as (Hb & Hp & Hf & new & Hl & Hn & Hw).
    assert (∃ h, (let (r, s') := (r, s') in
                  match r with Ok a => (Ok a, s') | Raise _ => ret EmptyString s' end)
                 = (Ok h, s') ∧ (h = EmptyString ∨ h = addr2)) as (h & -> & Hh).
    { destruct r as [v|e]; [exists v|exists EmptyString]; (split; [done|]);
        [right; by eapply bind4_ret|by left]. }
    exists h, ([Http (Add b1) (Some 200); Http (Add b2) (Some 200);
                FileWrite path content; Http (PinAdd addr2) (Some 200)] ++ new).
    split_and!.
    + done.
    + rewrite Hl. subst s4. cbn [log emit tick_sent with_ipfs].
      rewrite Hlog3. by rewrite <- !app_assoc.
    + right. split_and!; [exact N1|exact N2| | | | | | | |].
      * exact Hh.
      * rewrite Hb; exact Hblock.
      * rewrite Hf; exact Hfiles3.
      * by rewrite file_writes_app, Hw, app_nil_r, file_writes_upload.
      * intros p Hne. by rewrite file_writes_app, Hw, app_nil_r, file_writes_upload_other.
      * by rewrite pin_requests_app, Hn.
      * intros _. rewrite Hp. apply elem_of_union. left. by apply elem_of_singleton.
      * exists (Some 200). split_and!; [apply Hasked|done|].
        rewrite decide_True by done. rewrite Hp. cbn [s4 ipfs emit with_ipfs pins].
        by rewrite Hpins3.
Qed.

End TwoPhase.


Section TwoPhaseClaim.
Import PyStr Json World IpfsHandler Frames.
Variable cid : string → string.
Variable net : nat → reply.
Variable loads : string → option dict.



End TwoPhaseClaim.


Section LocalRecord.
Import PyStr Json World IpfsHandler Frames Working.
Variable cid : string → string.
Variable net : nat → reply.
Variable loads : string → option dict.
Variable page_source : string → nat → option string.
Variable soup_parses : string → bool.
Variable soup_find : string → string → string → option tag.
Variable soup_str : string → string.
Variable handle : string → option string.
Variable index : nat → index_reply.
Variable uuid4 : nat → string.

(** A text that begins with a record's first key begins with a quote. *)
Lemma join_items_head k e sep (d : dict) :
  d ≠ [] → ∃ rest, join sep (dumps_item (Some k) e <$> d) = String dquote rest.
Proof.
  destruct d as [|kv d]; [done|]. intros _.
  destruct d as [|kv' d]; eexists; [done|].
  change (join sep (dumps_item (Some k) e <$> kv :: kv' :: d))
    with (dumps_item (Some k) e kv +:+ sep +:+ join sep (dumps_item (Some k) e <$> kv' :: d)).
  unfold dumps_item, encode_string. by rewrite !append_cons.
Qed.

(** The record file as [main] writes it and as [save_and_upload]
    writes it differ in the indentation of the first field already. *)
Lemma dumps_indent_differ e e' (d d' : dict) :
  d ≠ [] → d' ≠ [] → dumps (Some 4%nat) e d ≠ dumps (Some 2%nat) e' d'.
Proof.
  intros Hd Hd'. rewrite !dumps_nonempty by done.
  destruct (join_items_head 2 e' (item_separator (Some 2%nat) 1) d' Hd') as [rest ->].
  by intros [=].
Qed.

Lemma file_writes_written path c tr :
  file_writes path (FileWrite path c :: tr) = c :: file_writes path tr.
Proof. unfold file_writes. simpl. by rewrite decide_True. Qed.

Lemma file_writes_elsewhere p path c tr :
  p ≠ path → file_writes p (FileWrite path c :: tr) = file_writes p tr.
Proof. intros Hp. unfold file_writes. simpl. by rewrite decide_False. Qed.

Lemma file_writes_browse p u b tr :
  file_writes p (Browse u b :: tr) = file_writes p tr.
Proof. done. Qed.

Lemma file_writes_sleep p n : file_writes p [Sleep n] = [].
Proof. done. Qed.

Lemma set_nonempty (d : dict) key v : set d key v ≠ [].
Proof. destruct d as [|[k w] d]; [done|]. simpl. by case_decide. Qed.

Lemma extract_cases url s :
  (cleaned_page page_source soup_parses soup_find soup_str handle url s = None
   ∧ ∃ rendered,
       extract_patent_info_with_llm page_source soup_parses soup_find soup_str handle url s
       = (Ok None, emit (Browse url rendered) (tick_browsed s)))
  ∨ (∃ d, d ≠ []
      ∧ is_Some (cleaned_page page_source soup_parses soup_find soup_str handle url s)
      ∧ extract_patent_info_with_llm page_source soup_parses soup_find soup_str handle url s
        = (Ok (Some d), emit (Browse url true) (tick_browsed s))).
Proof.
  unfold extract_patent_info_with_llm, bind, clean_html_content, cleaned_page.
  destruct (page_source url (browsed s)) as [html|]; [|left; split; [done|by eexists]].
  cbn [mbind option_bind].
  destruct (parse_page_cases soup_parses soup_find soup_str handle html)
    as [(_ & ->)|(full & claims_text & _ & _ & _ & ->)].
  - left. split; [done|by eexists].
  - right. eexists. split; [|split; [by eexists|reflexivity]].
    intros Heq. apply (f_equal (λ r, lookup r "patent_url")) in Heq. done.
Qed.

Lemma embed_cases document s :
  (index (indexed s) ≠ Indexed
   ∧ ∃ e, embed_and_store index uuid4 document s
          = (Raise e, emit (Encode document) (tick_indexed s)))
  ∨ (index (indexed s) = Indexed
     ∧ embed_and_store index uuid4 document s
       = (Ok (uuid4 (indexed s)),
          emit (CollectionAdd (uuid4 (indexed s)) document)
            (emit (Encode document) (tick_indexed s)))).
Proof.
  unfold embed_and_store.
  destruct (index (indexed s)); [by right|left; split; [done|by eexists]..].
Qed.

(** The inner [try] of the loop body: the record file is written, then
    the index stage runs, which writes no file. *)
Lemma store_locally_cases path content document s :
  ∃ b s1 new,
    try_except (write_file path content ;;;
                _ <- embed_and_store index uuid4 document ;; ret true)%world
               (λ _, ret false) s = (Ok b, s1)
    ∧ log s1 = log s ++ FileWrite path content :: new
    ∧ (∀ p, file_writes p new = [])
    ∧ local_files s1 = <[path := content]> (local_files s)
    ∧ sent s1 = sent s
    ∧ (b = true ↔ index (indexed s) = Indexed).
Proof.
  unfold try_except, bind at 1. unfold write_file. cbv beta iota.
  set (s0 := emit _ (with_files _ s)).
  unfold bind.
  destruct (embed_cases document s0) as [(Hi & e & ->)|(Hi & ->)].
  - exists false, (emit (Encode document) (tick_indexed s0)), [Encode document].
    split_and!; try done.
    all: try (subst s0; simpl; by rewrite <- app_assoc).
    all: split; [done|]; intros Hi'; by destruct Hi.
  - eexists true, _, [Encode document; CollectionAdd _ document].
    split_and!; try done.
    all: subst s0; simpl; by rewrite <- !app_assoc.
Qed.

End LocalRecord.


Section LocalRecordClaim.
Import PyStr Json World IpfsHandler Frames Working.
Variable cid : string → string.
Variable net : nat → reply.
Variable loads : string → option dict.
Variable page_source : string → nat → option string.
Variable soup_parses : string → bool.
Variable soup_find : string → string → string → option tag.
Variable soup_str : string → string.
Variable handle : string → option string.
Variable index : nat → index_reply.
Variable uuid4 : nat → string.

(** C9, as the code has it.  In the turn of a URL that names the
    patent [patent_no], the sources open no file for writing but
    patent_json/<patent_no>.json.  When that file exists the URL is skipped and the world is
    left as it was.  When no record can be extracted the file is not
    written.  Otherwise [main] writes the record once, indented by 4,
    before the index stage, which writes nothing; and when the index
    stage succeeds and both uploads are answered with 200,
    [save_and_upload] writes the same file a second time, with the
    reformatted record that carries the field [ipfs_hash], indented by
    2: the file ends with this second text, which differs from the
    first. *)
Theorem local_record_rewritten_by_upload url patent_no s :
  let process := process_url cid net loads page_source soup_parses soup_find soup_str handle index uuid4 in
  let extract := extract_patent_info_with_llm page_source soup_parses soup_find soup_str handle in
  let url' := remove_char "@" (strip url) in
  let path := local_json_path patent_no in
  search patent_no_at url' = Some patent_no →
  ∃ v s' new,
    process url s = (Ok v, s')
    ∧ log s' = log s ++ new
    ∧ (∀ p, p ≠ path → file_writes p new = [])
    ∧ (is_Some (local_files s !! path) → v = AlreadyStored patent_no ∧ s' = s)
    ∧ ((file_writes path new = [] ∧ local_files s' = local_files s
        ∧ (v = AlreadyStored patent_no ∨ v = ExtractionFailed))
       ∨ ∃ d, (extract url' s).1 = Ok (Some d)
           ∧ let record := set d "publication_number" (JStr patent_no) in
             let c1 := dumps (Some 4%nat) false record in
             let addr1 := cid (dumps (Some 2%nat) true (formatted record patent_no)) in
             let c2 := dumps (Some 2%nat) false
                         (set (formatted record patent_no) "ipfs_hash" (JStr addr1)) in
             c1 ≠ c2
             ∧ ((file_writes path new = [c1]
                 ∧ local_files s' = <[path := c1]> (local_files s)
                 ∧ (v = IndexFailed ∨ v = UploadFailed)
                 ∧ (index (indexed s) ≠ Indexed
                    ∨ net (sent s) ≠ Served ∨ net (S (sent s)) ≠ Served))
                ∨ (file_writes path new = [c1; c2]
                   ∧ local_files s' = <[path := c2]> (local_files s)
                   ∧ index (indexed s) = Indexed
                   ∧ net (sent s) = Served ∧ net (S (sent s)) = Served
                   ∧ (v = UploadFailed ∨ ∃ h, v = Processed patent_no h)))).
Proof.
  intros process extract url' path Hno. subst process extract.
  unfold process_url. fold url'. rewrite Hno.
  rewrite bool_decide_eq_false_2 by (by eapply search_patent_no_nonempty).
  fold path. unfold try_except at 1. unfold bind at 1. unfold exists_file.
  destruct (decide (is_Some (local_files s !! path))) as [Hfile|Hfile].
  { rewrite bool_decide_eq_true_2 by done.
    exists (AlreadyStored patent_no), s, [].
    split_and!; [done|by rewrite app_nil_r|done|done|left; split_and!; [done|done|by left]]. }
  rewrite bool_decide_eq_false_2 by done.
  unfold bind at 1.
  destruct (extract_cases page_source soup_parses soup_find soup_str handle url' s)
    as [(Hsrc & rendered & E)|(d & Hd & _ & E)]; rewrite E.
  { exists ExtractionFailed, (emit (Sleep 2) (emit (Browse url' rendered) (tick_browsed s))),
      [Browse url' rendered; Sleep 2].
    split_and!; [done|by (simpl; rewrite <- app_assoc)|done|done
                |left; split_and!; [done|done|by right]]. }
  assert (json_path patent_no = path) as Hpath by done.
  destruct d as [|kv d0]; [done|]. cbv beta iota.
  set (d := kv :: d0) in *.
  set (record := set d "publication_number" (JStr patent_no)).
  set (c1 := dumps (Some 4%nat) false record).
  set (s0 := emit (Browse url' true) (tick_browsed s)).
  unfold bind at 1.
  destruct (store_locally_cases index uuid4 path c1 (dumps None true record) s0)
    as (b & s1 & new1 & -> & Hlog1 & Hw1 & Hf1 & Hsent1 & Hb).
  assert (log s1 = log s ++ Browse url' true :: FileWrite path c1 :: new1) as Hlog1'.
  { rewrite Hlog1. subst s0. simpl. by rewrite <- app_assoc. }
  assert (c1 ≠ dumps (Some 2%nat) false
                 (set (formatted record patent_no) "ipfs_hash"
                    (JStr (cid (dumps (Some 2%nat) true (formatted record patent_no))))))
    as Hdiff.
  { apply dumps_indent_differ; apply set_nonempty. }
  assert (file_writes path (Browse url' true :: FileWrite path c1 :: new1) = [c1]) as Hone.
  { by rewrite file_writes_browse, file_writes_written, Hw1. }
  assert (∀ p, p ≠ path →
            file_writes p (Browse url' true :: FileWrite path c1 :: new1) = []) as Hother.
  { intros p Hp. by rewrite file_writes_browse, file_writes_elsewhere, Hw1. }
  assert (local_files s1 = <[path := c1]> (local_files s)) as Hf1' by exact Hf1.
  assert (sent s1 = sent s) as Hsent1' by exact Hsent1.
  assert (b = true ↔ index (indexed s) = Indexed) as Hb' by exact Hb.
  clear Hlog1 Hf1 Hsent1 Hb E. clearbody s0.
  destruct b.
  2: { exists IndexFailed, s1, (Browse url' true :: FileWrite path c1 :: new1).
       split_and!; [done|exact Hlog1'|exact Hother|done|right].
       exists d. split; [reflexivity|]. cbv zeta. split; [exact Hdiff|left].
       split_and!; [exact Hone|exact Hf1'|by left|left].
       intros Hi. apply Hb' in Hi. done. }
  assert (index (indexed s) = Indexed) as Hi by (by apply Hb').
  unfold bind at 1.
  pose proof (save_and_upload_cases cid net loads record patent_no s1) as Hc.
  cbv zeta in Hc. rewrite Hpath, Hsent1' in Hc.
  destruct (save_and_upload cid net loads record patent_no s1) as [res s2].
  destruct Hc as (h & new2 & -> & Hlog2 & Hc).
  set (c2 := dumps (Some 2%nat) false
               (set (formatted record patent_no) "ipfs_hash"
                  (JStr (cid (dumps (Some 2%nat) true (formatted record patent_no)))))) in *.
  assert (∃ v, (let (r, s'0) :=
                  (sleep 2 ;;; match h with
                               | EmptyString => ret UploadFailed
                               | String _ _ => ret (Processed patent_no h)
                               end)%world s2 in
                match r with Ok a => (Ok a, s'0) | Raise _ => ret UrlError s'0 end)
               = (Ok v, emit (Sleep 2) s2)
               ∧ (v = UploadFailed ∨ ∃ h, v = Processed patent_no h)
               ∧ (h = EmptyString → v = UploadFailed)) as (v & -> & Hv & Hv').
  { destruct h; eexists; (split; [reflexivity|]); (split; [|done]);
      [by left|right; by eexists]. }
  exists v, (emit (Sleep 2) s2),
    ((Browse url' true :: FileWrite path c1 :: new1) ++ new2 ++ [Sleep 2]).
  assert (log (emit (Sleep 2) s2)
          = log s ++ (Browse url' true :: FileWrite path c1 :: new1) ++ new2 ++ [Sleep 2])
    as Hlog.
  { cbn [log emit]. rewrite Hlog2, Hlog1'. by rewrite <- !app_assoc. }
  destruct Hc as [(Hh & Hf2 & Hw2 & _ & Hnet)
                 |(N1 & N2 & _ & _ & Hf2 & Hw2 & Hw2' & _)].
  - split_and!; [done|exact Hlog| |done|right].
    { intros p Hp. by rewrite !file_writes_app, Hother, Hw2, file_writes_sleep. }
    exists d. split; [reflexivity|]. cbv zeta. split; [exact Hdiff|left].
    split_and!.
    + by rewrite !file_writes_app, Hone, Hw2, file_writes_sleep.
    + cbn [local_files emit]. by rewrite Hf2.
    + right. by apply Hv'.
    + by right.
  - split_and!; [done|exact Hlog| |done|right].
    { intros p Hp. by rewrite !file_writes_app, Hother, Hw2', file_writes_sleep. }
    exists d. split; [reflexivity|]. cbv zeta. split; [exact Hdiff|right].
    split_and!; [|
                |exact Hi|exact N1|exact N2|exact Hv].
    + by rewrite !file_writes_app, Hone, Hw2, file_writes_sleep.
    + cbn [local_files emit]. by rewrite Hf2, Hf1', insert_insert_eq.
Qed.
End LocalRecordClaim.


Section IngestRuns.
Import PyStr Json World IpfsHandler Frames Working IngestExamples.

(** C9, as the specification words it, fails: in the turn of one URL,
    with the index and the content store at work, the record file of
    the patent is written twice, and the second text, which the file
    keeps, differs from the first. *)
Lemma upload_overwrites_local_record :
  let run := process_url address always_served no_loads bare_page parses no_tag as_is converts
               always_indexed doc_id patent_url fresh in
  let path := local_json_path "US1234567" in
  ∃ c1 c2 h,
    run.1 = Ok (Processed "US1234567" h)
    ∧ file_writes path (log run.2) = [c1; c2]
    ∧ c1 ≠ c2
    ∧ local_files run.2 !! path = Some c2.
Proof.
  cbv zeta. eexists _, _, _.
  split; [vm_compute; reflexivity|].
  split; [vm_compute; reflexivity|].
  split; [|vm_compute; reflexivity].
  discriminate.
Qed.

End IngestRuns.


Section CrawlWitnesses.
Import PyStr PyDate GetLinksFinal Observe Examples.

(** The run over the three pages: the third page is empty and no page
    behind it is asked for. *)
Lemma empty_page_ends_pagination_witness :
  let r := getLinks three_pages 5 jan16_1030 no_files in
  outcome r = Ok WindowDone
  ∧ ∀ q url' res, DriverGet q url' res ∈ trace r → q ≤ 2.
Proof.
  apply (empty_page_ends_pagination three_pages 5 jan16_1030 no_files 2
           (construct_url 2 (get_date_range jan16_1030).1 (get_date_range jan16_1030).2)
           "no results").
  - vm_compute. repeat constructor.
  - vm_compute. reflexivity.
Defined.

(** A checkpoint file that holds a word only. *)
Lemma malformed_checkpoint_aborts_witness :
  let r := getLinks three_pages 3 jan16_1030 (Files [] (Some "yesterday")) in
  outcome r = Raise ValueError
  ∧ trace r = [DriverNew]
  ∧ fetched_pages (trace r) = []
  ∧ files_after r = Files [] (Some "yesterday").
Proof.
  apply (proj1 (malformed_checkpoint_aborts three_pages 3 jan16_1030
                  (Files [] (Some "yesterday")) "yesterday")).
  - reflexivity.
  - vm_compute. reflexivity.
Defined.

(** The browser that is down for three attempts: behind the third
    failure on page 0 nothing follows but the closing of the browser,
    and the window is given up. *)
Lemma bounded_retry_then_abandon_witness :
  let r := getLinks down_three_times 5 jan16_1030 no_files in
  after_failures MAX_RETRIES 0 (trace r) = Some [DriverQuit]
  ∧ outcome r = Ok Failed.
Proof.
  cbv zeta.
  destruct (after_failures MAX_RETRIES 0
              (trace (getLinks down_three_times 5 jan16_1030 no_files)))
    as [rest|] eqn:Haf; [|by vm_compute in Haf].
  destruct (bounded_retry_then_abandon down_three_times 5 jan16_1030 no_files
              0 EmptyString 0%nat ∅)
    as (_ & _ & H & _).
  destruct (H MAX_RETRIES 0 rest ltac:(unfold MAX_RETRIES; lia) Haf)
    as (_ & _ & _ & Hend).
  destruct (Hend eq_refl) as [-> Hout]. split; [reflexivity|exact Hout].
Defined.

End CrawlWitnesses.

Section IngestWitnesses.
Import PyStr Json World IpfsHandler Frames Working IngestExamples.



(** The URL of a patent whose record file is on disk. *)
Lemma existing_record_is_skipped_witness :
  process_url address always_served no_loads bare_page parses no_tag as_is converts
    always_indexed doc_id patent_url on_disk
  = (Ok (AlreadyStored "US1234567"), on_disk).
Proof.
  apply (proj1 (existing_record_is_skipped address always_served no_loads bare_page
                  parses no_tag as_is converts always_indexed doc_id patent_url [] on_disk)).
  - vm_compute. reflexivity.
  - eexists. vm_compute. reflexivity.
Defined.

(** A page with none of the elements: every field is the sentinel. *)
Lemma extraction_fails_without_page_or_parse_witness :
  ∃ d, (extract_patent_info_with_llm bare_page parses no_tag as_is converts patent_url fresh).1
       = Ok (Some d)
       ∧ lookup d "patent_title" = Some (JStr "N/A")
       ∧ lookup d "assignee_name" = Some (JStr "N/A").
Proof.
  destruct (extraction_fails_without_page_or_parse bare_page parses no_tag as_is converts
              patent_url fresh) as (_ & _ & _ & H).
  destruct (H "<html></html>" eq_refl) as (d & d' & _ & Hext & Hfields).
  { intros [H0|[H0|(e & H0 & _)]]; discriminate H0. }
  exists d'. split; [exact Hext|].
  destruct (Hfields d' (or_intror eq_refl)) as (Ht & _ & _ & _ & Ha).
  split; [exact Ht|exact Ha].
Defined.

(** C8, as the specification words it, fails: the browser delivers the
    page, so that it was fetched and rendered, but the page holds a
    marked section on which the parser raises, and the extraction
    gives no record. *)
Lemma rendered_page_without_record :
  let run := extract_patent_info_with_llm marked_page html_parser no_tag as_is converts
               patent_url fresh in
  marked_page patent_url (browsed fresh) = Some marked_section
  ∧ run.1 = Ok None
  ∧ log run.2 = [Browse patent_url true].
Proof. vm_compute. done. Qed.

(** The turn of one URL on an empty disk. *)
Lemma local_record_rewritten_by_upload_witness :
  ∃ v s' new,
    process_url address always_served no_loads bare_page parses no_tag as_is converts
      always_indexed doc_id patent_url fresh = (Ok v, s')
    ∧ log s' = log fresh ++ new
    ∧ ∀ p, p ≠ local_json_path "US1234567" → file_writes p new = [].
Proof.
  assert (search patent_no_at (remove_char "@" (strip patent_url)) = Some "US1234567")
    as Hno by (vm_compute; reflexivity).
  destruct (local_record_rewritten_by_upload address always_served no_loads bare_page
              parses no_tag as_is converts always_indexed doc_id patent_url "US1234567" fresh Hno)
    as (v & s' & new & Hrun & Hlog & Hother & _).
  exists v, s', new. exact (conj Hrun (conj Hlog Hother)).
Defined.

End IngestWitnesses.

(* ================================================================== *)
(** ** The shape of a crawl run *)
(* ================================================================== *)

Section CrawlShapeLemmas.
Import PyStr PyDate GetLinksFinal Observe CrawlShape.
Variable driver : string → nat → option string.

Lemma succeeded_pages_app a b :
  succeeded_pages (a ++ b) = succeeded_pages a ++ succeeded_pages b.
Proof. apply omap_app. Qed.

Lemma quits_app a b : quits (a ++ b) = (quits a + quits b)%nat.
Proof. unfold quits. by rewrite filter_app, length_app. Qed.

Lemma succeeded_pages_LogWrite (l : list string) : succeeded_pages (LogWrite <$> l) = [].
Proof. induction l; simpl; done. Qed.

Lemma quits_LogWrite (l : list string) : quits (LogWrite <$> l) = 0%nat.
Proof. induction l; simpl; done. Qed.

(** The links returned are the lines written, and these are the links
    discovered that the set of known links did not hold, each once. *)
Lemma page_loop_links fuel sd ed p n E all fs x links fs' evs :
  page_loop driver fuel sd ed p n E all fs = (x, links, fs', evs) →
  links = all ++ log_writes evs
  ∧ log_writes evs = fromkeys_from E (discovered evs).
Proof.
  revert p n E all fs x links fs' evs.
  induction fuel as [|fuel IH]; intros p n E all fs x links fs' evs Hrun.
  { simpl in Hrun. simplify_eq. simpl. by rewrite app_nil_r. }
  rewrite page_loop_S in Hrun.
  destruct (retry_loop driver MAX_RETRIES 0 p (construct_url p sd ed) n)
    as [[r n'] evs0] eqn:Hr.
  apply retry_loop_events in Hr as (Hlw & _ & _ & _ & _ & Hdisc & _).
  destruct r as [[|t toks]|]; simplify_eq.
  - rewrite Hdisc, Hlw. simpl. by rewrite app_nil_r.
  - cbv zeta in Hrun.
    rewrite written_fromkeys, new_patents_fromkeys in Hrun.
    remember (patent_link <$> t :: toks) as links0 eqn:Hl0. clear Hl0.
    destruct (page_loop _ _ _ _ _ _ _ _ _) as [[[x1 l1] fs1] evs1] eqn:Hrec in Hrun.
    simplify_eq.
    apply IH in Hrec as [Hlinks Hwrites].
    rewrite !discovered_app, !log_writes_app, discovered_LogWrite, log_writes_LogWrite.
    rewrite Hlw, Hlinks.
    change (discovered (?a :: ?b :: evs1)) with (discovered evs1).
    change (log_writes (?a :: ?b :: evs1)) with (log_writes evs1).
    rewrite Hwrites.
    rewrite fromkeys_from_app, list_to_set_fromkeys_from, <- app_assoc. done.
  - rewrite Hdisc, Hlw. simpl. by rewrite app_nil_r.
Qed.

Lemma retry_loop_shape p url n r n' evs :
  retry_loop driver MAX_RETRIES 0 p url n = (r, n', evs) →
  succeeded_pages evs = match r with Page _ => [p] | Raised => [] end
  ∧ quits evs = 0%nat.
Proof.
  intros Hr.
  destruct (retry_loop_cases driver p url n)
    as [(h & _ & E)|[(h & _ & _ & E)|[(h & _ & _ & _ & E)|(_ & _ & _ & E)]]];
    rewrite E in Hr; by simplify_eq.
Qed.

Lemma seqZ_snoc (m : Z) (k : nat) : seqZ m (Z.of_nat (S k)) = seqZ m (Z.of_nat k) ++ [m + Z.of_nat k].
Proof.
  replace (Z.of_nat (S k)) with (Z.of_nat k + 1) by lia.
  rewrite seqZ_app by lia. done.
Qed.

(** The pages that answer are consecutive from the first one, and the
    checkpoints written are those of the pages that showed tokens. *)
Lemma page_loop_shape fuel sd ed p n E all fs x links fs' evs :
  page_loop driver fuel sd ed p n E all fs = (x, links, fs', evs) →
  state_writes evs = seqZ p (Z.of_nat (length (state_writes evs)))
  ∧ succeeded_pages evs
    = state_writes evs
      ++ match x with
         | WindowDone => [p + Z.of_nat (length (state_writes evs))]
         | _ => []
         end
  ∧ quits evs = 0%nat
  ∧ state_file fs' = match last (state_writes evs) with
                     | Some q => Some (save_scraping_state sd q)
                     | None => state_file fs
                     end.
Proof.
  revert p n E all fs x links fs' evs.
  induction fuel as [|fuel IH]; intros p n E all fs x links fs' evs Hrun.
  { simpl in Hrun. by simplify_eq. }
  rewrite page_loop_S in Hrun.
  destruct (retry_loop driver MAX_RETRIES 0 p (construct_url p sd ed) n)
    as [[r n'] evs0] eqn:Hr.
  pose proof (retry_loop_shape _ _ _ _ _ _ Hr) as (Hsucc & Hq).
  apply retry_loop_events in Hr as (_ & Hsw & _).
  destruct r as [[|t toks]|]; simplify_eq.
  - rewrite Hsw, Hsucc. split_and!; try done. simpl. by rewrite Z.add_0_r.
  - cbv zeta in Hrun.
    destruct (page_loop _ _ _ _ _ _ _ _ _) as [[[x1 l1] fs1] evs1] eqn:Hrec in Hrun.
    simplify_eq.
    apply IH in Hrec as (IHsw & IHsucc & IHq & IHst).
    rewrite !state_writes_app, !succeeded_pages_app, !quits_app.
    rewrite state_writes_LogWrite, succeeded_pages_LogWrite, quits_LogWrite, Hsw, Hsucc, Hq.
    change (state_writes [StateWrite p ?c; ?b]) with [p].
    change (succeeded_pages [StateWrite p ?c; ?b]) with (@nil Z).
    change (quits [StateWrite p ?c; ?b]) with 0%nat.
    cbn [app length Nat.add].
    split_and!.
    + rewrite IHsw at 1. rewrite Nat2Z.inj_succ, <- Z.add_1_r.
      rewrite (seqZ_cons p) by lia. f_equal. f_equal; lia.
    + rewrite IHsucc. cbn [app]. f_equal. f_equal.
      destruct x; try done. f_equal. lia.
    + by rewrite IHq.
    + rewrite IHst, last_cons. cbn [state_file]. by destruct (last (state_writes evs1)).
  - rewrite Hsw, Hsucc. by split_and!.
Qed.

End CrawlShapeLemmas.

Section CrawlShapeTheorems.
Import PyStr PyDate GetLinksFinal Observe CrawlShape.

(** X1. The log is only ever appended to: the log after a run is the
    log before it followed by the links the run returns, which are the
    lines it wrote; no link is returned twice, and none that the log
    held, whitespace around its lines apart, when the run began. *)
Theorem crawl_log_append_only driver fuel now fs :
  let r := getLinks driver fuel now fs in
  patents_file (files_after r) = patents_file fs ++ all_patent_links r
  ∧ all_patent_links r = log_writes (trace r)
  ∧ NoDup (all_patent_links r)
  ∧ ∀ link, link ∈ all_patent_links r →
      (link ∉ load_existing_patents fs) ∧ (link ∈ discovered (trace r)).
Proof.
  cbv zeta. rewrite getLinks_unfold. cbv zeta.
  destruct (load_scraping_state (state_file fs)) as [[last_date page_num]|e].
  2: { cbn [files_after all_patent_links trace]. rewrite app_nil_r.
       split_and!; [done|done|constructor|]. by intros ? ?%elem_of_nil. }
  destruct (page_loop _ _ _ _ _ _ _ _ _) as [[[x links] fs'] evs] eqn:Hrun.
  cbn [files_after all_patent_links trace].
  pose proof (page_loop_links _ _ _ _ _ _ _ _ _ _ _ _ _ Hrun) as (Hlinks & Hlog).
  pose proof (page_loop_retries _ _ _ _ _ _ _ _ _ _ _ _ _ Hrun) as (_ & _ & Hfile & _).
  cbn [app] in Hlinks. subst links.
  change (log_writes (DriverNew :: ?t)) with (log_writes t).
  change (discovered (DriverNew :: ?t)) with (discovered t).
  rewrite log_writes_end, discovered_end.
  split_and!; [done|done| |].
  - rewrite Hlog. apply NoDup_fromkeys_from.
  - intros link. rewrite Hlog, elem_of_fromkeys_from. by intros [? ?].
Qed.

Lemma state_writes_trace evs x :
  state_writes (DriverNew :: evs ++ match x with Running => [] | _ => [DriverQuit] end)
  = state_writes evs.
Proof. change (state_writes (DriverNew :: ?t)) with (state_writes t). apply state_writes_end. Qed.

Lemma succeeded_pages_trace evs x :
  succeeded_pages (DriverNew :: evs ++ match x with Running => [] | _ => [DriverQuit] end)
  = succeeded_pages evs.
Proof.
  change (succeeded_pages (DriverNew :: ?t)) with (succeeded_pages t).
  rewrite succeeded_pages_app. destruct x; simpl; by rewrite app_nil_r.
Qed.

(** X2. In a run that gets past the checkpoint loader, the pages that
    answer are consecutive from the first page of the run, each once;
    the checkpoints written are those of the pages that showed tokens,
    in order, and when the run ends on an empty page that page follows
    the last checkpoint.  The checkpoint file ends as the checkpoint of
    the last such page, or as it was when there is none. *)
Theorem crawl_pages_consecutive driver fuel now fs p0 :
  let r := getLinks driver fuel now fs in
  let done := state_writes (trace r) in
  first_page now fs = Ok p0 →
  done = seqZ p0 (Z.of_nat (length done))
  ∧ succeeded_pages (trace r)
    = done ++ match outcome r with
              | Ok WindowDone => [p0 + Z.of_nat (length done)]
              | _ => []
              end
  ∧ state_file (files_after r)
    = match last done with
      | Some q => Some (save_scraping_state (get_date_range now).1 q)
      | None => state_file fs
      end.
Proof.
  cbv zeta. unfold first_page. rewrite getLinks_unfold. cbv zeta.
  destruct (load_scraping_state (state_file fs)) as [[last_date page_num]|e]; [|done].
  intros [= <-].
  destruct (page_loop _ _ _ _ _ _ _ _ _) as [[[x links] fs'] evs] eqn:Hrun.
  cbn [files_after outcome trace].
  rewrite state_writes_trace, succeeded_pages_trace.
  apply page_loop_shape in Hrun as (Hsw & Hsucc & _ & Hst).
  split_and!; [exact Hsw| |exact Hst].
  rewrite Hsucc. by destruct x.
Qed.

(** X3. The browser session is created once in every run.  A run that
    ends on an empty page or gives the window up closes it once, as its
    last action; a run that the checkpoint loader ends never closes
    it. *)
Theorem browser_closed_once driver fuel now fs :
  let r := getLinks driver fuel now fs in
  sessions (trace r) = 1%nat
  ∧ quits (trace r) = match outcome r with
                      | Ok WindowDone | Ok Failed => 1%nat
                      | _ => 0%nat
                      end
  ∧ (quits (trace r) = 1%nat → last (trace r) = Some DriverQuit).
Proof.
  cbv zeta. rewrite getLinks_unfold. cbv zeta.
  destruct (load_scraping_state (state_file fs)) as [[last_date page_num]|e]; [|done].
  destruct (page_loop _ _ _ _ _ _ _ _ _) as [[[x links] fs'] evs] eqn:Hrun.
  cbn [outcome trace].
  pose proof (page_loop_retries _ _ _ _ _ _ _ _ _ _ _ _ _ Hrun) as (_ & Hse & _).
  apply page_loop_shape in Hrun as (_ & _ & Hq & _).
  change (sessions (DriverNew :: ?t)) with (S (sessions t)).
  change (quits (DriverNew :: ?t)) with (quits t).
  rewrite sessions_app, quits_app, Hse, Hq.
  destruct x; cbn [Nat.add]; split_and!; try done.
  all: intros _; change (DriverNew :: ?a ++ ?b) with ((DriverNew :: a) ++ b);
       by rewrite last_snoc.
Qed.

End CrawlShapeTheorems.

(* ================================================================== *)
(** ** Decimal numerals *)
(* ================================================================== *)

Section Decimals.
Import PyStr.

Lemma digits_value_of_uint_acc d acc :
  digits_value (Zpos acc) (NilEmpty.string_of_uint d) = Zpos (Pos.of_uint_acc d acc).
Proof.
  revert acc. induction d as [|d IH|d IH|d IH|d IH|d IH|d IH|d IH|d IH|d IH|d IH];
    intros acc; [done|..];
    cbn [NilEmpty.string_of_uint digits_value Pos.of_uint_acc]; rewrite <- IH; f_equal;
    vm_compute (Z.of_N (code _)); lia.
Qed.

Lemma digits_value_of_uint d :
  digits_value 0 (NilEmpty.string_of_uint d) = Z.of_N (Pos.of_uint d).
Proof.
  induction d as [|d IH|d IH|d IH|d IH|d IH|d IH|d IH|d IH|d IH|d IH]; [done|exact IH|..];
    cbn [NilEmpty.string_of_uint digits_value Pos.of_uint];
    vm_compute (10 * 0 + (Z.of_N (code _) - 48)); apply digits_value_of_uint_acc.
Qed.

Lemma string_of_uint_digits d : all_chars isdigit (NilEmpty.string_of_uint d) = true.
Proof. induction d; done. Qed.

(** On a string of digits [int()] is the value of the digits. *)
Lemma int_body_digits (s : string) acc b :
  all_chars isdigit s = true → (s ≠ EmptyString ∨ b = true) →
  int_body acc b s = Some (digits_value acc s).
Proof.
  revert acc b. induction s as [|c s IH]; intros acc b Hd Hne.
  { destruct Hne as [?| ->]; done. }
  cbn [all_chars] in Hd. apply andb_true_iff in Hd as [Hc Hs].
  cbn [int_body digits_value]. rewrite Hc. apply IH; [done|by right].
Qed.

Lemma lstrip_no_space c (s : string) : isspace c = false → lstrip (String c s) = String c s.
Proof. intros H. simpl. by rewrite H. Qed.

Lemma int_space_is_space c : isspace_int c = true → isspace c = true.
Proof.
  unfold isspace_int, isspace, between. generalize (code c). intros n.
  rewrite !orb_true_iff, !andb_true_iff, !N.leb_le. lia.
Qed.

Lemma rskip_none p (s : string) :
  all_chars (λ c, negb (p c)) s = true → rskip p s = s.
Proof.
  induction s as [|c s IH]; simpl; [done|].
  rewrite andb_true_iff, negb_true_iff. intros [Hc Hs].
  rewrite (IH Hs), Hc. by destruct s.
Qed.

(** [int()] skips nothing of a text that [str.strip] leaves whole. *)
Lemma int_skip_plain c (s : string) :
  all_chars (λ c, negb (isspace c)) (String c s) = true →
  rskip isspace_int (lskip isspace_int (String c s)) = String c s.
Proof.
  intros Hns.
  assert (all_chars (λ c, negb (isspace_int c)) (String c s) = true) as Hni.
  { eapply all_chars_impl; [|exact Hns]. intros a Ha%negb_true_iff.
    apply negb_true_iff. destruct (isspace_int a) eqn:Hi; [|done].
    apply int_space_is_space in Hi. congruence. }
  pose proof Hni as Hc. cbn [all_chars] in Hc. apply andb_true_iff in Hc as [Hc _].
  apply negb_true_iff in Hc. cbn [lskip]. rewrite Hc. by apply rskip_none.
Qed.

Lemma strip_digits (s : string) : all_chars isdigit s = true → strip s = s.
Proof.
  intros Hd. unfold strip.
  assert (all_chars (λ c, negb (isspace c)) s = true) as Hns.
  { eapply all_chars_impl; [|done]. apply digit_not_space. }
  destruct s as [|c s]; [done|].
  rewrite lstrip_no_space.
  - by apply rstrip_no_space.
  - cbn [all_chars] in Hns. apply andb_true_iff in Hns as [Hc _].
    by apply negb_true_iff.
Qed.

End Decimals.

Section Numerals.
Import PyStr.

Lemma string_of_uint_nonempty d : d ≠ Decimal.Nil → NilEmpty.string_of_uint d ≠ EmptyString.
Proof. by destruct d. Qed.

Lemma NilZero_string_of_uint d :
  d ≠ Decimal.Nil → NilZero.string_of_uint d = NilEmpty.string_of_uint d.
Proof. by destruct d. Qed.

Lemma py_int_digits (s : string) :
  all_chars isdigit s = true → s ≠ EmptyString → py_int s = Some (digits_value 0 s).
Proof.
  intros Hd Hne. unfold py_int.
  destruct s as [|c s]; [done|].
  rewrite int_skip_plain by (eapply all_chars_impl; [|done]; apply digit_not_space).
  pose proof Hd as Hd'. cbn [all_chars] in Hd'. apply andb_true_iff in Hd' as [Hc _].
  rewrite <- (int_body_digits (String c s) 0 false Hd (or_introl Hne)).
  destruct c as [[] [] [] [] [] [] [] []]; first [done | by vm_compute in Hc].
Qed.

Lemma py_str_pos p : py_str (Zpos p) = NilEmpty.string_of_uint (Pos.to_uint p).
Proof.
  unfold py_str. cbn [Z.to_int NilZero.string_of_int].
  apply NilZero_string_of_uint, DecimalPos.Unsigned.to_uint_nonnil.
Qed.

Lemma py_str_neg p :
  py_str (Zneg p) = String "-" (NilEmpty.string_of_uint (Pos.to_uint p)).
Proof.
  unfold py_str. cbn [Z.to_int NilZero.string_of_int]. f_equal.
  apply NilZero_string_of_uint, DecimalPos.Unsigned.to_uint_nonnil.
Qed.

Lemma digits_value_to_uint p :
  digits_value 0 (NilEmpty.string_of_uint (Pos.to_uint p)) = Zpos p.
Proof. by rewrite digits_value_of_uint, DecimalPos.Unsigned.of_to. Qed.

(** The numeral of a number that is not negative: digits, at least one,
    with the number as their value. *)
Lemma py_str_digits n :
  0 ≤ n →
  all_chars isdigit (py_str n) = true ∧ py_str n ≠ EmptyString
  ∧ digits_value 0 (py_str n) = n.
Proof.
  intros Hn. destruct n as [|p|p]; [done| |lia].
  rewrite py_str_pos. split_and!.
  - apply string_of_uint_digits.
  - apply string_of_uint_nonempty, DecimalPos.Unsigned.to_uint_nonnil.
  - apply digits_value_to_uint.
Qed.

(** [int(str(n))] is [n]. *)
Lemma py_int_py_str n : py_int (py_str n) = Some n.
Proof.
  destruct n as [|p|p].
  - done.
  - destruct (py_str_digits (Zpos p)) as (Hd & Hne & Hv); [done|].
    by rewrite py_int_digits, Hv.
  - rewrite py_str_neg. unfold py_int.
    set (s := NilEmpty.string_of_uint (Pos.to_uint p)).
    assert (all_chars isdigit s = true) as Hd by apply string_of_uint_digits.
    assert (s ≠ EmptyString) as Hne
      by apply string_of_uint_nonempty, DecimalPos.Unsigned.to_uint_nonnil.
    rewrite int_skip_plain.
    2:{ cbn [all_chars]. apply andb_true_iff. split; [done|].
        eapply all_chars_impl; [|done]. apply digit_not_space. }
    rewrite int_body_digits by (done || by left).
    unfold s. by rewrite digits_value_to_uint.
Qed.

End Numerals.

(* ================================================================== *)
(** ** The calendar *)
(* ================================================================== *)

Section Calendar.
Import PyStr PyDate.

Ltac euclid := Z.to_euclidean_division_equations; lia.

(** The part of [civil_from_days] inside one era of 400 years. *)
Lemma civil_from_days_era z :
  let era := (z + 719468) / 146097 in
  let doe := (z + 719468) mod 146097 in
  let yoe := (doe - doe / 1460 + doe / 36524 - doe / 146096) / 365 in
  let doy := doe - (365 * yoe + yoe / 4 - yoe / 100) in
  let mp := (5 * doy + 2) / 153 in
  let d := doy - (153 * mp + 2) / 5 + 1 in
  let m := if mp <? 10 then mp + 3 else mp - 9 in
  civil_from_days z = (if m <=? 2 then yoe + era * 400 + 1 else yoe + era * 400, m, d).
Proof.
  cbv zeta. unfold civil_from_days. cbv zeta.
  replace (z + 719468 - (z + 719468) / 146097 * 146097) with ((z + 719468) mod 146097)
    by (rewrite Z.mod_eq by lia; lia).
  done.
Qed.

(** The year of the era and the day of that year, for a day of the era. *)
Lemma era_day_bounds doe :
  0 ≤ doe < 146097 →
  let yoe := (doe - doe / 1460 + doe / 36524 - doe / 146096) / 365 in
  let doy := doe - (365 * yoe + yoe / 4 - yoe / 100) in
  0 ≤ yoe < 400 ∧ 0 ≤ doy ≤ 365
  ∧ (doy = 365 →
     (yoe + 1) mod 4 = 0 ∧ ((yoe + 1) mod 100 ≠ 0 ∨ (yoe + 1) mod 400 = 0)).
Proof. intros H. cbv zeta. split_and!; euclid. Qed.

Lemma is_leap_era y era : is_leap (y + era * 400) = is_leap y.
Proof.
  unfold is_leap.
  replace ((y + era * 400) mod 4) with (y mod 4)
    by (replace (y + era * 400) with (y + (era * 100) * 4) by lia;
        by rewrite Z.mod_add).
  replace ((y + era * 400) mod 100) with (y mod 100)
    by (replace (y + era * 400) with (y + (era * 4) * 100) by lia;
        by rewrite Z.mod_add).
  by rewrite Z.mod_add.
Qed.

Lemma is_leap_true y :
  y mod 4 = 0 → (y mod 100 ≠ 0 ∨ y mod 400 = 0) → is_leap y = true.
Proof.
  intros H4 H. unfold is_leap. rewrite H4. cbn [Z.eqb andb].
  destruct H as [H|H]; [|rewrite H; apply orb_true_r].
  by apply Z.eqb_neq in H as ->.
Qed.

(** The month and the day of a day of the year that begins in March. *)
Lemma month_day_bounds doy (leap : bool) :
  0 ≤ doy ≤ 365 → (doy = 365 → leap = true) →
  let mp := (5 * doy + 2) / 153 in
  let d := doy - (153 * mp + 2) / 5 + 1 in
  let m := if mp <? 10 then mp + 3 else mp - 9 in
  1 ≤ m ≤ 12 ∧ 1 ≤ d
  ∧ d ≤ (if m =? 2 then (if leap then 29 else 28)
         else if (m =? 4) || (m =? 6) || (m =? 9) || (m =? 11) then 30 else 31)
  ∧ (153 * (if 2 <? m then m - 3 else m + 9) + 2) / 5 + d - 1 = doy.
Proof.
  intros Hdoy Hleap. cbv zeta.
  set (mp := (5 * doy + 2) / 153).
  assert (0 ≤ mp ≤ 11) as Hmp by (unfold mp; euclid).
  assert (153 * mp ≤ 5 * doy + 2 < 153 * mp + 153) as Hdiv by (unfold mp; euclid).
  clearbody mp.
  assert (mp = 0 ∨ mp = 1 ∨ mp = 2 ∨ mp = 3 ∨ mp = 4 ∨ mp = 5 ∨ mp = 6 ∨ mp = 7
          ∨ mp = 8 ∨ mp = 9 ∨ mp = 10 ∨ mp = 11) as Hcases by lia.
  assert (doy ≤ 364 ∨ leap = true) as Hlast
    by (destruct (decide (doy = 365)) as [H|H]; [right; by apply Hleap|left; lia]).
  clear Hleap.
  repeat (destruct Hcases as [->|Hcases]); [..|subst mp]; simpl.
  all: split_and!; try lia; try euclid.
  destruct Hlast as [?| ->]; [destruct leap|]; euclid.
Qed.

(** The civil date of a day number is a date of the calendar, and it has
    that day number. *)
Lemma civil_from_days_spec z :
  let '(y, m, d) := civil_from_days z in
  1 ≤ m ≤ 12 ∧ 1 ≤ d ≤ days_in_month y m ∧ days_from_civil y m d = z.
Proof.
  rewrite civil_from_days_era. cbv zeta.
  set (era := (z + 719468) / 146097).
  set (doe := (z + 719468) mod 146097).
  assert (0 ≤ doe < 146097) as Hdoe by (apply Z.mod_pos_bound; lia).
  assert (z = era * 146097 + doe - 719468) as Hz.
  { unfold era, doe. rewrite Z.mod_eq by lia. lia. }
  pose proof (era_day_bounds doe Hdoe) as (Hyoe & Hdoy & Hleap). cbv zeta in Hleap.
  set (yoe := (doe - doe / 1460 + doe / 36524 - doe / 146096) / 365) in *.
  assert (doe = yoe * 365 + yoe / 4 - yoe / 100
                + (doe - (365 * yoe + yoe / 4 - yoe / 100))) as Hdoe' by lia.
  set (doy := doe - (365 * yoe + yoe / 4 - yoe / 100)) in *.
  assert (doy = 365 → is_leap (yoe + 1) = true) as Hleap'.
  { intros H. destruct (Hleap H). by apply is_leap_true. }
  pose proof (month_day_bounds doy (is_leap (yoe + 1)) Hdoy Hleap') as Hmd.
  cbv zeta in Hmd.
  set (mp := (5 * doy + 2) / 153) in *.
  set (d := doy - (153 * mp + 2) / 5 + 1) in *.
  set (m := if mp <? 10 then mp + 3 else mp - 9) in *.
  destruct Hmd as (Hm & Hd & Hdim & Hback).
  clearbody m d doy yoe. clear mp.
  split_and!; try lia.
  - unfold days_in_month. destruct (m =? 2) eqn:Hm2; [|exact Hdim].
    apply Z.eqb_eq in Hm2. subst m. cbn [Z.leb Z.compare Pos.compare Pos.compare_cont].
    replace (yoe + era * 400 + 1) with (yoe + 1 + era * 400) by lia.
    by rewrite is_leap_era.
  - unfold days_from_civil. cbv zeta.
    replace (if m <=? 2
             then (if m <=? 2 then yoe + era * 400 + 1 else yoe + era * 400) - 1
             else if m <=? 2 then yoe + era * 400 + 1 else yoe + era * 400)
      with (yoe + era * 400) by (destruct (m <=? 2); lia).
    assert ((yoe + era * 400) / 400 = era) as ->.
    { rewrite Z.div_add by lia. rewrite Z.div_small by lia. lia. }
    replace (yoe + era * 400 - era * 400) with yoe by lia.
    lia.
Qed.

End Calendar.

(* ================================================================== *)
(** ** Dates written and read back *)
(* ================================================================== *)

Section DateText.
Import PyStr PyDate.

(** A check that holds up to [n], one number after the other. *)
Lemma range_check (P : Z → bool) (n : N) :
  N.recursion true (λ i acc, acc && P (Z.of_N i)) n = true →
  ∀ z, 0 ≤ z < Z.of_N n → P z = true.
Proof.
  induction n as [|n IH] using N.peano_ind; intros Hall z Hz; [lia|].
  rewrite N.recursion_succ in Hall; [|done|solve_proper].
  apply andb_true_iff in Hall as [Hall Hn].
  destruct (decide (z = Z.of_N n)) as [->|Hne]; [done|].
  apply IH; [done|lia].
Qed.

(** The numerals below 10000 have at most four digits, those from 1000
    on four, those below 100 at most two. *)
Lemma numeral_lengths_checked :
  N.recursion true
    (λ i acc, acc && (λ n,
       let len := String.length (py_str n) in
       (len <=? 4)%nat && ((n <? 1000) || (4 <=? len)%nat)
       && ((100 <=? n) || (len <=? 2)%nat)) (Z.of_N i)) 10000 = true.
Proof. vm_compute. reflexivity. Qed.

Lemma numeral_length n :
  0 ≤ n < 10000 →
  (String.length (py_str n) ≤ 4)%nat
  ∧ (1000 ≤ n → String.length (py_str n) = 4%nat)
  ∧ (n < 100 → (String.length (py_str n) ≤ 2)%nat).
Proof.
  intros Hn. pose proof (range_check _ _ numeral_lengths_checked n) as Hck.
  cbv beta zeta in Hck. specialize (Hck ltac:(lia)).
  apply andb_true_iff in Hck as [Hck H2]. apply andb_true_iff in Hck as [H4 H1000].
  apply Nat.leb_le in H4. split_and!; [done| |].
  - intros Hge. apply orb_true_iff in H1000 as [H|H]; [apply Z.ltb_lt in H; lia|].
    apply Nat.leb_le in H. lia.
  - intros Hlt. apply orb_true_iff in H2 as [H|H]; [apply Z.leb_le in H; lia|].
    by apply Nat.leb_le in H.
Qed.

Lemma all_chars_zeros k : all_chars isdigit (zeros k) = true.
Proof. induction k; done. Qed.

Lemma digits_value_zeros k (s : string) : digits_value 0 (zeros k +:+ s) = digits_value 0 s.
Proof. induction k; done. Qed.

Lemma length_zeros k : String.length (zeros k) = k.
Proof. induction k; simpl; congruence. Qed.

(** A padded numeral: digits, with the number as their value. *)
Lemma pad_digits w n :
  0 ≤ n →
  all_chars isdigit (pad w n) = true ∧ digits_value 0 (pad w n) = n
  ∧ String.length (pad w n) = (w `max` String.length (py_str n))%nat.
Proof.
  intros Hn. destruct (py_str_digits n Hn) as (Hd & _ & Hv). unfold pad. split_and!.
  - by rewrite all_chars_app, all_chars_zeros, Hd.
  - by rewrite digits_value_zeros.
  - rewrite length_append, length_zeros. lia.
Qed.

Lemma split_no_sep sep (s : string) :
  all_chars (λ c, negb (bool_decide (c = sep))) s = true → split sep s = [s].
Proof.
  induction s as [|c s IH]; [done|]. cbn [all_chars]. intros [Hc Hs]%andb_true_iff.
  cbn [split]. apply negb_true_iff, bool_decide_eq_false in Hc.
  rewrite decide_False by done. by rewrite IH.
Qed.

Lemma split_app_sep sep (a b : string) :
  all_chars (λ c, negb (bool_decide (c = sep))) a = true →
  split sep (a +:+ String sep b) = a :: split sep b.
Proof.
  induction a as [|c a IH]; intros Ha.
  - change (EmptyString +:+ String sep b) with (String sep b). cbn [split].
    by rewrite decide_True.
  - cbn [all_chars] in Ha. apply andb_true_iff in Ha as [Hc Ha].
    apply negb_true_iff, bool_decide_eq_false in Hc.
    rewrite append_cons. cbn [split]. rewrite decide_False by done. by rewrite IH.
Qed.

Lemma char_append c (s : string) : String c EmptyString +:+ s = String c s.
Proof. done. Qed.

Lemma digit_not_dash c : isdigit c = true → negb (bool_decide (c = "-"%char)) = true.
Proof.
  intros H. apply negb_true_iff, bool_decide_eq_false. intros ->. by vm_compute in H.
Qed.

Lemma digit_not_comma c : isdigit c = true → negb (bool_decide (c = ","%char)) = true.
Proof.
  intros H. apply negb_true_iff, bool_decide_eq_false. intros ->. by vm_compute in H.
Qed.

Lemma lstrip_digits (s : string) : all_chars isdigit s = true → lstrip s = s.
Proof.
  destruct s as [|c s]; [done|]. cbn [all_chars]. intros [Hc _]%andb_true_iff.
  apply lstrip_no_space. apply digit_not_space in Hc. by apply negb_true_iff.
Qed.

(** [strptime] reads back the date that [strftime] wrote, as the
    midnight of that day, when the year has four digits. *)
Lemma strptime_strftime (dt : datetime) :
  1000 ≤ (civil_from_days (day_of dt)).1.1 ≤ 9999 →
  strptime_ymd (strftime "-" dt) = Some (midnight (day_of dt)).
Proof.
  unfold strftime.
  pose proof (civil_from_days_spec (day_of dt)) as Hspec.
  destruct (civil_from_days (day_of dt)) as [[y m] d]. cbn [fst].
  destruct Hspec as (Hm & Hd & Hback). intros Hy.
  assert (d ≤ 31) as Hd31.
  { destruct Hd as [_ Hd]. unfold days_in_month in Hd.
    repeat case_match; lia. }
  destruct (pad_digits 4 y ltac:(lia)) as (Hyd & Hyv & Hyl).
  destruct (pad_digits 2 m ltac:(lia)) as (Hmd & Hmv & Hml).
  destruct (pad_digits 2 d ltac:(lia)) as (Hdd & Hdv & Hdl).
  destruct (numeral_length y ltac:(lia)) as (_ & Hy4 & _).
  destruct (numeral_length m ltac:(lia)) as (_ & _ & Hm2).
  destruct (numeral_length d ltac:(lia)) as (_ & _ & Hd2).
  specialize (Hy4 ltac:(lia)). specialize (Hm2 ltac:(lia)). specialize (Hd2 ltac:(lia)).
  unfold strptime_ymd.
  rewrite !char_append.
  assert (∀ s : string, all_chars isdigit s = true →
            all_chars (λ c, negb (bool_decide (c = "-"%char))) s = true) as Hnd.
  { intros s. apply all_chars_impl, digit_not_dash. }
  rewrite (split_app_sep "-" (pad 4 y)) by auto.
  rewrite (split_app_sep "-" (pad 2 m)) by auto.
  rewrite (split_no_sep "-" (pad 2 d)) by auto.
  assert (year_field (pad 4 y) = true) as ->.
  { unfold year_field. rewrite Hyd. cbn [andb]. apply bool_decide_eq_true. lia. }
  assert (month_field (pad 2 m) = true) as ->.
  { unfold month_field, short_number. rewrite Hmd, Hmv. cbn [andb].
    rewrite bool_decide_eq_true_2 by lia. cbn [andb].
    apply andb_true_iff. split; lia. }
  assert (day_field (pad 2 d) = true) as ->.
  { unfold day_field, short_number. rewrite Hdd, Hdv. cbn [andb].
    rewrite bool_decide_eq_true_2 by lia. cbn [andb].
    apply orb_true_iff. left. apply andb_true_iff. split; lia. }
  cbn [andb]. rewrite lstrip_digits by done. rewrite Hyv, Hmv, Hdv.
  assert ((1 <=? y) && (d <=? days_in_month y m) = true) as ->.
  { apply andb_true_iff. split; lia. }
  by rewrite Hback.
Qed.

End DateText.

(* ================================================================== *)
(** ** The checkpoint file written and read back *)
(* ================================================================== *)

Section CheckpointRoundTrip.
Import PyStr PyDate GetLinksFinal Observe CrawlShape.

(** The characters of a date and of a numeral: digits and the dash. *)
Lemma strftime_chars (dt : datetime) :
  0 ≤ year dt →
  all_chars (λ c, isdigit c || bool_decide (c = "-"%char)) (strftime "-" dt) = true.
Proof.
  unfold year, strftime.
  pose proof (civil_from_days_spec (day_of dt)) as Hspec.
  destruct (civil_from_days (day_of dt)) as [[y m] d]. cbn [fst]. intros Hy.
  destruct Hspec as (Hm & Hd & _).
  destruct (pad_digits 4 y ltac:(lia)) as (Hyd & _).
  destruct (pad_digits 2 m ltac:(lia)) as (Hmd & _).
  destruct (pad_digits 2 d ltac:(lia)) as (Hdd & _).
  assert (∀ s : string, all_chars isdigit s = true →
            all_chars (λ c, isdigit c || bool_decide (c = "-"%char)) s = true) as Hw.
  { intros s. apply all_chars_impl. by intros c ->. }
  rewrite !all_chars_app. by rewrite (Hw _ Hyd), (Hw _ Hmd), (Hw _ Hdd).
Qed.

Lemma py_str_chars n :
  all_chars (λ c, isdigit c || bool_decide (c = "-"%char)) (py_str n) = true.
Proof.
  assert (∀ s : string, all_chars isdigit s = true →
            all_chars (λ c, isdigit c || bool_decide (c = "-"%char)) s = true) as Hw.
  { intros s. apply all_chars_impl. by intros c ->. }
  destruct n as [|p|p]; [done| |].
  - rewrite py_str_pos. apply Hw, string_of_uint_digits.
  - rewrite py_str_neg. cbn [all_chars]. apply Hw, string_of_uint_digits.
Qed.

Lemma strftime_nonempty (dt : datetime) : strftime "-" dt ≠ EmptyString.
Proof.
  unfold strftime. destruct (civil_from_days (day_of dt)) as [[y m] d].
  intros H. apply (f_equal String.length) in H.
  rewrite !length_append in H. cbn [String.length] in H. lia.
Qed.

(** A text of digits, dashes and commas that begins with one of them is
    left alone by [strip]. *)
Lemma strip_plain (s : string) :
  all_chars (λ c, negb (isspace c)) s = true → strip s = s.
Proof.
  intros Hs. unfold strip. destruct s as [|c s]; [done|].
  pose proof Hs as Hs'. cbn [all_chars] in Hs'. apply andb_true_iff in Hs' as [Hc _].
  rewrite lstrip_no_space by (by apply negb_true_iff). by apply rstrip_no_space.
Qed.

Lemma dash_digit_not_space c :
  isdigit c || bool_decide (c = "-"%char) = true → negb (isspace c) = true.
Proof.
  intros [H|H]%orb_true_iff; [by apply digit_not_space|].
  by apply bool_decide_eq_true in H as ->.
Qed.

Lemma dash_digit_not_comma c :
  isdigit c || bool_decide (c = "-"%char) = true → negb (bool_decide (c = ","%char)) = true.
Proof.
  intros [H|H]%orb_true_iff; [by apply digit_not_comma|].
  by apply bool_decide_eq_true in H as ->.
Qed.

(** Writing the checkpoint and reading it back. *)
Lemma saved_state_loads (date : datetime) (page_num : Z) :
  1000 ≤ year date ≤ 9999 →
  load_scraping_state (Some (save_scraping_state date page_num))
  = Ok (Some (midnight (day_of date)), page_num).
Proof.
  intros Hy. unfold load_scraping_state, save_scraping_state.
  pose proof (strftime_chars date ltac:(lia)) as Hd.
  pose proof (py_str_chars page_num) as Hp.
  rewrite char_append.
  rewrite strip_plain.
  2: { rewrite all_chars_app. cbn [all_chars].
       rewrite (all_chars_impl _ _ _ dash_digit_not_space Hd).
       by rewrite (all_chars_impl _ _ _ dash_digit_not_space Hp). }
  rewrite split_app_sep by (by apply (all_chars_impl _ _ _ dash_digit_not_comma)).
  rewrite split_no_sep by (by apply (all_chars_impl _ _ _ dash_digit_not_comma)).
  rewrite strptime_strftime by done.
  by rewrite py_int_py_str.
Qed.

(** X4. A checkpoint that [save_scraping_state] wrote is read back by
    [load_scraping_state] without an exception: the page number comes
    back as it was, and the date as the midnight of its day, the time
    of day being lost. *)
Theorem checkpoint_round_trip (date : datetime) (page_num : Z) :
  1000 ≤ year date ≤ 9999 →
  load_scraping_state (Some (save_scraping_state date page_num))
  = Ok (Some (midnight (day_of date)), page_num).
Proof.
  exact (saved_state_loads date page_num).
Qed.

(** X5. When the checkpoint of page [p] of the window planned at the
    clock reading [now] is on disk, a run started at the same reading
    takes it up and begins at page [p] exactly when the start of the
    window is a midnight; at every other time of day it begins at
    page 0. *)
Theorem checkpoint_taken_at_midnight_only now p lines :
  let start_date := (get_date_range now).1 in
  1000 ≤ year start_date ≤ 9999 →
  first_page now (Files lines (Some (save_scraping_state start_date p)))
  = Ok (if decide (start_date mod US_PER_DAY = 0) then p else 0).
Proof.
  cbv zeta. intros Hy. unfold first_page. cbn [state_file].
  rewrite saved_state_loads by done. f_equal.
  set (start_date := (get_date_range now).1).
  assert (start_date = midnight (day_of start_date) + start_date mod US_PER_DAY) as Hsplit.
  { unfold midnight, day_of, US_PER_DAY. rewrite Z.mod_eq by lia. lia. }
  destruct (decide (start_date mod US_PER_DAY = 0)) as [H0|H0].
  - rewrite decide_True; [done|]. f_equal. lia.
  - rewrite decide_False; [done|]. intros [= Heq]. lia.
Qed.

End CheckpointRoundTrip.

Section CheckpointClaim.
Import PyStr PyDate GetLinksFinal Observe CrawlShape.

(** C5. The checkpoint of a page is written only after the fetch of
    that page, with the links of the page in the log: each of them was
    known to the run from the log it loaded or has been appended before
    the write.  What is written for page [p] is the date of the start
    of the window, a comma and the numeral of [p], a text that
    [load_scraping_state] reads back as page [p].  For a window whose
    pages 0 and 1 show tokens and whose page 2 shows none, started at
    page 0, the checkpoints written are those of pages 0 and 1, the
    file ends as the checkpoint that records page 1, and the loop is
    left through [break]. *)
Theorem checkpoint_only_after_append driver fuel now fs :
  let r := getLinks driver fuel now fs in
  let start_date := (get_date_range now).1 in
  let end_date := (get_date_range now).2 in
  let checkpoint (p : Z) := strftime "-" start_date +:+ "," +:+ py_str p in
  let records (c : option string) (p : Z) :=
    1000 ≤ year start_date ≤ 9999 →
    ∃ text, c = Some text
            ∧ load_scraping_state (Some text)
              = Ok (Some (midnight (day_of start_date)), p) in
  (∀ pre post p c, trace r = pre ++ StateWrite p c :: post →
     c = checkpoint p
     ∧ records (Some c) p
     ∧ ∃ url html, DriverGet p url (Some html) ∈ pre ∧ findall_US html ≠ []
        ∧ ∀ tok, tok ∈ findall_US html →
            patent_link tok ∈ load_existing_patents fs
            ∨ patent_link tok ∈ log_writes pre)
  ∧ (∀ h0 h1 h2,
       first_page now fs = Ok 0 → (3 ≤ fuel)%nat →
       driver (construct_url 0 start_date end_date) 0%nat = Some h0 → findall_US h0 ≠ [] →
       driver (construct_url 1 start_date end_date) 1%nat = Some h1 → findall_US h1 ≠ [] →
       driver (construct_url 2 start_date end_date) 2%nat = Some h2 → findall_US h2 = [] →
       outcome r = Ok WindowDone
       ∧ state_writes (trace r) = [0; 1]
       ∧ state_file (files_after r) = Some (checkpoint 1)
       ∧ records (state_file (files_after r)) 1).
Proof.
  cbv zeta.
  assert (∀ p, 1000 ≤ year (get_date_range now).1 ≤ 9999 →
            ∃ text, Some (save_scraping_state (get_date_range now).1 p) = Some text
                    ∧ load_scraping_state (Some text)
                      = Ok (Some (midnight (day_of (get_date_range now).1)), p)) as Hrec.
  { intros p Hy. eexists. split; [done|]. by apply saved_state_loads. }
  revert Hrec.
  unfold first_page, get_date_range. cbn [fst snd].
  rewrite getLinks_unfold. cbv zeta.
  set (sd := now - timedelta_days 5 - timedelta_days 10).
  set (ed := now - timedelta_days 5).
  intros Hrec.
  destruct (load_scraping_state (state_file fs)) as [[last p0]|e].
  2:{ split; [|done]. intros pre post p c Heq. cbn [trace] in Heq.
      do 2 (destruct pre as [|? pre]; simplify_eq). }
  set (p1 := if decide (last = Some sd) then p0 else 0).
  split.
  - destruct (page_loop _ _ _ _ _ _ _ _ _) as [[[x links] fs'] evs] eqn:Hrun.
    cbn [trace]. intros pre post p c Heq.
    destruct pre as [|e pre]; [done|]. simpl in Heq. injection Heq as <- Heq.
    apply split_before in Heq as (post' & ->); [|apply no_state_write_end].
    destruct (page_loop_checkpoints _ _ _ _ _ _ _ _ _ _ _ _ _ Hrun _ _ _ _ eq_refl)
      as (Hc & url & html & Hin & Hne & Hlinks).
    split; [done|]. split; [rewrite Hc; apply Hrec|].
    exists url, html. split_and!; [by right|done|].
    intros tok Htok. destruct (Hlinks tok Htok); [by left|by right].
  - intros h0 h1 h2 [= Hp] Hfuel H0 Hne0 H1 Hne1 H2 He2.
    change (p1 = 0) in Hp. clearbody p1. subst p1.
    destruct fuel as [|[|[|fuel]]]; try lia.
    rewrite page_loop_S, (retry_loop_success _ _ _ _ _ H0).
    destruct (findall_US h0) as [|t0 ts0] eqn:Hf0; [done|]. cbv zeta.
    change (0 + 1) with 1.
    rewrite page_loop_S, (retry_loop_success _ _ _ _ _ H1).
    destruct (findall_US h1) as [|t1 ts1] eqn:Hf1; [done|]. cbv zeta.
    change (1 + 1) with 2.
    rewrite page_loop_S, (retry_loop_success _ _ _ _ _ H2), He2.
    cbn [outcome trace files_after state_file].
    split_and!; [done| |done|apply Hrec].
    change (state_writes (DriverNew :: ?l)) with (state_writes l).
    rewrite !state_writes_app, !state_writes_LogWrite. done.
Qed.

End CheckpointClaim.


(* ================================================================== *)
(** ** getlinks_1.py: chunks and progress *)
(* ================================================================== *)

Section Chunks.
Import PyStr PyDate GetLinksFinal GetLinks1 CrawlShape GetLinks1Run.

Lemma chunks_from_S fuel current end_ :
  chunks_from (S fuel) current end_
  = if current <? end_ then
      (current, Z.min (current + timedelta_days (CHUNK_DAYS - 1)) end_)
        :: chunks_from fuel
             (Z.min (current + timedelta_days (CHUNK_DAYS - 1)) end_ + timedelta_days 1) end_
    else [].
Proof. done. Qed.

(** The [i]-th chunk begins ten days times [i] after the first and ends
    nine days later, or at the end of the range when that comes first. *)
Lemma chunks_from_lookup fuel current end_ i s e :
  chunks_from fuel current end_ !! i = Some (s, e) →
  s = current + timedelta_days (CHUNK_DAYS * Z.of_nat i)
  ∧ e = Z.min (s + timedelta_days (CHUNK_DAYS - 1)) end_
  ∧ s < end_.
Proof.
  revert current i. induction fuel as [|fuel IH]; intros current i; [done|].
  rewrite chunks_from_S. destruct (current <? end_) eqn:Hlt; [|done].
  apply Z.ltb_lt in Hlt. destruct i as [|i].
  - intros [= <- <-]. unfold timedelta_days. split_and!; [lia|done|done].
  - cbn [lookup list_lookup]. intros Hi. pose proof Hi as Hi'.
    apply IH in Hi as (Hs & He & Hse).
    unfold timedelta_days, CHUNK_DAYS, US_PER_DAY in *.
    assert (current + 9 * 86400000000 < end_) by lia.
    rewrite Z.min_l in Hs by lia. split_and!; [lia|done|done].
Qed.

(** With a turn for every ten days of the range and one more, the loop
    is left through its guard: the last chunk ends less than a day
    before the end of the range, or at it. *)
Lemma chunks_from_last fuel current end_ :
  (end_ - current) / timedelta_days CHUNK_DAYS + 1 ≤ Z.of_nat fuel →
  current < end_ →
  ∃ s e, last (chunks_from fuel current end_) = Some (s, e)
         ∧ end_ - timedelta_days 1 ≤ e ≤ end_.
Proof.
  assert (timedelta_days CHUNK_DAYS = 864000000000) as H10 by done.
  assert (timedelta_days (CHUNK_DAYS - 1) = 777600000000) as H9 by done.
  assert (timedelta_days 1 = 86400000000) as H1 by done.
  rewrite H10, H1.
  revert current. induction fuel as [|fuel IH]; intros current Hfuel Hlt.
  { Z.to_euclidean_division_equations. lia. }
  rewrite chunks_from_S. rewrite (proj2 (Z.ltb_lt _ _) Hlt).
  set (chunk_end := Z.min (current + timedelta_days (CHUNK_DAYS - 1)) end_).
  assert (chunk_end = Z.min (current + 777600000000) end_) as Hce by (by rewrite <- H9).
  clearbody chunk_end.
  destruct (decide (chunk_end + timedelta_days 1 < end_)) as [Hnext|Hnext].
  - destruct (IH (chunk_end + timedelta_days 1)) as (s & e & Hs & He); [|done|].
    { rewrite H1 in *. Z.to_euclidean_division_equations. lia. }
    exists s, e. by rewrite last_cons, Hs.
  - exists current, chunk_end. split; [|rewrite H1 in *; lia].
    destruct fuel as [|fuel]; [done|].
    rewrite chunks_from_S. rewrite (proj2 (Z.ltb_ge _ _)) by lia. done.
Qed.

End Chunks.

Section ChunkTheorems.
Import PyStr PyDate GetLinksFinal GetLinks1 CrawlShape GetLinks1Run.

(** X6. The chunks of [get_date_chunks()] at the clock reading [now]:
    chunk [i] begins ten days times [i] after 1700-01-01 and ends nine
    days after its beginning, or at [now] when that comes first, and
    it begins before [now]; the last chunk ends at [now] or before it,
    by a day at most; there is no chunk when [now] is not after
    1700-01-01. *)
Theorem date_chunks_shape (now : datetime) :
  let chunks := get_date_chunks now in
  (∀ i s e, chunks !! i = Some (s, e) →
     s = jan1_1700 + timedelta_days (CHUNK_DAYS * Z.of_nat i)
     ∧ e = Z.min (s + timedelta_days (CHUNK_DAYS - 1)) now
     ∧ s < now)
  ∧ (jan1_1700 < now →
     ∃ s e, last chunks = Some (s, e) ∧ now - timedelta_days 1 ≤ e ≤ now)
  ∧ (now ≤ jan1_1700 → chunks = []).
Proof.
  cbv zeta. unfold get_date_chunks. split_and!.
  - intros i s e. apply chunks_from_lookup.
  - intros Hlt. apply chunks_from_last; [|done].
    assert (timedelta_days CHUNK_DAYS = 864000000000) as -> by done.
    rewrite Z2Nat.id; [lia|]. Z.to_euclidean_division_equations. lia.
  - intros Hle.
    destruct (Z.to_nat _) as [|fuel]; [done|].
    rewrite chunks_from_S. by rewrite (proj2 (Z.ltb_ge _ _)).
Qed.

(** X7. The progress file written and read back: the date comes back
    as the midnight of its day; without the file the date read is
    1900-01-01. *)
Theorem progress_round_trip (date : datetime) :
  1000 ≤ year date ≤ 9999 →
  load_progress (Some (save_progress date)) = Ok (midnight (day_of date))
  ∧ load_progress None = Ok (midnight (days_from_civil 1900 1 1)).
Proof.
  intros Hy. split; [|done]. unfold load_progress, save_progress.
  rewrite strip_plain.
  - by rewrite strptime_strftime.
  - apply (all_chars_impl _ _ _ dash_digit_not_space). apply strftime_chars. lia.
Qed.

End ChunkTheorems.

(* ================================================================== *)
(** ** getlinks_1.py: the main loop *)
(* ================================================================== *)

Section MainLoop.
Import PyStr PyDate GetLinksFinal GetLinks1 CrawlShape GetLinks1Run.
Variable driver : string → nat → option string.











End MainLoop.

Section MainLoopTheorems.
Import PyStr PyDate GetLinksFinal GetLinks1 CrawlShape GetLinks1Run.




End MainLoopTheorems.

(* ================================================================== *)
(** ** ipfs_handler.py: requests and their answers *)
(* ================================================================== *)

Section Requests.
Import PyStr Json World IpfsHandler Frames IpfsHandlerRest.
Variable cid : string → string.
Variable net : nat → reply.
Variable loads : string → option dict.


Lemma post_sent (r : request) (s : state) res s' :
  post cid net r s = (res, s') → sent s' = S (sent s).
Proof.
  destruct (post_cases cid net r s) as [(_ & E)|[(_ & E)|(_ & E)]];
    rewrite E; by intros [= _ <-].
Qed.

(** A request whose failures are passed over, as [try: post(...)
    except: pass] does. *)
Lemma post_ignored (r : request) (s : state) :
  ∃ s', try_except (bind (post cid net r) (λ _, ret tt)) (λ _, ret tt) s = (Ok tt, s')
        ∧ sent s' = S (sent s).
Proof.
  unfold try_except, bind.
  destruct (post cid net r s) as [[resp|e] s1] eqn:Hpost;
    apply post_sent in Hpost; by eexists.
Qed.

(** [get_from_ipfs] never raises; it gives the empty record unless the
    request is served, the address holds a block and the block parses. *)
Lemma get_from_ipfs_cases h s :
  ∃ d s', get_from_ipfs cid net loads h s = (Ok d, s')
    ∧ sent s' = S (sent s)
    ∧ d = match net (sent s), blocks (ipfs s) !! h with
          | Served, Some body => default [] (loads body)
          | _, _ => []
          end
    ∧ ipfs s' = ipfs s ∧ local_files s' = local_files s
    ∧ ∃ status, log s' = log s ++ [Http (Cat h) status].
Proof.
  unfold get_from_ipfs, try_except, bind.
  destruct (post_cases cid net (Cat h) s) as [(N & E)|[(N & E)|(N & E)]]; rewrite E, N.
  1,2: eexists _, _; split_and!; try done; by eexists.
  cbn [serve]. destruct (blocks (ipfs s) !! h) as [body|]; cbn [fst snd status_code text].
  - change (200 =? 200) with true. cbv iota.
    destruct (loads body) as [d|]; eexists _, _; (split_and!; [done..|by eexists]).
  - eexists _, _; (split_and!; [done..|by eexists]).
Qed.

Lemma verify_ipfs_upload_ok h s :
  ∃ b s', verify_ipfs_upload cid net loads h s = (Ok b, s').
Proof.
  unfold verify_ipfs_upload, try_except. unfold bind at 1.
  destruct (get_from_ipfs_cases h s) as (d & s1 & -> & _).
  destruct d as [|kv d]; [by eexists _, _|].
  unfold bind. destruct (post cid net (FilesLs "/patents") s1) as [[resp|e] s2];
    by eexists _, _.
Qed.

End Requests.

Section UploadResult.
Import PyStr Json World IpfsHandler Frames IpfsHandlerRest.
Variable cid : string → string.
Variable net : nat → reply.
Variable loads : string → option dict.

(** The rest of [save_and_upload] behind the pin request: only the
    request for the state of the file can make it raise. *)
Lemma mirror_result patent_number final_hash s :
  ∃ s',
    (try_except (bind (post cid net (FilesRm (mfs_path patent_number))) (λ _, ret tt))
                (λ _, ret tt) ;;;
     try_except (bind (post cid net (FilesCp final_hash (mfs_path patent_number)))
                      (λ _, ret tt))
                (λ _, ret tt) ;;;
     verify_response <- post cid net (FilesStat (mfs_path patent_number)) ;;
     _ <- verify_ipfs_upload cid net loads final_hash ;;
     ret final_hash)%world s
    = (match net (S (S (sent s))) with
       | Unreachable => Raise ConnectionError
       | _ => Ok final_hash
       end, s').
Proof.
  unfold bind at 1.
  destruct (post_ignored cid net (FilesRm (mfs_path patent_number)) s) as (s1 & -> & Hs1).
  unfold bind at 1.
  destruct (post_ignored cid net (FilesCp final_hash (mfs_path patent_number)) s1)
    as (s2 & -> & Hs2).
  rewrite Hs1 in Hs2. rewrite <- Hs2.
  unfold bind at 1.
  destruct (post_cases cid net (FilesStat (mfs_path patent_number)) s2)
    as [(N & E)|[(N & E)|(N & E)]]; rewrite E, N; [by eexists|..].
  all: unfold bind at 1.
  all: match goal with |- context [verify_ipfs_upload cid net loads ?h ?s3] =>
         destruct (verify_ipfs_upload_ok cid net loads h s3) as (b & s4 & ->) end.
  all: by eexists.
Qed.

(** X10. What [save_and_upload] returns.  It never raises.  It returns
    the address of the second upload exactly when both uploads are
    answered with 200 and neither the pin request nor the request for
    the state of the mirrored file raises; in every other case it
    returns the empty string.  The status of the pin, of the two
    requests on the mirror and of the state request, and the result of
    the verification, do not count. *)
Theorem upload_result patent_data patent_number s :
  let n := sent s in
  let d1 := formatted patent_data patent_number in
  let addr1 := cid (dumps (Some 2%nat) true d1) in
  let addr2 := cid (dumps (Some 2%nat) true (set d1 "ipfs_hash" (JStr addr1))) in
  (save_and_upload cid net loads patent_data patent_number s).1
  = Ok (if is_served (net n) && is_served (net (1 + n))
           && is_answered (net (2 + n)) && is_answered (net (5 + n))
        then addr2 else EmptyString).
Proof.
  intros n d1 addr1 addr2. subst n.
  unfold save_and_upload. fold d1.
  unfold try_except at 1. unfold bind at 1.
  destruct (post_cases cid net (Add (dumps (Some 2%nat) true d1)) s)
    as [(N1 & E1)|[(N1 & E1)|(N1 & E1)]]; rewrite E1, N1; [done|done|].
  cbn [serve fst snd status_code Hash]. change (200 =? 200) with true. cbv iota.
  fold addr1.
  set (s1 := emit _ (with_ipfs _ (tick_sent s))).
  assert (sent s1 = S (sent s)) as Hs1 by done.
  unfold bind at 1.
  destruct (post_cases cid net
              (Add (dumps (Some 2%nat) true (set d1 "ipfs_hash" (JStr addr1)))) s1)
    as [(N2 & E2)|[(N2 & E2)|(N2 & E2)]]; rewrite E2; rewrite Hs1 in N2;
    cbn [Nat.add]; rewrite N2; [done|done|].
  cbn [serve fst snd status_code Hash]. change (200 =? 200) with true. cbv iota.
  fold addr2.
  set (s2 := emit _ (with_ipfs _ (tick_sent s1))).
  unfold bind at 1. unfold write_file at 1. cbv beta iota.
  set (s3 := emit _ (with_files _ s2)).
  assert (sent s3 = S (S (sent s))) as Hs3 by done.
  unfold bind at 1.
  destruct (post_cases cid net (PinAdd addr2) s3) as [(N3 & E3)|[(N3 & E3)|(N3 & E3)]];
    rewrite E3; rewrite Hs3 in N3; rewrite N3; clear E3; [done|..].
  all: cbv beta iota; cbn [is_served is_answered andb].
  all: match goal with |- context [bind ?m ?k ?s4] =>
         destruct (mirror_result patent_number addr2 s4) as (s' & Hm);
         assert (sent s4 = S (S (S (sent s)))) as Hs4 by done end.
  all: rewrite Hm, Hs4; by destruct (net (S (S (S (S (S (sent s))))))).
Qed.

End UploadResult.

Section Queries.
Import PyStr Json World IpfsHandler Frames IpfsHandlerRest.
Variable cid : string → string.
Variable net : nat → reply.
Variable loads : string → option dict.



End Queries.

Section StoreAndRetrieve.
Import PyStr Json World IpfsHandler Frames IpfsHandlerRest.
Variable cid : string → string.
Variable net : nat → reply.
Variable loads : string → option dict.




End StoreAndRetrieve.

Section ServedUpload.
Import PyStr Json World IpfsHandler Frames IpfsHandlerRest.
Variable cid : string → string.
Variable net : nat → reply.
Variable loads : string → option dict.

End ServedUpload.

(* ================================================================== *)
(** ** From the links of the crawler to the ingestion loop *)
(* ================================================================== *)

Section Links.
Import PyStr Json World IpfsHandler Working GetLinksFinal.

Lemma remove_char_absent x (s : string) :
  all_chars (λ c, negb (bool_decide (c = x))) s = true → remove_char x s = s.
Proof.
  induction s as [|c s IH]; [done|]. cbn [all_chars remove_char].
  intros [Hc Hs]%andb_true_iff. apply negb_true_iff, bool_decide_eq_false in Hc.
  rewrite decide_False by done. by rewrite IH.
Qed.

Lemma take_while_id p (s : string) :
  all_chars p s = true → take_while p (String.length s) s = s.
Proof.
  induction s as [|c s IH]; [done|]. cbn [all_chars String.length take_while].
  intros [-> Hs]%andb_true_iff. by rewrite IH.
Qed.

Lemma search_step (at_head : string → option string) c (s : string) :
  at_head (String c s) = None → search at_head (String c s) = search at_head s.
Proof. intros H. rewrite search_unfold. by rewrite H. Qed.

Lemma strip_prefix_refl (s : string) : strip_prefix s s = Some EmptyString.
Proof. induction s as [|c s IH]; [done|]. cbn [strip_prefix]. by rewrite decide_True. Qed.

(** The characters of a token: capitals and digits, none of them a
    slash or an at sign. *)
Lemma token_chars t :
  is_token t →
  t ≠ EmptyString
  ∧ all_chars isupper_or_digit t = true
  ∧ all_chars not_slash t = true
  ∧ all_chars (λ c, negb (bool_decide (c = "@"%char))) t = true.
Proof.
  intros (ds & -> & Hne & Hd).
  assert (∀ q : ascii → bool, q "U"%char = true → q "S"%char = true →
            (∀ c, isdigit c = true → q c = true) →
            all_chars q ("US" +:+ ds) = true) as Hall.
  { intros q HU HS Hq. rewrite !append_cons. change (EmptyString +:+ ds) with ds.
    cbn [all_chars]. rewrite HU, HS. cbn [andb].
    by apply (all_chars_impl isdigit). }
  split_and!; [done|apply Hall..]; try done.
  - intros c Hc. unfold isupper_or_digit. rewrite Hc. apply orb_true_r.
  - intros c Hc. unfold not_slash. apply negb_true_iff, bool_decide_eq_false.
    intros ->. by vm_compute in Hc.
  - intros c Hc. apply negb_true_iff, bool_decide_eq_false.
    intros ->. by vm_compute in Hc.
Qed.

(** No position inside a text without a slash begins with [/patent/]. *)
Lemma search_no_slash (at_head : string → option string) (s : string) :
  (∀ r, strip_prefix "/patent/" r = None → at_head r = None) →
  all_chars not_slash s = true → search at_head s = None.
Proof.
  intros Hhead. induction s as [|c s IH]; intros Hs.
  - rewrite search_unfold. by rewrite Hhead.
  - cbn [all_chars] in Hs. apply andb_true_iff in Hs as [Hc Hs].
    rewrite search_step; [by apply IH|]. apply Hhead.
    cbn [strip_prefix]. rewrite decide_False; [done|].
    intros <-. by vm_compute in Hc.
Qed.

Lemma patent_no_at_prefix r : strip_prefix "/patent/" r = None → patent_no_at r = None.
Proof. unfold patent_no_at. by intros ->. Qed.

Lemma publication_at_prefix r : strip_prefix "/patent/" r = None → publication_at r = None.
Proof. unfold publication_at. by intros ->. Qed.

Lemma search_patent_link (at_head : string → option string) t :
  (∀ r, strip_prefix "/patent/" r = None → at_head r = None) →
  search at_head (patent_link t) = search at_head ("/patent/" +:+ t).
Proof.
  intros Hhead. unfold patent_link.
  rewrite !append_cons. change (EmptyString +:+ t) with t.
  do 26 (rewrite search_step; [|by apply Hhead]).
  done.
Qed.

(** X14. The link built from a patent number that is [US] followed by
    digits 0 to 9 names that number to the ingestion loop: the cleaning
    of [main] leaves the link as it is and the pattern of [main] finds
    the number in it, so that the record file is
    patent_json/<number>.json; the pattern of the extraction, which
    wants a slash behind the number, finds nothing in it.  (The
    pattern of the crawler also takes decimal digits beyond 0 to 9,
    which the pattern of [main] does not.) *)
Theorem patent_link_names_its_number tok :
  is_token tok →
  let url := remove_char "@" (strip (patent_link tok)) in
  url = patent_link tok
  ∧ search patent_no_at url = Some tok
  ∧ search publication_at url = None.
Proof.
  intros Htok. cbv zeta.
  destruct (token_chars tok Htok) as (Hne & Hup & Hsl & Hat).
  rewrite strip_patent_link by done.
  assert (remove_char "@" (patent_link tok) = patent_link tok) as ->.
  { apply remove_char_absent. unfold patent_link.
    rewrite all_chars_app, Hat. done. }
  split; [done|]. split.
  - rewrite search_patent_link by apply patent_no_at_prefix.
    rewrite search_unfold. unfold patent_no_at.
    rewrite !append_cons. change (EmptyString +:+ tok) with tok.
    assert (strip_prefix "/patent/" ("/patent/" +:+ tok) = Some tok) as Hsp by done.
    rewrite !append_cons in Hsp. change (EmptyString +:+ tok) with tok in Hsp.
    rewrite Hsp, take_while_id by done. by destruct tok.
  - rewrite search_patent_link by apply publication_at_prefix.
    rewrite !append_cons. change (EmptyString +:+ tok) with tok.
    rewrite search_step.
    + destruct Htok as (ds & -> & _ & Hd).
      rewrite !append_cons. change (EmptyString +:+ ds) with ds.
      do 9 (rewrite search_step; [|by apply publication_at_prefix]).
      apply search_no_slash; [apply publication_at_prefix|].
      apply (all_chars_impl isdigit); [|done].
      intros c Hc. unfold not_slash. apply negb_true_iff, bool_decide_eq_false.
      intros ->. by vm_compute in Hc.
    + unfold publication_at.
      assert (strip_prefix "/patent/" ("/patent/" +:+ tok) = Some tok) as Hsp by done.
      rewrite !append_cons in Hsp. change (EmptyString +:+ tok) with tok in Hsp.
      rewrite Hsp, take_while_id by done.
      destruct tok as [|c tok]; [done|]. by rewrite strip_prefix_refl.
Qed.

End Links.

(* ================================================================== *)
(** ** working.py: the turns of the ingestion loop *)
(* ================================================================== *)

Section Turns.
Import PyStr Json World IpfsHandler Frames Working.
Variable cid : string → string.
Variable net : nat → reply.
Variable loads : string → option dict.
Variable page_source : string → nat → option string.
Variable soup_parses : string → bool.
Variable soup_find : string → string → string → option tag.
Variable soup_str : string → string.
Variable handle : string → option string.
Variable index : nat → index_reply.
Variable uuid4 : nat → string.

Lemma extract_by_page url s :
  match cleaned_page page_source soup_parses soup_find soup_str handle url s with
  | None =>
      ∃ rendered,
        extract_patent_info_with_llm page_source soup_parses soup_find soup_str handle url s
        = (Ok None, emit (Browse url rendered) (tick_browsed s))
  | Some _ =>
      ∃ d, d ≠ []
        ∧ extract_patent_info_with_llm page_source soup_parses soup_find soup_str handle url s
          = (Ok (Some d), emit (Browse url true) (tick_browsed s))
  end.
Proof.
  destruct (extract_cases page_source soup_parses soup_find soup_str handle url s)
    as [(-> & E)|(d & Hd & [r ->] & E)]; [done|by exists d].
Qed.

(** How the turn of a URL ends.  It never raises.  A URL without a
    patent number, or with its record file on disk, leaves the world
    as it was; a page of which no record can be made leaves the files
    as they were; in every other case the record file is on disk
    behind the turn.  No file is ever removed. *)
Lemma process_url_outcome url s :
  let url' := remove_char "@" (strip url) in
  ∃ v s',
    process_url cid net loads page_source soup_parses soup_find soup_str handle index uuid4 url s
    = (Ok v, s')
    ∧ (∀ p, is_Some (local_files s !! p) → is_Some (local_files s' !! p))
    ∧ match search patent_no_at url' with
      | None => v = UrlError ∧ s' = s
      | Some no =>
          if decide (is_Some (local_files s !! local_json_path no))
          then v = AlreadyStored no ∧ s' = s
          else match cleaned_page page_source soup_parses soup_find soup_str handle
                       url' s with
               | None => v = ExtractionFailed ∧ local_files s' = local_files s
               | Some _ =>
                   (v = IndexFailed ∨ v = UploadFailed ∨ ∃ h, v = Processed no h)
                   ∧ is_Some (local_files s' !! local_json_path no)
               end
      end.
Proof.
  intros url'. unfold process_url. fold url'.
  destruct (search patent_no_at url') as [patent_no|] eqn:Hno.
  2: { by exists UrlError, s. }
  rewrite bool_decide_eq_false_2 by (by eapply search_patent_no_nonempty).
  set (path := local_json_path patent_no).
  unfold try_except at 1. unfold bind at 1. unfold exists_file.
  destruct (decide (is_Some (local_files s !! path))) as [Hfile|Hfile].
  { rewrite bool_decide_eq_true_2 by done. by exists (AlreadyStored patent_no), s. }
  rewrite bool_decide_eq_false_2 by done.
  unfold bind at 1.
  pose proof (extract_by_page url' s) as Hex.
  destruct (cleaned_page page_source soup_parses soup_find soup_str handle url' s)
    as [record0|].
  2: { destruct Hex as [rendered ->].
       by exists ExtractionFailed,
            (emit (Sleep 2) (emit (Browse url' rendered) (tick_browsed s))). }
  destruct Hex as (d & Hd & ->).
  assert (json_path patent_no = path) as Hpath by done.
  destruct d as [|kv d0]; [done|]. cbv beta iota.
  set (d := kv :: d0) in *.
  set (record := set d "publication_number" (JStr patent_no)).
  set (c1 := dumps (Some 4%nat) false record).
  set (s0 := emit (Browse url' true) (tick_browsed s)).
  unfold bind at 1.
  destruct (store_locally_cases index uuid4 path c1 (dumps None true record) s0)
    as (b & s1 & new1 & -> & _ & _ & Hf1 & _ & _).
  assert (local_files s1 = <[path := c1]> (local_files s)) as Hf1' by exact Hf1.
  clear Hf1. clearbody s0.
  assert (∀ c p, is_Some (local_files s !! p)
            → is_Some (<[path := c]> (local_files s) !! p)) as Hkept.
  { intros c p Hp. destruct (decide (p = path)) as [->|Hne].
    - rewrite lookup_insert_eq. by eexists.
    - by rewrite lookup_insert_ne. }
  destruct b.
  2: { exists IndexFailed, s1. rewrite Hf1'. split_and!; [done|apply Hkept| |].
       - by left.
       - rewrite lookup_insert_eq. by eexists. }
  unfold bind at 1.
  pose proof (save_and_upload_cases cid net loads record patent_no s1) as Hc.
  cbv zeta in Hc. rewrite Hpath in Hc.
  destruct (save_and_upload cid net loads record patent_no s1) as [res s2].
  destruct Hc as (h & new2 & -> & _ & Hc).
  assert (∃ v, (let (r, s'0) :=
                  (sleep 2 ;;; match h with
                               | EmptyString => ret UploadFailed
                               | String _ _ => ret (Processed patent_no h)
                               end)%world s2 in
                match r with Ok a => (Ok a, s'0) | Raise _ => ret UrlError s'0 end)
               = (Ok v, emit (Sleep 2) s2)
               ∧ (v = UploadFailed ∨ ∃ h, v = Processed patent_no h)) as (v & -> & Hv).
  { destruct h; eexists; (split; [reflexivity|]); [by left|right; by eexists]. }
  exists v, (emit (Sleep 2) s2). cbn [local_files emit].
  assert (∃ c, local_files s2 = <[path := c]> (local_files s)) as [c ->].
  { destruct Hc as [(_ & -> & _)|(_ & _ & _ & _ & -> & _)].
    - by eexists.
    - rewrite Hf1', insert_insert_eq. by eexists. }
  split_and!; [done|apply Hkept| |].
  - right. exact Hv.
  - rewrite lookup_insert_eq. by eexists.
Qed.

End Turns.

Section TurnTheorems.
Import PyStr Json World IpfsHandler Frames Working.
Variable cid : string → string.
Variable net : nat → reply.
Variable loads : string → option dict.
Variable page_source : string → nat → option string.
Variable soup_parses : string → bool.
Variable soup_find : string → string → string → option tag.
Variable soup_str : string → string.
Variable handle : string → option string.
Variable index : nat → index_reply.
Variable uuid4 : nat → string.

(** X15. A patent whose record was extracted is not tried again: when
    the turn of a URL ends with the index stage failed, the upload
    failed or the patent processed, the record file is on disk, and
    the next turn of the same URL skips it, leaving the world as it
    is.  When the turn ends because no record could be extracted, no
    file was written, and the next turn does not skip the URL. *)
Theorem written_record_is_not_retried url s v s' :
  let process := process_url cid net loads page_source soup_parses soup_find soup_str handle index uuid4 in
  process url s = (Ok v, s') →
  ((v = IndexFailed ∨ v = UploadFailed ∨ ∃ no h, v = Processed no h) →
   ∃ no, process url s' = (Ok (AlreadyStored no), s'))
  ∧ (v = ExtractionFailed →
     local_files s' = local_files s
     ∧ ∀ no s'', process url s' ≠ (Ok (AlreadyStored no), s'')).
Proof.
  cbv zeta. intros Hrun.
  destruct (process_url_outcome cid net loads page_source soup_parses soup_find soup_str handle
              index uuid4 url s) as (v0 & s0 & Hrun0 & _ & Hcase).
  rewrite Hrun in Hrun0. injection Hrun0 as <- <-.
  destruct (process_url_outcome cid net loads page_source soup_parses soup_find soup_str handle
              index uuid4 url s') as (v1 & s1 & Hrun1 & _ & Hcase1).
  rewrite Hrun1.
  destruct (search patent_no_at (remove_char "@" (strip url))) as [no|].
  2: { destruct Hcase as [-> _]. split; [|done]. intros [?|[?|(? & ? & ?)]]; done. }
  destruct (decide (is_Some (local_files s !! local_json_path no))) as [Hfile|Hfile].
  { destruct Hcase as [-> _]. split; [|done]. intros [?|[?|(? & ? & ?)]]; done. }
  destruct (cleaned_page _ _ _ _ _ (remove_char "@" (strip url)) s) as [record0|].
  - destruct Hcase as [Hv Hfile']. split.
    + intros _. rewrite decide_True in Hcase1 by done. destruct Hcase1 as [-> ->].
      by exists no.
    + intros ->. destruct Hv as [?|[?|(? & ?)]]; done.
  - destruct Hcase as [-> Hsame]. split.
    + intros [?|[?|(? & ? & ?)]]; done.
    + intros _. split; [done|]. intros no' s'' [= -> _].
      rewrite decide_False in Hcase1 by (by rewrite Hsame).
      destruct (cleaned_page _ _ _ _ _ _ s'); [|by destruct Hcase1].
      destruct Hcase1 as [[?|[?|(? & ?)]] _]; done.
Qed.

(** X16. The loop over the URLs never raises and gives every URL its
    turn, whatever happened to the URLs before it: there is one
    verdict for each URL; none of them is the one of the branch for an
    empty patent number, which is never taken; and no file that was on
    disk is missing afterwards. *)
Theorem ingestion_loop_total urls s :
  ∃ vs s',
    for_urls cid net loads page_source soup_parses soup_find soup_str handle index uuid4 urls s
    = (Ok vs, s')
    ∧ length vs = length urls
    ∧ (InvalidUrl ∉ vs)
    ∧ (∀ p, is_Some (local_files s !! p) → is_Some (local_files s' !! p)).
Proof.
  revert s. induction urls as [|url urls IH]; intros s.
  { exists [], s. split_and!; try done. by intros ?%elem_of_nil. }
  destruct (process_url_outcome cid net loads page_source soup_parses soup_find soup_str handle
              index uuid4 url s) as (v & s1 & Hrun & Hkept & Hcase).
  destruct (IH s1) as (vs & s2 & Hrest & Hlen & Hinv & Hkept').
  exists (v :: vs), s2. split_and!.
  - cbn [for_urls]. unfold bind at 1. rewrite Hrun. unfold bind at 1. by rewrite Hrest.
  - cbn [length]. by rewrite Hlen.
  - intros [<-|Hin]%elem_of_cons; [|done].
    destruct (search patent_no_at _); [|by destruct Hcase].
    destruct (decide _); [by destruct Hcase|].
    destruct (cleaned_page _ _ _ _ _ _ s); [|by destruct Hcase].
    destruct Hcase as [[?|[?|(? & ?)]] _]; done.
  - intros p Hp. by apply Hkept', Hkept.
Qed.

End TurnTheorems.

(* ================================================================== *)
(** ** The log of the crawler read by the ingestion loop *)
(* ================================================================== *)

Section LogReader.
Import PyStr Json World IpfsHandler Working GetLinksFinal Observe LinkFile.

Lemma text_lines_app_LF (l rest : string) :
  all_chars not_line_end l = true →
  text_lines (l +:+ String LF rest) = l :: text_lines rest.
Proof.
  induction l as [|c l IH]; intros Hl; [done|].
  cbn [all_chars] in Hl. apply andb_true_iff in Hl as [Hc Hl].
  unfold not_line_end in Hc. apply negb_true_iff, orb_false_iff in Hc as [H10 H13].
  change (String c l +:+ String LF rest) with (String c (l +:+ String LF rest)).
  cbn [text_lines]. rewrite H13, H10. by rewrite IH.
Qed.

Lemma text_lines_file_text (lines : list string) :
  Forall (λ l, all_chars not_line_end l = true) lines →
  text_lines (file_text lines) = lines ++ [EmptyString].
Proof.
  induction 1 as [|l lines Hl _ IH]; [done|].
  cbn [file_text foldr]. fold (file_text lines).
  rewrite text_lines_app_LF by done. by rewrite IH.
Qed.

Lemma read_lines (lines : list string) :
  Forall (λ l, strip l = l ∧ l ≠ EmptyString) lines →
  filter (λ line, line ≠ EmptyString) (strip <$> (lines ++ [EmptyString])) = lines.
Proof.
  induction 1 as [|l lines [Hs Hne] _ IH]; [done|].
  cbn [app fmap list_fmap]. rewrite filter_cons, Hs, decide_True by done.
  by rewrite IH.
Qed.

(** A link of the crawler is a line of its own: no newline in it,
    no space around it, not empty. *)
Lemma patent_link_line t :
  is_token t →
  all_chars not_line_end (patent_link t) = true
  ∧ strip (patent_link t) = patent_link t ∧ patent_link t ≠ EmptyString.
Proof.
  intros Ht. split_and!; [|by apply strip_patent_link|done].
  destruct Ht as (ds & -> & _ & Hd). unfold patent_link.
  rewrite !all_chars_app.
  assert (all_chars not_line_end ds = true) as ->; [|done].
  apply (all_chars_impl isdigit); [|done].
  intros c. unfold isdigit, not_line_end, between. generalize (code c). intros n.
  rewrite negb_true_iff, andb_true_iff, orb_false_iff, !N.leb_le, !N.eqb_neq. lia.
Qed.

(** X17. What the crawler logged is what the ingestion loop reads: for
    the log of a crawl that began with an empty log, written as text
    with a newline behind every link, [read_patent_urls_from_file]
    gives the links of the log, in order; from a file that does not
    exist it gives no link. *)
Theorem ingestion_reads_the_crawl_log driver fuel now checkpoint filename s :
  let r := getLinks driver fuel now (Files [] checkpoint) in
  (local_files s !! filename = Some (file_text (patents_file (files_after r))) →
   read_patent_urls_from_file filename s = (Ok (patents_file (files_after r)), s))
  ∧ (local_files s !! filename = None →
     read_patent_urls_from_file filename s = (Ok [], s)).
Proof.
  cbv zeta. split; unfold read_patent_urls_from_file; intros ->; [|done].
  pose proof (getLinks_log driver fuel now (Files [] checkpoint)) as Hlog.
  cbv zeta in Hlog. destruct Hlog as [Hfile _]; [by constructor|].
  cbn [patents_file app] in Hfile.
  assert (Forall (λ l, ∃ t, is_token t ∧ l = patent_link t)
            (patents_file (files_after (getLinks driver fuel now (Files [] checkpoint)))))
    as Hlinks.
  { rewrite Hfile. apply Forall_forall. intros l [Hl _]%elem_of_fromkeys_from.
    by apply discovered_links in Hl. }
  rewrite text_lines_file_text, read_lines; [done|..].
  all: eapply Forall_impl; [exact Hlinks|].
  all: intros l (t & Ht & ->); by destruct (patent_link_line t Ht) as (? & ? & ?).
Qed.

End LogReader.

(* ================================================================== *)
(** ** The properties at concrete inputs *)
(* ================================================================== *)

Section CrawlerWitnesses.
Import PyStr PyDate GetLinksFinal GetLinks1 Observe.
Import CrawlShape GetLinks1Run Examples MoreExamples.

(** The run over the three pages writes the checkpoints of pages 0 and
    1; the file ends as the checkpoint that records page 1 of the
    window that starts on 2024-01-01. *)
Lemma checkpoint_only_after_append_witness :
  let r := GetLinksFinal.getLinks three_pages 3 jan16_1030 no_files in
  outcome r = Ok WindowDone
  ∧ state_writes (trace r) = [0; 1]
  ∧ state_file (files_after r) = Some "2024-01-01,1"
  ∧ ∃ text, state_file (files_after r) = Some text
            ∧ load_scraping_state (Some text) = Ok (Some (midnight 19723), 1).
Proof.
  destruct (proj2 (checkpoint_only_after_append three_pages 3 jan16_1030 no_files)
              "US1234567, US1234567, US7654321" "<a>US5</a> <a>US1234567</a>" "no results")
    as (Hout & Hwrites & Hfile & Hrecords).
  - vm_compute. reflexivity.
  - lia.
  - reflexivity.
  - vm_compute. discriminate.
  - reflexivity.
  - vm_compute. discriminate.
  - reflexivity.
  - vm_compute. reflexivity.
  - split; [exact Hout|]. split; [exact Hwrites|]. split; [exact Hfile|].
    apply Hrecords. split; vm_compute; discriminate.
Defined.

(** The run over the three pages: the checkpoints are those of
    consecutive pages from page 0. *)
Lemma crawl_pages_consecutive_witness :
  let r := GetLinksFinal.getLinks three_pages 5 jan16_1030 no_files in
  state_writes (trace r) = seqZ 0 (Z.of_nat (length (state_writes (trace r)))).
Proof.
  apply (crawl_pages_consecutive three_pages 5 jan16_1030 no_files 0).
  vm_compute. reflexivity.
Defined.

(** The checkpoint of page 3 written at half past ten. *)
Lemma checkpoint_round_trip_witness :
  load_scraping_state (Some (save_scraping_state jan16_1030 3))
  = Ok (Some (midnight (day_of jan16_1030)), 3).
Proof.
  apply (checkpoint_round_trip jan16_1030 3).
  split; vm_compute; discriminate.
Defined.

(** A run at half past ten finds its own checkpoint of page 1 and
    begins at page 0. *)
Lemma checkpoint_taken_at_midnight_only_witness :
  let start_date := (get_date_range jan16_1030).1 in
  first_page jan16_1030 (Files [] (Some (save_scraping_state start_date 1)))
  = Ok (if decide (start_date mod US_PER_DAY = 0) then 1 else 0).
Proof.
  apply (checkpoint_taken_at_midnight_only jan16_1030 1 []).
  split; vm_compute; discriminate.
Defined.

(** The clock at 1700-01-06: one chunk, which ends at the clock. *)
Lemma date_chunks_shape_witness :
  ∃ s e, last (get_date_chunks (early 0)) = Some (s, e)
         ∧ early 0 - timedelta_days 1 ≤ e ≤ early 0.
Proof.
  apply (proj1 (proj2 (date_chunks_shape (early 0)))).
  vm_compute. reflexivity.
Defined.

(** The progress written at half past ten. *)
Lemma progress_round_trip_witness :
  load_progress (Some (save_progress jan16_1030)) = Ok (midnight (day_of jan16_1030)).
Proof.
  destruct (progress_round_trip jan16_1030) as [H _]; [|exact H].
  split; vm_compute; discriminate.
Defined.


End CrawlerWitnesses.

Section StoreWitnesses.
Import PyStr Json World IpfsHandler Working.
Import IpfsHandlerRest LinkFile Examples IngestExamples MoreExamples.



(** The link of US7654321. *)
Lemma patent_link_names_its_number_witness :
  search patent_no_at (remove_char "@" (strip (GetLinksFinal.patent_link "US7654321")))
  = Some "US7654321".
Proof.
  apply (patent_link_names_its_number "US7654321").
  exists "7654321". split; [reflexivity|]. split; [discriminate|reflexivity].
Defined.

(** The turn of one URL on an empty disk, and the next turn of it. *)
Lemma written_record_is_not_retried_witness :
  let process := process_url address always_served no_loads bare_page parses no_tag as_is converts
                   always_indexed doc_id in
  ∃ v s' no, process patent_url fresh = (Ok v, s')
             ∧ process patent_url s' = (Ok (AlreadyStored no), s').
Proof.
  cbv zeta.
  destruct (process_url_outcome address always_served no_loads bare_page parses no_tag as_is converts
              always_indexed doc_id patent_url fresh) as (v & s' & Hrun & _ & Hcase).
  change (search patent_no_at (remove_char "@" (strip patent_url)))
    with (Some "US1234567") in Hcase.
  cbv beta iota in Hcase.
  destruct (decide (is_Some (local_files fresh !! local_json_path "US1234567")))
    as [[? Hfile]|_]; [discriminate Hfile|].
  destruct Hcase as [Hv _].
  destruct (proj1 (written_record_is_not_retried address always_served no_loads bare_page
                     parses no_tag as_is converts always_indexed doc_id patent_url fresh v s' Hrun))
    as [no Hnext].
  - destruct Hv as [Hv|[Hv|[h Hv]]].
    + left. exact Hv.
    + right. left. exact Hv.
    + right. right. exists "US1234567", h. exact Hv.
  - exists v, s', no. exact (conj Hrun Hnext).
Defined.

(** The log of the run over the three pages, read by the ingestion
    loop. *)
Lemma ingestion_reads_the_crawl_log_witness :
  let r := GetLinksFinal.getLinks three_pages 5 jan16_1030 no_files in
  let s := State {[ "patent_urls.txt" := file_text (GetLinksFinal.patents_file (GetLinksFinal.files_after r)) ]}
             (Node ∅ ∅ ∅) 0 0 0 [] in
  read_patent_urls_from_file "patent_urls.txt" s = (Ok (GetLinksFinal.patents_file (GetLinksFinal.files_after r)), s).
Proof.
  cbv zeta.
  apply (proj1 (ingestion_reads_the_crawl_log three_pages 5 jan16_1030 None
                  "patent_urls.txt" _)).
  vm_compute. reflexivity.
Defined.

End StoreWitnesses.
